(** * build_resume_ler_rs: a résumé (.docx) to LER-RS credential converter

    A shallow embedding of [build_resume_ler_rs.py] and the properties of
    its heading classifier, record builders, credential assembler and
    null-normalizer.

    Python [str] values are sequences of Unicode code points; JSON-like
    values are an inductive type whose maps are insertion-ordered
    association lists, as Python dictionaries are.  The two sources of
    identifiers and timestamps ([uuid4], [datetime.now]) are oracles read
    through an explicit [world]. *)

From Stdlib Require Import Ascii String.
From Stdlib Require Import List NArith ZArith Bool Arith Lia.
From Stdlib Require Import Permutation.
Import ListNotations.

Set Implicit Arguments.
Set Warnings "-register-all".

(* ====================================================================== *)
(** * Part I: the model *)
(* ====================================================================== *)

(** ** Strings *)

Definition char := N.
Definition str := list char.

(** An ASCII literal as a [str]. *)
Definition lit (s : string) : str := map N_of_ascii (list_ascii_of_string s).
Arguments lit s%_string.

Fixpoint str_eqb (a b : str) : bool :=
  match a, b with
  | [], [] => true
  | x :: a', y :: b' => N.eqb x y && str_eqb a' b'
  | _, _ => false
  end.

(** Python truthiness of a string. *)
Definition nonempty (s : str) : bool :=
  match s with [] => false | _ :: _ => true end.

(** [Py_UNICODE_ISSPACE]: the code points [str.strip], [str.split] and the
    regular-expression class [\s] treat as whitespace. *)
Definition isspace (c : char) : bool :=
  ((9 <=? c) && (c <=? 13) || (28 <=? c) && (c <=? 32)
   || (c =? 133) || (c =? 160) || (c =? 5760)
   || (8192 <=? c) && (c <=? 8202)
   || (c =? 8232) || (c =? 8233) || (c =? 8239) || (c =? 8287)
   || (c =? 12288))%N.

Fixpoint lstrip (s : str) : str :=
  match s with
  | c :: tl => if isspace c then lstrip tl else s
  | [] => []
  end.

Definition rstrip (s : str) : str := rev (lstrip (rev s)).

(** [s.strip()] *)
Definition strip (s : str) : str := rstrip (lstrip s).

Fixpoint words_from (cur : str) (s : str) : list str :=
  match s with
  | [] => match cur with [] => [] | _ => [cur] end
  | c :: tl =>
      if isspace c
      then match cur with [] => words_from [] tl | _ => cur :: words_from [] tl end
      else words_from (cur ++ [c]) tl
  end.

(** [s.split()]: the maximal runs of non-whitespace characters. *)
Definition split (s : str) : list str := words_from [] s.

(** [s.startswith(p)] *)
Fixpoint startswith (s p : str) : bool :=
  match p, s with
  | [], _ => true
  | y :: p', x :: s' => N.eqb x y && startswith s' p'
  | _ :: _, [] => false
  end.

(** ** Unicode character data

    The tables of the Unicode character database that the script reaches
    through [str.lower], [str.isupper], [str.isalpha] and the regular
    expression engine are not part of the repository: they are an
    interface. *)

Class UnicodeData := {
  str_lower : str -> str;                 (* s.lower() *)
  ch_isupper : char -> bool;              (* Py_UNICODE_ISUPPER *)
  ch_islower : char -> bool;              (* Py_UNICODE_ISLOWER *)
  ch_istitle : char -> bool;              (* Py_UNICODE_ISTITLE *)
  ch_isalpha : char -> bool;              (* c.isalpha() *)
  ch_isalnum : char -> bool;              (* Py_UNICODE_ISALNUM *)
  (* a pattern letter against a text character under re.IGNORECASE *)
  re_ignorecase_eq : char -> char -> bool
}.

(** The character data of the Basic Latin block (U+0000 to U+007F), on
    which every table is elementary; characters outside the block are left
    uncased and non-alphanumeric. *)
Definition latin_upper (c : char) : bool := ((65 <=? c) && (c <=? 90))%N.
Definition latin_lower (c : char) : bool := ((97 <=? c) && (c <=? 122))%N.
Definition latin_digit (c : char) : bool := ((48 <=? c) && (c <=? 57))%N.
Definition latin_tolower (c : char) : char :=
  if latin_upper c then (c + 32)%N else c.

Definition basic_latin : UnicodeData := {|
  str_lower := map latin_tolower;
  ch_isupper := latin_upper;
  ch_islower := latin_lower;
  ch_istitle := fun _ => false;
  ch_isalpha := fun c => latin_upper c || latin_lower c;
  ch_isalnum := fun c => latin_upper c || latin_lower c || latin_digit c;
  re_ignorecase_eq := fun p c => N.eqb (latin_tolower c) p
|}.

(** ** JSON-like values *)

Inductive json : Type :=
| JNull
| JBool (b : bool)
| JNum (n : Z)
| JStr (s : str)
| JList (l : list json)
| JDict (d : list (str * json)).

(** ** Insertion-ordered dictionaries *)

Section Dict.
Variable V : Type.

Definition dict := list (str * V).

(** [d.get(k)] *)
Fixpoint dict_get (k : str) (d : dict) : option V :=
  match d with
  | [] => None
  | (k', v) :: tl => if str_eqb k k' then Some v else dict_get k tl
  end.

(** [d[k] = v]: an existing key keeps its place, a new one goes last. *)
Fixpoint dict_set (k : str) (v : V) (d : dict) : dict :=
  match d with
  | [] => [(k, v)]
  | (k', v') :: tl =>
      if str_eqb k k' then (k', v) :: tl else (k', v') :: dict_set k v tl
  end.

(** [k in d] *)
Definition dict_mem (k : str) (d : dict) : bool :=
  match dict_get k d with Some _ => true | None => false end.
End Dict.

(** A nested lookup [v[k1][k2]...] in a JSON value. *)
Fixpoint path (ks : list str) (v : json) : option json :=
  match ks with
  | [] => Some v
  | k :: ks' =>
      match v with
      | JDict d => match dict_get k d with
                   | Some v' => path ks' v'
                   | None => None
                   end
      | _ => None
      end
  end.

(** ** The outside world: identifiers, the clock and exceptions *)

Class Host := {
  uuid4 : nat -> str;      (* str(uuid4()) at the n-th draw *)
  utcnow : nat -> str      (* the ISO instant at the n-th reading of the clock *)
}.

Record world := { uuid_draws : nat; clock_reads : nat }.

(** A computation reads and advances the world, or raises ([None]). *)
Definition M (A : Type) : Type := world -> option (A * world).

Definition ret {A} (a : A) : M A := fun w => Some (a, w).
Definition raise {A} : M A := fun _ => None.
Definition bind {A B} (m : M A) (k : A -> M B) : M B :=
  fun w => match m w with
           | Some (a, w') => k a w'
           | None => None
           end.

Notation "x <- m ;; k" := (bind m (fun x => k))
  (at level 61, m at next level, right associativity).

Fixpoint mapM {A B} (f : A -> M B) (l : list A) : M (list B) :=
  match l with
  | [] => ret []
  | a :: tl => b <- f a ;; bs <- mapM f tl ;; ret (b :: bs)
  end.

Fixpoint foldM {A B} (f : A -> B -> M A) (a : A) (l : list B) : M A :=
  match l with
  | [] => ret a
  | b :: tl => a' <- f a b ;; foldM f a' tl
  end.

(** ** Constants *)

Definition en_dash : char := 8211%N.
Definition hyphen : char := 45%N.
Definition e_acute : char := 233%N.

Definition LER_RS_CONTEXT : str :=
  lit "http://schema.hropenstandards.org/4.5RC/recruiting/json/ler-rs/"
  ++ lit "ProvisionalVerifiableCredentialResumeType.json".

Definition LER_RS_SCHEMA : json :=
  JDict [(lit "id", JStr LER_RS_CONTEXT);
         (lit "type", JStr (lit "JsonSchemaValidator2018"))].

(** The canonical LER-RS properties. *)
Inductive ckey := positionHistory | educationHistory | competency | achievements.

Definition ckey_name (k : ckey) : str :=
  match k with
  | positionHistory => lit "positionHistory"
  | educationHistory => lit "educationHistory"
  | competency => lit "competency"
  | achievements => lit "achievements"
  end.

Definition ckey_eqb (a b : ckey) : bool :=
  match a, b with
  | positionHistory, positionHistory
  | educationHistory, educationHistory
  | competency, competency
  | achievements, achievements => true
  | _, _ => false
  end.

Definition SECTION_MAP : dict ckey :=
  [ (lit "experience", positionHistory);
    (lit "professional experience", positionHistory);
    (lit "work experience", positionHistory);
    (lit "work history", positionHistory);
    (lit "employment history", positionHistory);
    (lit "employment", positionHistory);
    (lit "education", educationHistory);
    (lit "academic background", educationHistory);
    (lit "skills", competency);
    (lit "competencies", competency);
    (lit "awards", achievements);
    (lit "honors", achievements) ].

Definition role_keywords : list str :=
  [ lit "manager"; lit "director"; lit "engineer"; lit "developer";
    lit "analyst"; lit "lead"; lit "officer"; lit "consultant";
    lit "specialist" ].

Section Script.
Context {U : UnicodeData} {H : Host}.

(** ** The role pattern
    [\b(manager|director|...|specialist)\b] with [re.I]. *)

(** [\w] *)
Definition is_word (c : option char) : bool :=
  match c with
  | Some c => ch_isalnum c || N.eqb c 95
  | None => false
  end.

(** [\b] between the character before and the character after. *)
Definition at_boundary (before after : option char) : bool :=
  xorb (is_word before) (is_word after).

(** Match the letters of [kw] at the head of [text]: the last character
    consumed and the rest of the text. *)
Fixpoint match_letters (kw text : str) (last : option char)
  : option (option char * str) :=
  match kw with
  | [] => Some (last, text)
  | p :: kw' =>
      match text with
      | c :: text' =>
          if re_ignorecase_eq p c then match_letters kw' text' (Some c)
          else None
      | [] => None
      end
  end.

Definition keyword_at (before : option char) (text : str) (kw : str) : bool :=
  match match_letters kw text None with
  | Some (last, rest) =>
      at_boundary before (hd_error text) && at_boundary last (hd_error rest)
  | None => false
  end.

Fixpoint role_search_from (before : option char) (text : str) : bool :=
  existsb (keyword_at before text) role_keywords
  || match text with
     | [] => false
     | c :: tl => role_search_from (Some c) tl
     end.

(** The truth value of [ROLE_RE.search(text)]. *)
Definition ROLE_RE_search (text : str) : bool := role_search_from None text.

(** ** The separator pattern [\s[–-]\s] *)

Definition is_dash (c : char) : bool := N.eqb c en_dash || N.eqb c hyphen.

Definition sep3 (a b c : char) : bool := isspace a && is_dash b && isspace c.

(** [re.split(r"\s[–-]\s", text, 1)] when the pattern matches: the text
    before the leftmost match and the text after it; [None] stands for
    the one-element result [[text]]. *)
Fixpoint re_split1 (text : str) : option (str * str) :=
  match text with
  | [] => None
  | a :: tl =>
      match tl with
      | b :: c :: rest =>
          if sep3 a b c then Some ([], rest)
          else match re_split1 tl with
               | Some (l, r) => Some (a :: l, r)
               | None => None
               end
      | _ => None
      end
  end.

(** ** Helpers *)

(** [canonical(head)] *)
Definition canonical (head : str) : option ckey :=
  dict_get (strip (str_lower head)) SECTION_MAP.

(** [new_uuid()] *)
Definition new_uuid : M str :=
  fun w => Some (lit "urn:uuid:" ++ uuid4 (uuid_draws w),
                 {| uuid_draws := S (uuid_draws w);
                    clock_reads := clock_reads w |}).

(** [datetime.now(timezone.utc).replace(microsecond=0).isoformat()] *)
Definition now_iso : M str :=
  fun w => Some (utcnow (clock_reads w),
                 {| uuid_draws := uuid_draws w;
                    clock_reads := S (clock_reads w) |}).

(** [x or None] for a string or [None]. *)
Definition or_none (x : option str) : json :=
  match x with
  | Some (c :: s) => JStr (c :: s)
  | _ => JNull
  end.

(** [to_position(text)] *)
Definition to_position (text : str) : M json :=
  let '(jt, org) :=
    match re_split1 text with
    | Some (left_, right_) =>
        if ROLE_RE_search left_ then (left_, Some right_)
        else (right_, Some left_)
    | None => (text, None)
    end in
  id <- new_uuid ;;
  ret (JDict [ (lit "id", JStr id);
               (lit "type", JStr (lit "Position"));
               (lit "jobTitle", or_none (Some jt));
               (lit "organization", or_none org);
               (lit "description", or_none (Some text)) ]).

(** [to_edu(text)] *)
Definition to_edu (text : str) : M json :=
  id <- new_uuid ;;
  ret (JDict [ (lit "id", JStr id);
               (lit "type", JStr (lit "Education"));
               (lit "description", or_none (Some text)) ]).

(** [to_comp(text)] *)
Definition to_comp (text : str) : M json :=
  id <- new_uuid ;;
  ret (JDict [ (lit "id", JStr id);
               (lit "type", JStr (lit "Competency"));
               (lit "name", or_none (Some text)) ]).

(** [to_ach(text)] *)
Definition to_ach (text : str) : M json :=
  id <- new_uuid ;;
  ret (JDict [ (lit "id", JStr id);
               (lit "type", JStr (lit "Achievement"));
               (lit "description", or_none (Some text)) ]).

Definition MAKE_OBJ (key : ckey) : str -> M json :=
  match key with
  | positionHistory => to_position
  | educationHistory => to_edu
  | competency => to_comp
  | achievements => to_ach
  end.


(** ** DOCX to sections *)

(** A paragraph as the document reader delivers it: [p.text], and
    [p.style.name] when the paragraph has a style. *)
Record paragraph := { p_text : str; p_style : option str }.

(** [text.isupper()]: no lower-case or title-case character, and at
    least one upper-case one. *)
Fixpoint isupper_from (cased : bool) (text : str) : bool :=
  match text with
  | [] => cased
  | ch :: tl =>
      if ch_islower ch || ch_istitle ch then false
      else isupper_from (cased || ch_isupper ch) tl
  end.

Definition isupper (text : str) : bool :=
  match text with
  | [ch] => ch_isupper ch
  | _ => isupper_from false text
  end.

(** [looks_like_heading(text)] *)
Definition looks_like_heading (text : str) : bool :=
  isupper text
  && (2 <=? length (split text)) && (length (split text) <=? 5)
  && (4 <=? length (filter ch_isalpha text)).

(** The loop variables of [parse_docx]. *)
Record pstate := {
  st_name : option str;
  st_current : option str;
  st_out : dict (list str)
}.

(** One iteration of the loop of [parse_docx]; [None] is the [KeyError]
    of [out[current]]. *)
Definition parse_step (st : pstate) (p : paragraph) : option pstate :=
  let txt := strip (p_text p) in
  if negb (nonempty txt) then Some st
  else
    let style :=
      str_lower (match p_style p with Some n => n | None => [] end) in
    if str_eqb style (lit "title") || startswith style (lit "heading 1")
    then
      Some (match st_name st with
            | None => {| st_name := Some txt;
                         st_current := st_current st;
                         st_out := st_out st |}
            | Some _ => st
            end)
    else if startswith style (lit "heading")
            && negb (startswith style (lit "heading 1"))
            || looks_like_heading txt
    then
      Some {| st_name := st_name st;
              st_current := Some txt;
              st_out := dict_set txt [] (st_out st) |}
    else
      match st_current st with
      | Some (c :: cur) =>
          match dict_get (c :: cur) (st_out st) with
          | Some l =>
              Some {| st_name := st_name st;
                      st_current := st_current st;
                      st_out := dict_set (c :: cur) (l ++ [txt]) (st_out st) |}
          | None => None
          end
      | _ => Some st
      end.

Fixpoint parse_loop (st : pstate) (ps : list paragraph) : option pstate :=
  match ps with
  | [] => Some st
  | p :: tl =>
      match parse_step st p with
      | Some st' => parse_loop st' tl
      | None => None
      end
  end.

(** [parse_docx(path)], on the paragraphs of the document at [path]. *)
Definition parse_docx (paragraphs : list paragraph)
  : option (option str * dict (list str)) :=
  match parse_loop {| st_name := None; st_current := None; st_out := [] |}
                   paragraphs with
  | Some st => Some (st_name st, st_out st)
  | None => None
  end.

(** ** Build VC *)

(** The parsed command-line options that [build_vc] reads; an option
    that was not given is [None]. *)
Record args := {
  subject_id : option str;
  issuer_id : option str;
  issuer_name : option str;
  given_name : option str;
  family_name : option str;
  email : option str;
  phone : option str;
  country : option str;
  region : option str
}.

(** Truthiness of a string or [None]. *)
Definition truthy (x : option str) : bool :=
  match x with Some (_ :: _) => true | _ => false end.

Definition opt_json (x : option str) : json :=
  match x with Some s => JStr s | None => JNull end.

(** [args.given_name or (name.split()[0] if name else None)] *)
Definition given_of (a : args) (name : option str) : M (option str) :=
  if truthy (given_name a) then ret (given_name a)
  else match name with
       | Some (c :: n) =>
           match split (c :: n) with
           | first :: _ => ret (Some first)
           | [] => raise                      (* IndexError *)
           end
       | _ => ret None
       end.

(** [args.family_name or
     (name.split()[-1] if name and len(name.split()) > 1 else None)] *)
Definition family_of (a : args) (name : option str) : option str :=
  if truthy (family_name a) then family_name a
  else match name with
       | Some (c :: n) =>
           if 1 <? length (split (c :: n))
           then Some (last (split (c :: n)) [])
           else None
       | _ => None
       end.

(** [x or new_uuid()] *)
Definition or_new_uuid (x : option str) : M str :=
  match x with
  | Some (c :: s) => ret (c :: s)
  | _ => new_uuid
  end.

(** [subject.setdefault(key, []).extend(objs)]; a value that is not a
    list has no [extend]. *)
Definition setdefault_extend (key : str) (objs : list json)
           (subject : dict json) : M (dict json) :=
  match dict_get key subject with
  | Some (JList l) => ret (dict_set key (JList (l ++ objs)) subject)
  | Some _ => raise
  | None => ret (dict_set key (JList objs) subject)
  end.

(** The body of the loop over [sections.items()]. *)
Definition add_section (subject : dict json) (item : str * list str)
  : M (dict json) :=
  let '(head, paras) := item in
  match canonical head with
  | None => ret subject
  | Some key =>
      objs <- mapM (MAKE_OBJ key) (filter nonempty paras) ;;
      match objs with
      | [] => ret subject
      | _ :: _ => setdefault_extend (ckey_name key) objs subject
      end
  end.

Definition canonical_keys : list str :=
  [ lit "positionHistory"; lit "educationHistory";
    lit "competency"; lit "achievements" ].

(** The guarantee of at least one section with one object. *)
Definition guarantee_section (subject : dict json) : M (dict json) :=
  if negb (existsb (fun key => dict_mem key subject) canonical_keys)
  then
    id <- new_uuid ;;
    ret (dict_set (lit "positionHistory")
           (JList [ JDict [ (lit "id", JStr id);
                            (lit "type", JStr (lit "Position"));
                            (lit "jobTitle", JNull);
                            (lit "organization", JNull);
                            (lit "description", JNull) ] ])
           subject)
  else ret subject.

Definition personal_keys : list str :=
  [ lit "givenName"; lit "familyName"; lit "email"; lit "phone" ].

Definition default_issuer_name : str :=
  lit "Self-issued r" ++ [e_acute] ++ lit "sum" ++ [e_acute] ++ lit " builder".

(** The [personal] dictionary: the four values, then the rebuild that
    keeps every key even if null. *)
Definition personal_data (given family : option str) (a : args) : dict json :=
  let personal : dict json :=
    [ (lit "givenName", opt_json given);
      (lit "familyName", opt_json family);
      (lit "email", or_none (email a));
      (lit "phone", or_none (phone a)) ] in
  map (fun k => (k, match dict_get k personal with
                    | Some v => v
                    | None => JNull
                    end)) personal_keys.

(** The [issuer] dictionary, once its identifier is chosen. *)
Definition issuer_of (iid : str) (a : args) : dict json :=
  [ (lit "type", JStr (lit "Organization"));
    (lit "id", JStr iid);
    (lit "name", JStr (match issuer_name a with
                       | Some (c :: n) => c :: n
                       | _ => default_issuer_name
                       end)) ].

(** [build_vc(name, sections, args)] *)
Definition build_vc (name : option str) (sections : dict (list str))
           (a : args) : M (dict json) :=
  given <- given_of a name ;;
  let family := family_of a name in
  let personal := personal_data given family a in
  sid <- or_new_uuid (subject_id a) ;;
  let subject : dict json :=
    [ (lit "id", JStr sid);
      (lit "type", JStr (lit "ResumeSubject"));
      (lit "personalData", JDict personal) ] in
  subject <- foldM add_section subject sections ;;
  subject <- guarantee_section subject ;;
  iid <- or_new_uuid (issuer_id a) ;;
  let issuer := issuer_of iid a in
  vid <- new_uuid ;;
  issued <- now_iso ;;
  created <- now_iso ;;
  method <- new_uuid ;;
  let vc : dict json :=
    [ (lit "@context",
       JList [ JStr (lit "https://www.w3.org/2018/credentials/v1");
               JStr LER_RS_CONTEXT ]);
      (lit "type",
       JList [ JStr (lit "VerifiableCredential");
               JStr (lit "ProvisionalVerifiableCredentialResume") ]);
      (lit "id", JStr vid);
      (lit "credentialSchema", LER_RS_SCHEMA);
      (lit "issuer", JDict issuer);
      (lit "issuanceDate", JStr issued);
      (lit "credentialSubject", JDict subject);
      (lit "proof",
       JDict [ (lit "type", JStr (lit "JsonWebSignature2020"));
               (lit "created", JStr created);
               (lit "proofPurpose", JStr (lit "assertionMethod"));
               (lit "verificationMethod", JStr method);
               (lit "jws", JStr []) ]) ] in
  ret (match name with
       | Some (c :: n) =>
           dict_set (lit "name")
             (JStr ((c :: n) ++ [32%N; en_dash; 32%N] ++ lit "Resume")) vc
       | _ => vc
       end).

End Script.

(** ** The null-normalizer *)

Definition Unknown : str := lit "Unknown".

(** [replace_nulls(obj)] *)
Fixpoint replace_nulls (obj : json) : json :=
  match obj with
  | JNull => JStr Unknown
  | JList l =>
      match map replace_nulls l with
      | [] => JList [JStr Unknown]
      | x :: l' => JList (x :: l')
      end
  | JDict d => JDict (map (fun '(k, v) => (k, replace_nulls v)) d)
  | _ => obj
  end.

(** Truthiness of a JSON-like value. *)
Definition json_truthy (v : json) : bool :=
  match v with
  | JNull => false
  | JBool b => b
  | JNum n => negb (Z.eqb n 0)
  | JStr s => nonempty s
  | JList l => match l with [] => false | _ => true end
  | JDict d => match d with [] => false | _ => true end
  end.

(** [p in s] on two strings: [p] occurs in [s]. *)
Fixpoint str_contains (s p : str) : bool :=
  startswith s p
  || match s with
     | [] => false
     | _ :: s' => str_contains s' p
     end.

(** [x == s] for a string [s]: only a string is equal to a string. *)
Definition json_is_str (s : str) (x : json) : bool :=
  match x with
  | JStr t => str_eqb t s
  | _ => false
  end.

(** The end of [main], once the credential is built: replace nulls and
    handle the proof.  The test ["jws" in vc["proof"]] is a key lookup
    on a map, a substring test on a string and a membership test on a
    list, and raises TypeError on a number or a boolean; where the test
    holds on a string or a list, the subscript [vc["proof"]["jws"]]
    raises TypeError.  [None] records the exception. *)
Definition finalize (vc : dict json) : option json :=
  match replace_nulls (JDict vc) with
  | JDict vc' =>
      match dict_get (lit "proof") vc' with
      | None => Some (JDict vc')
      | Some (JDict proof) =>
          match dict_get (lit "jws") proof with
          | None => Some (JDict vc')
          | Some jws =>
              let jws' := if json_truthy jws then jws else JStr (lit "dummy") in
              Some (JDict (dict_set (lit "proof")
                             (JDict (dict_set (lit "jws") jws' proof)) vc'))
          end
      | Some (JStr s) =>
          if str_contains s (lit "jws") then None else Some (JDict vc')
      | Some (JList l) =>
          if existsb (json_is_str (lit "jws")) l then None
          else Some (JDict vc')
      | Some _ => None
      end
  | _ => None
  end.

(** [main], from the parsed paragraphs to the value that is serialized. *)
Definition convert {U : UnicodeData} {H : Host}
           (paragraphs : list paragraph) (a : args) : M json :=
  fun w =>
    match parse_docx paragraphs with
    | Some (name, sections) =>
        match build_vc name sections a w with
        | Some (vc, w') =>
            match finalize vc with
            | Some out => Some (out, w')
            | None => None
            end
        | None => None
        end
    | None => None
    end.

(* ---------------------------------------------------------------------- *)
(** ** Vocabulary of the properties *)
(* ---------------------------------------------------------------------- *)

(** The value a computation returns from a given world. *)
Definition run {A} (m : M A) (w : world) : option A :=
  match m w with
  | Some (a, _) => Some a
  | None => None
  end.

(** The separator pattern matches at index [i] of [text]. *)
Definition sep_at (text : str) (i : nat) : bool :=
  match skipn i text with
  | a :: b :: c :: _ => sep3 a b c
  | _ => false
  end.

(** [i] is where the leftmost match of the separator pattern starts. *)
Definition first_sep (text : str) (i : nat) : Prop :=
  sep_at text i = true /\ forall j, j < i -> sep_at text j = false.

(** A hyphen or en-dash between two space characters (U+0020) at [i]. *)
Definition space_sep_at (text : str) (i : nat) : bool :=
  match skipn i text with
  | a :: b :: c :: _ => N.eqb a 32 && is_dash b && N.eqb c 32
  | _ => false
  end.

Definition jobTitle (r : json) : option json := path [lit "jobTitle"] r.
Definition organization (r : json) : option json := path [lit "organization"] r.
Definition description (r : json) : option json := path [lit "description"] r.

(** A Position record whose three text fields all hold [v]. *)
Definition blank_position (id : str) (v : json) : json :=
  JDict [ (lit "id", JStr id);
          (lit "type", JStr (lit "Position"));
          (lit "jobTitle", v);
          (lit "organization", v);
          (lit "description", v) ].

(** No null is left anywhere in the value. *)
Fixpoint null_free (v : json) : bool :=
  match v with
  | JNull => false
  | JList l => forallb null_free l
  | JDict d => forallb (fun '(_, x) => null_free x) d
  | _ => true
  end.

(** No empty array is left anywhere in the value. *)
Fixpoint no_empty_array (v : json) : bool :=
  match v with
  | JList [] => false
  | JList l => forallb no_empty_array l
  | JDict d => forallb (fun '(_, x) => no_empty_array x) d
  | _ => true
  end.

(** The records of a collection that may be absent. *)
Definition items (o : option json) : list json :=
  match o with
  | Some (JList l) => l
  | _ => []
  end.

(** A collection after [recs] were added to it; nothing is created for
    no record. *)
Definition extended (o : option json) (recs : list json) : option json :=
  match recs with
  | [] => o
  | _ :: _ => Some (JList (items o ++ recs))
  end.

(** Every canonical key of the subject that is present holds an array. *)
Definition collections_ok (subject : dict json) : Prop :=
  forall k, match dict_get (ckey_name k) subject with
            | Some (JList _) | None => True
            | Some _ => False
            end.

Definition all_ckeys : list ckey :=
  [positionHistory; educationHistory; competency; achievements].

(** The string has a character that is not whitespace. *)
Definition inked (s : str) : bool := existsb (fun c => negb (isspace c)) s.

Section Vocabulary.
Context {U : UnicodeData} {H : Host}.

Definition para_txt (p : paragraph) : str := strip (p_text p).

Definition para_style (p : paragraph) : str :=
  str_lower (match p_style p with Some n => n | None => [] end).

Definition title_styled (p : paragraph) : bool :=
  str_eqb (para_style p) (lit "title")
  || startswith (para_style p) (lit "heading 1").

Definition heading_shaped (p : paragraph) : bool :=
  startswith (para_style p) (lit "heading")
  && negb (startswith (para_style p) (lit "heading 1"))
  || looks_like_heading (para_txt p).

(** The paragraph is detected as a section heading. *)
Definition is_heading (p : paragraph) : bool :=
  nonempty (para_txt p) && negb (title_styled p) && heading_shaped p.

(** The paragraph is a body paragraph. *)
Definition is_body (p : paragraph) : bool :=
  nonempty (para_txt p) && negb (title_styled p) && negb (heading_shaped p).

(** The body paragraphs up to the next detected heading. *)
Fixpoint body_run (ps : list paragraph) : list str :=
  match ps with
  | [] => []
  | p :: tl =>
      if is_heading p then []
      else if is_body p then para_txt p :: body_run tl
      else body_run tl
  end.

(** Once a group is open its heading is a key of [out]. *)
Definition open_group_ok (st : pstate) : Prop :=
  match st_current st with
  | Some t => t <> [] /\ dict_get t (st_out st) <> None
  | None => True
  end.

(** A captured title has a character that is not whitespace. *)
Definition name_ok (st : pstate) : Prop :=
  match st_name st with
  | Some n => inked n = true
  | None => True
  end.

(** The non-empty paragraphs of the groups whose heading is canonically
    [k], in the order of the groups. *)
Definition routed (k : ckey) (sections : dict (list str)) : list str :=
  flat_map (fun item : str * list str =>
              match canonical (fst item) with
              | Some k' => if ckey_eqb k k' then filter nonempty (snd item)
                           else []
              | None => []
              end) sections.

(** Some group populates some canonical collection. *)
Definition populated (sections : dict (list str)) : bool :=
  existsb (fun k => match routed k sections with [] => false | _ => true end)
          all_ckeys.

(** [r] is what the builder of [k] returns on [txt]. *)
Definition built_from (k : ckey) (txt : str) (r : json) : Prop :=
  exists w w', MAKE_OBJ k txt w = Some (r, w').

(** The collection of [k] in the subject of a credential. *)
Definition collection (k : ckey) (vc : json) : option json :=
  path [lit "credentialSubject"; ckey_name k] vc.

(** [to_position(text)] returns a record with these three fields. *)
Definition position_is (text : str) (w : world) (jt org desc : json) : Prop :=
  exists rec, run (to_position text) w = Some rec
              /\ jobTitle rec = Some jt
              /\ organization rec = Some org
              /\ description rec = Some desc.

(** The guarantee of one section, on a credential [vc] built from
    [sections] and on its normalized form [out]: with no populated
    collection, positionHistory alone is present and holds one Position
    record with null fields ("Unknown" once normalized); otherwise every
    collection is the list of the records built from the paragraphs routed
    to it, and the fallback record is in none. *)
Definition fallback_rule (sections : dict (list str)) (vc : dict json)
           (out : json) : Prop :=
  (populated sections = false ->
   exists id,
     collection positionHistory (JDict vc)
     = Some (JList [blank_position id JNull])
     /\ (forall k, k <> positionHistory -> collection k (JDict vc) = None)
     /\ collection positionHistory out
        = Some (JList [blank_position id (JStr Unknown)])
     /\ (forall k, k <> positionHistory -> collection k out = None))
  /\ (populated sections = true ->
      forall k, exists recs,
        Forall2 (built_from k) (routed k sections) recs
        /\ collection k (JDict vc) = extended None recs
        /\ forall id, ~ In (blank_position id JNull) recs).

(** [build_vc] does not index an empty [name.split()]. *)
Definition title_ok (a : args) (name : option str) : bool :=
  truthy (given_name a)
  || match name with
     | Some (c :: n) => match split (c :: n) with [] => false | _ => true end
     | _ => true
     end.
End Vocabulary.

(** A host whose n-th identifier is n zeros and whose clock stands still. *)
Definition sample_host : Host :=
  {| uuid4 := fun n => repeat 48%N n;
     utcnow := fun _ => lit "2026-01-01T00:00:00+00:00" |}.

Definition w0 : world := {| uuid_draws := 0; clock_reads := 0 |}.

Definition no_args : args :=
  {| subject_id := None; issuer_id := None; issuer_name := None;
     given_name := None; family_name := None; email := None; phone := None;
     country := None; region := None |}.

(* ---------------------------------------------------------------------- *)
(** ** Vocabulary of further properties *)
(* ---------------------------------------------------------------------- *)

(** The value holds no null and no empty array, at any depth. *)
Definition settled (v : json) : bool := null_free v && no_empty_array v.

(** What the end of [main] leaves in jws, from the value the credential
    had there: null becomes "Unknown", the empty string "dummy", any
    other string is kept. *)
Definition final_jws (jws : json) : json :=
  if json_truthy (replace_nulls jws) then replace_nulls jws
  else JStr (lit "dummy").

(** The words of the detected title. *)
Definition title_words (name : option str) : list str :=
  match name with
  | Some n => split n
  | None => []
  end.

(** The options with other values for [--country] and [--region]. *)
Definition with_location (a : args) (c r : option str) : args :=
  {| subject_id := subject_id a; issuer_id := issuer_id a;
     issuer_name := issuer_name a; given_name := given_name a;
     family_name := family_name a; email := email a; phone := phone a;
     country := c; region := r |}.

(** The identifier made from the n-th draw. *)
Definition new_id {H : Host} (n : nat) : str := lit "urn:uuid:" ++ uuid4 n.

(** The keys every credential has, in the order of the envelope. *)
Definition envelope_keys : list str :=
  [ lit "@context"; lit "type"; lit "id"; lit "credentialSchema";
    lit "issuer"; lit "issuanceDate"; lit "credentialSubject"; lit "proof" ].

(** The subject before the loop over the groups. *)
Definition subject_header (sid : str) (personal : dict json) : dict json :=
  [ (lit "id", JStr sid);
    (lit "type", JStr (lit "ResumeSubject"));
    (lit "personalData", JDict personal) ].

(** The credential before its optional display name. *)
Definition envelope (vid issued created method : str)
           (issuer subject : dict json) : dict json :=
  [ (lit "@context",
     JList [ JStr (lit "https://www.w3.org/2018/credentials/v1");
             JStr LER_RS_CONTEXT ]);
    (lit "type",
     JList [ JStr (lit "VerifiableCredential");
             JStr (lit "ProvisionalVerifiableCredentialResume") ]);
    (lit "id", JStr vid);
    (lit "credentialSchema", LER_RS_SCHEMA);
    (lit "issuer", JDict issuer);
    (lit "issuanceDate", JStr issued);
    (lit "credentialSubject", JDict subject);
    (lit "proof",
     JDict [ (lit "type", JStr (lit "JsonWebSignature2020"));
             (lit "created", JStr created);
             (lit "proofPurpose", JStr (lit "assertionMethod"));
             (lit "verificationMethod", JStr method);
             (lit "jws", JStr []) ]) ].

(** The display name, added when a title was detected. *)
Definition with_name (name : option str) (vc : dict json) : dict json :=
  match name with
  | Some (c :: n) =>
      dict_set (lit "name")
        (JStr ((c :: n) ++ [32%N; en_dash; 32%N] ++ lit "Resume")) vc
  | _ => vc
  end.

(** The world after two more identifiers and two more clock readings. *)
Definition after_envelope (w : world) : world :=
  {| uuid_draws := S (S (uuid_draws w)); clock_reads := S (S (clock_reads w)) |}.

(** The identifier of a record. *)
Definition record_id (r : json) : option json := path [lit "id"] r.

(** The records of the four collections of a subject. *)
Definition all_records (subject : dict json) : list json :=
  flat_map (fun k => items (dict_get (ckey_name k) subject)) all_ckeys.

(** The identifiers of the draws [lo], ..., [hi - 1], as record fields. *)
Definition ids_from {H : Host} (lo hi : nat) : list (option json) :=
  map (fun n => Some (JStr (new_id n))) (seq lo (hi - lo)).

(** The subject of a credential. *)
Definition subject_of (vc : dict json) : dict json :=
  match dict_get (lit "credentialSubject") vc with
  | Some (JDict s) => s
  | _ => []
  end.

(** The identifiers of a credential that [build_vc] makes itself: the
    subject's and the issuer's unless overridden, those of the records,
    the credential's own and the verification method. *)
Definition minted_ids (a : args) (vc : dict json) : list (option json) :=
  (if truthy (subject_id a) then []
   else [path [lit "credentialSubject"; lit "id"] (JDict vc)])
  ++ map record_id (all_records (subject_of vc))
  ++ (if truthy (issuer_id a) then []
      else [path [lit "issuer"; lit "id"] (JDict vc)])
  ++ [ path [lit "id"] (JDict vc);
       path [lit "proof"; lit "verificationMethod"] (JDict vc) ].

(** The string is not empty and neither starts nor ends with whitespace. *)
Definition trimmed (s : str) : bool :=
  match s with
  | [] => false
  | c :: _ => negb (isspace c) && negb (isspace (last s c))
  end.

(** The keys of a dictionary after [d[t] = ...]. *)
Definition add_key (ks : list str) (t : str) : list str :=
  if existsb (str_eqb t) ks then ks else ks ++ [t].

(** The distinct strings of a list, in the order of their first
    occurrence. *)
Definition first_seen (l : list str) : list str := fold_left add_key l [].

Section VocabularyMore.
Context {U : UnicodeData}.

(** The text of the first non-empty paragraph in a title style. *)
Definition first_title (doc : list paragraph) : option str :=
  match find (fun p => nonempty (para_txt p) && title_styled p) doc with
  | Some p => Some (para_txt p)
  | None => None
  end.

(** The paragraph is a heading or a body paragraph: it is not empty and
    not in a title style. *)
Definition counted (p : paragraph) : bool := is_heading p || is_body p.

(** The texts of the detected headings, in document order. *)
Definition heading_texts (doc : list paragraph) : list str :=
  map para_txt (filter is_heading doc).

(** The groups [parse_docx] returns. *)
Definition groups (doc : list paragraph) : option (dict (list str)) :=
  match parse_docx doc with
  | Some (_, out) => Some out
  | None => None
  end.

(** Two states of the loop of [parse_docx] with the same open group and
    the same groups. *)
Definition same_groups (x y : option pstate) : Prop :=
  match x, y with
  | Some st, Some st' =>
      st_current st = st_current st' /\ st_out st = st_out st'
  | None, None => True
  | _, _ => False
  end.

End VocabularyMore.

Section VocabularyGroups.
Context {U : UnicodeData}.

(** A heading detected with the text [t]. *)
Definition heading_of (t : str) (p : paragraph) : bool :=
  is_heading p && str_eqb (para_txt p) t.

(** A group whose heading and paragraphs are all trimmed. *)
Definition group_trimmed (item : str * list str) : Prop :=
  trimmed (fst item) = true /\ Forall (fun x => trimmed x = true) (snd item).

(** The title, the open heading and the groups are trimmed. *)
Definition all_trimmed (st : pstate) : Prop :=
  Forall group_trimmed (st_out st)
  /\ match st_current st with Some c => trimmed c = true | None => True end
  /\ match st_name st with Some n => trimmed n = true | None => True end.

End VocabularyGroups.

(** The field that carries the paragraph in a record of [k]. *)
Definition payload_field (k : ckey) : str :=
  match k with
  | competency => lit "name"
  | _ => lit "description"
  end.

(** The type that the builder of [k] writes in its records. *)
Definition record_type (k : ckey) : str :=
  match k with
  | positionHistory => lit "Position"
  | educationHistory => lit "Education"
  | competency => lit "Competency"
  | achievements => lit "Achievement"
  end.

Section VocabularyRecords.
Context {U : UnicodeData} {H : Host}.

(** [r] is the record of the paragraph [txt] in the collection of [k]:
    the builder of [k] returns it on [txt], it has the type of [k], and
    it carries [txt] itself in its description (its name for a
    competency). *)
Definition record_of (k : ckey) (txt : str) (r : json) : Prop :=
  built_from k txt r
  /\ path [lit "type"] r = Some (JStr (record_type k))
  /\ path [payload_field k] r = Some (JStr txt).

(** [r] is the record of the trimmed paragraph [txt], with a jobTitle
    when it is a Position. *)
Definition filled_record (k : ckey) (txt : str) (r : json) : Prop :=
  record_of k txt r
  /\ trimmed txt = true
  /\ (k = positionHistory ->
      exists jt, jobTitle r = Some (JStr jt) /\ jt <> []).

End VocabularyRecords.

(** ** The choice of the document

    [choose_docx] lists the directory and reads the user's answer: the
    listing and the line typed are its two inputs.  [c.isdigit()] and
    [int(s)] come with the interpreter; [int] raises ValueError ([None])
    on what it cannot read. *)

(** [s.endswith(suffix)] *)
Definition endswith (s suffix : str) : bool :=
  startswith (rev s) (rev suffix).

Inductive chosen : Type :=
| Exit (message : str)          (* sys.exit(message) *)
| ValueError                    (* raised by int(sel) *)
| IndexError                    (* raised by docs[...] *)
| Chosen (file : str).

Section Choice.
Context {U : UnicodeData}.
Variable ch_isdigit : char -> bool.
Variable py_int : str -> option nat.

(** [s.isdigit()]: at least one character, and digits only. *)
Definition isdigit (s : str) : bool := nonempty s && forallb ch_isdigit s.

(** The candidates: [f.lower().endswith(".docx")]. *)
Definition docx_files (listing : list str) : list str :=
  filter (fun f => endswith (str_lower f) (lit ".docx")) listing.

(** [choose_docx()], on the listing of the directory and the line typed. *)
Definition choose_docx (listing : list str) (typed : str) : chosen :=
  let docs := docx_files listing in
  match docs with
  | [] => Exit (lit "No .docx files found in current directory.")
  | _ :: _ =>
      let sel := strip typed in
      if negb (isdigit sel) then Exit (lit "Invalid choice.")
      else
        match py_int sel with
        | None => ValueError
        | Some n =>
            if negb ((1 <=? n) && (n <=? length docs))
            then Exit (lit "Invalid choice.")
            else match nth_error docs (n - 1) with
                 | Some f => Chosen f
                 | None => IndexError
                 end
        end
  end.

End Choice.

(** One decimal digit of the Basic Latin block. *)
Definition latin_digit_value (c : char) : option nat :=
  if latin_digit c then Some (N.to_nat (c - 48)) else None.

(** [int(s)] on the decimal digits of the Basic Latin block. *)
Definition latin_int (s : str) : option nat :=
  match s with
  | [] => None
  | _ :: _ =>
      fold_left (fun acc c =>
                   match acc, latin_digit_value c with
                   | Some n, Some d => Some (10 * n + d)
                   | _, _ => None
                   end) s (Some 0)
  end.

Section VocabularyOrder.
Context {U : UnicodeData}.

(** The canonical keys of the groups that hold a non-empty paragraph, one
    per such group, in the order of the groups. *)
Definition populating_keys (sections : dict (list str)) : list str :=
  flat_map (fun item : str * list str =>
              match canonical (fst item), filter nonempty (snd item) with
              | Some k, _ :: _ => [ckey_name k]
              | _, _ => []
              end) sections.

End VocabularyOrder.

(* ====================================================================== *)
(** * Part II: properties *)
(* ====================================================================== *)

(** ** Strings and dictionaries *)

Lemma str_eqb_eq (a b : str) : str_eqb a b = true <-> a = b.
Proof.
  revert b; induction a as [|x a IH]; intros [|y b]; simpl; split;
    try congruence; try reflexivity.
  - intros E. apply andb_true_iff in E as [E1 E2].
    apply N.eqb_eq in E1. apply IH in E2. congruence.
  - intros E. injection E as -> ->. rewrite N.eqb_refl. simpl. now apply IH.
Qed.

Lemma str_eqb_refl (a : str) : str_eqb a a = true.
Proof. now apply str_eqb_eq. Qed.

Lemma str_eqb_neq (a b : str) : a <> b -> str_eqb a b = false.
Proof.
  intros N. destruct (str_eqb a b) eqn:E; [|reflexivity].
  apply str_eqb_eq in E. contradiction.
Qed.

Lemma dict_get_set_same V (k : str) (v : V) (d : dict V) :
  dict_get k (dict_set k v d) = Some v.
Proof.
  induction d as [|[k' v'] d IH]; simpl.
  - now rewrite str_eqb_refl.
  - destruct (str_eqb k k') eqn:E; simpl; rewrite E; [reflexivity | exact IH].
Qed.

Lemma dict_get_set_other V (k k' : str) (v : V) (d : dict V) :
  k <> k' -> dict_get k (dict_set k' v d) = dict_get k d.
Proof.
  intros N. induction d as [|[k2 v2] d IH]; simpl.
  - now rewrite str_eqb_neq.
  - destruct (str_eqb k' k2) eqn:E; simpl.
    + apply str_eqb_eq in E; subst k2. now rewrite str_eqb_neq.
    + destruct (str_eqb k k2); [reflexivity | exact IH].
Qed.

Lemma dict_get_map V W (f : V -> W) (k : str) (d : dict V) :
  dict_get k (map (fun '(k', v) => (k', f v)) d) = option_map f (dict_get k d).
Proof.
  induction d as [|[k' v'] d IH]; simpl; [reflexivity|].
  destruct (str_eqb k k'); [reflexivity | exact IH].
Qed.

(** ** The separator and the role pattern *)

Lemma sep_at_cons (a : char) (text : str) (i : nat) :
  sep_at (a :: text) (S i) = sep_at text i.
Proof. reflexivity. Qed.

Lemma sep_at_short (text : str) (i : nat) :
  sep_at text i = true -> 3 <= length (skipn i text).
Proof.
  unfold sep_at. destruct (skipn i text) as [|a [|b [|c r]]]; simpl;
    try discriminate. intros _. lia.
Qed.

Lemma first_sep_tail (a : char) (text : str) (i : nat) :
  first_sep (a :: text) (S i) -> first_sep text i.
Proof.
  intros [Hs Hm]. split; [exact Hs|].
  intros j Hj. rewrite <- (sep_at_cons a). apply Hm. lia.
Qed.

(** [re.split] cuts at the leftmost match and nowhere else. *)
Lemma re_split1_first (text : str) (i : nat) :
  first_sep text i ->
  re_split1 text = Some (firstn i text, skipn (i + 3) text).
Proof.
  revert i. induction text as [|a tl IH]; intros i Hf.
  - destruct Hf as [Hs _]. unfold sep_at in Hs.
    rewrite skipn_nil in Hs. discriminate.
  - destruct i as [|i].
    + destruct Hf as [Hs _]. unfold sep_at in Hs. simpl in Hs.
      destruct tl as [|b [|c rest]]; try discriminate.
      simpl. rewrite Hs. reflexivity.
    + pose proof (first_sep_tail Hf) as Hf'.
      destruct Hf as [Hs Hm].
      pose proof (sep_at_short _ _ Hs) as Hlen. simpl in Hlen.
      assert (H0 : sep_at (a :: tl) 0 = false) by (apply Hm; lia).
      destruct tl as [|b [|c rest]].
      * rewrite skipn_nil in Hlen. simpl in Hlen. lia.
      * destruct i; simpl in Hlen; [lia|]. rewrite skipn_nil in Hlen.
        simpl in Hlen. lia.
      * unfold sep_at in H0. simpl in H0.
        change (re_split1 (a :: b :: c :: rest))
          with (if sep3 a b c then Some ([], rest)
                else match re_split1 (b :: c :: rest) with
                     | Some (l, r) => Some (a :: l, r)
                     | None => None
                     end).
        rewrite H0, (IH i Hf'). reflexivity.
Qed.

Lemma re_split1_none (text : str) :
  (forall i, sep_at text i = false) -> re_split1 text = None.
Proof.
  induction text as [|a tl IH]; intros Hn; [reflexivity|].
  destruct tl as [|b [|c rest]]; try reflexivity.
  change (re_split1 (a :: b :: c :: rest))
    with (if sep3 a b c then Some ([], rest)
          else match re_split1 (b :: c :: rest) with
               | Some (l, r) => Some (a :: l, r)
               | None => None
               end).
  pose proof (Hn 0) as H0. unfold sep_at in H0. simpl in H0. rewrite H0.
  rewrite IH; [reflexivity|].
  intros i. rewrite <- (sep_at_cons a). apply Hn.
Qed.

Section RecordBuilders.
Context {U : UnicodeData} {H : Host}.

(** The role pattern needs at least one letter to match. *)
Lemma ROLE_RE_search_empty : ROLE_RE_search [] = false.
Proof. reflexivity. Qed.

Lemma or_none_role (s : str) :
  ROLE_RE_search s = true -> or_none (Some s) = JStr s.
Proof.
  destruct s; [rewrite ROLE_RE_search_empty; discriminate | reflexivity].
Qed.

Lemma to_position_split_left (text l r : str) (w : world) :
  re_split1 text = Some (l, r) -> ROLE_RE_search l = true ->
  position_is text w (or_none (Some l)) (or_none (Some r))
              (or_none (Some text)).
Proof.
  intros Hs Hr. unfold position_is, run, to_position. rewrite Hs, Hr.
  eexists. split; [reflexivity|]. repeat split.
Qed.

Lemma to_position_split_right (text l r : str) (w : world) :
  re_split1 text = Some (l, r) -> ROLE_RE_search l = false ->
  position_is text w (or_none (Some r)) (or_none (Some l))
              (or_none (Some text)).
Proof.
  intros Hs Hr. unfold position_is, run, to_position. rewrite Hs, Hr.
  eexists. split; [reflexivity|]. repeat split.
Qed.

Lemma to_position_whole (text : str) (w : world) :
  re_split1 text = None ->
  position_is text w (or_none (Some text)) JNull (or_none (Some text)).
Proof.
  intros Hs. unfold position_is, run, to_position. rewrite Hs.
  eexists. split; [reflexivity|]. repeat split.
Qed.

End RecordBuilders.

(** ** Position records *)

Section PositionClaims.
Context {U : UnicodeData} {H : Host}.

Lemma to_position_total (text : str) (w : world) :
  exists jt org, position_is text w jt org (or_none (Some text)).
Proof.
  destruct (re_split1 text) as [[l r]|] eqn:Hs.
  - destruct (ROLE_RE_search l) eqn:Hr.
    + do 2 eexists. eapply to_position_split_left; eassumption.
    + do 2 eexists. eapply to_position_split_right; eassumption.
  - do 2 eexists. now apply to_position_whole.
Qed.

(** C1, as the code has it: when the text has a hyphen or en-dash between
    two whitespace characters and the role pattern matches neither the
    text before nor the text after the first such separator, jobTitle is
    the right side and organization the left side (an empty side is
    recorded as null). *)
Theorem to_position_default_right (text : str) (i : nat) (w : world) :
  first_sep text i ->
  ROLE_RE_search (firstn i text) = false ->
  ROLE_RE_search (skipn (i + 3) text) = false ->
  position_is text w
    (or_none (Some (skipn (i + 3) text)))
    (or_none (Some (firstn i text)))
    (or_none (Some text)).
Proof.
  intros Hf Hl _. eapply to_position_split_right; [|exact Hl].
  now apply re_split1_first.
Qed.

(** C2, as the code has it: a text with a hyphen or en-dash between two
    whitespace characters (any whitespace, not only U+0020) is split
    once, at the first such separator; when the role pattern matches
    exactly one side, that side is jobTitle and the other side is
    organization (null when empty); a text with no such separator has
    jobTitle the whole text (null when empty) and organization null. *)
Theorem to_position_split_rule (text : str) (w : world) :
  (forall i, first_sep text i ->
     let l := firstn i text in
     let r := skipn (i + 3) text in
     re_split1 text = Some (l, r)
     /\ (ROLE_RE_search l = true -> ROLE_RE_search r = false ->
         position_is text w (JStr l) (or_none (Some r)) (or_none (Some text)))
     /\ (ROLE_RE_search l = false -> ROLE_RE_search r = true ->
         position_is text w (JStr r) (or_none (Some l)) (or_none (Some text))))
  /\ ((forall i, sep_at text i = false) ->
      re_split1 text = None
      /\ position_is text w (or_none (Some text)) JNull (or_none (Some text))).
Proof.
  split.
  - intros i Hf l r. pose proof (re_split1_first Hf) as Hs. fold l r in Hs.
    split; [exact Hs|]. split.
    + intros Hl _. rewrite <- (or_none_role _ Hl).
      eapply to_position_split_left; eassumption.
    + intros Hl Hr. rewrite <- (or_none_role _ Hr).
      eapply to_position_split_right; eassumption.
  - intros Hn. pose proof (re_split1_none _ Hn) as Hs.
    split; [exact Hs|]. now apply to_position_whole.
Qed.

(** C9: when the role pattern matches both sides of the first separator
    (a hyphen or en-dash between two whitespace characters), the left
    side is jobTitle and the right side is organization. *)
Theorem to_position_left_priority (text : str) (i : nat) (w : world) :
  first_sep text i ->
  ROLE_RE_search (firstn i text) = true ->
  ROLE_RE_search (skipn (i + 3) text) = true ->
  position_is text w
    (JStr (firstn i text)) (JStr (skipn (i + 3) text)) (or_none (Some text)).
Proof.
  intros Hf Hl Hr.
  rewrite <- (or_none_role _ Hl), <- (or_none_role _ Hr).
  eapply to_position_split_left; [|exact Hl]. now apply re_split1_first.
Qed.

(** C10: the description of a Position record is the whole paragraph
    text, separator and both sides included, whenever the text is not
    empty; it is null exactly when the text is empty. *)
Theorem to_position_description (text : str) (w : world) :
  exists rec,
    run (to_position text) w = Some rec
    /\ (text <> [] -> description rec = Some (JStr text))
    /\ (description rec = Some JNull <-> text = []).
Proof.
  destruct (to_position_total text w) as (jt & org & rec & Hrun & _ & _ & Hd).
  exists rec. split; [exact Hrun|]. rewrite Hd. split.
  - intros Hne. destruct text; [contradiction | reflexivity].
  - destruct text; simpl; split; congruence.
Qed.

End PositionClaims.

Ltac no_sep_before j :=
  intros j ?; repeat (destruct j as [|j]; [reflexivity|]); lia.

Ltac every_index i :=
  first [ reflexivity | destruct i as [|i]; [reflexivity | every_index i] ].

(** The default when no side names a role, on "Acme Corp - Sales". *)
Lemma to_position_default_right_witness :
  let text := lit "Acme Corp - Sales" in
  first_sep text 9
  /\ position_is (U := basic_latin) (H := sample_host) text w0
       (JStr (lit "Sales")) (JStr (lit "Acme Corp")) (JStr text).
Proof.
  assert (Hf : first_sep (lit "Acme Corp - Sales") 9)
    by (split; [reflexivity | no_sep_before j]).
  split; [exact Hf|].
  apply (@to_position_default_right basic_latin sample_host
           (lit "Acme Corp - Sales") 9 w0 Hf); reflexivity.
Defined.

(** C1 as stated fails: on "Acme Corp - Sales" no side names a role, the
    separator stands between two spaces, and jobTitle is the right side
    "Sales", not the left side. *)
Lemma default_left_rule_fails :
  let text := lit "Acme Corp - Sales" in
  let l := lit "Acme Corp" in
  let r := lit "Sales" in
  space_sep_at text 9 = true
  /\ first_sep text 9
  /\ firstn 9 text = l /\ skipn (9 + 3) text = r
  /\ ROLE_RE_search (U := basic_latin) l = false
  /\ ROLE_RE_search (U := basic_latin) r = false
  /\ position_is (U := basic_latin) (H := sample_host) text w0
       (JStr r) (JStr l) (JStr text)
  /\ ~ (exists rec,
          run (to_position (U := basic_latin) (H := sample_host) text) w0
          = Some rec
          /\ jobTitle rec = Some (JStr l)
          /\ organization rec = Some (JStr r)).
Proof.
  cbv zeta. repeat split; try reflexivity.
  - no_sep_before j.
  - eexists. split; [reflexivity|]. repeat split.
  - intros (rec & Hrun & Hj & _). vm_compute in Hrun.
    injection Hrun as <-. vm_compute in Hj. discriminate.
Qed.

(** The split rule on "Acme Corp – Senior Engineer" (en-dash, the role on
    the right side only) and on "Accountant" (no separator). *)
Lemma to_position_split_rule_witness :
  let text := lit "Acme Corp " ++ [en_dash] ++ lit " Senior Engineer" in
  first_sep text 9
  /\ position_is (U := basic_latin) (H := sample_host) text w0
       (JStr (lit "Senior Engineer")) (JStr (lit "Acme Corp")) (JStr text)
  /\ position_is (U := basic_latin) (H := sample_host) (lit "Accountant") w0
       (JStr (lit "Accountant")) JNull (JStr (lit "Accountant")).
Proof.
  set (text := lit "Acme Corp " ++ [en_dash] ++ lit " Senior Engineer").
  assert (Hf : first_sep text 9) by (split; [reflexivity | no_sep_before j]).
  cbv zeta. split; [exact Hf|]. split.
  - apply (proj1 (@to_position_split_rule basic_latin sample_host text w0)
             9 Hf); reflexivity.
  - apply (proj2 (@to_position_split_rule basic_latin sample_host
                    (lit "Accountant") w0)).
    intros i. every_index i.
Defined.

(** C2 as stated fails: "Lead<TAB>-<TAB>Acme" has no hyphen or en-dash
    between two spaces, yet it is split: jobTitle is "Lead", not the whole
    text, and organization is "Acme", not null. *)
Lemma split_on_spaces_only_fails :
  let text := lit "Lead" ++ [9%N; hyphen; 9%N] ++ lit "Acme" in
  (forall i, space_sep_at text i = false)
  /\ position_is (U := basic_latin) (H := sample_host) text w0
       (JStr (lit "Lead")) (JStr (lit "Acme")) (JStr text)
  /\ ~ (exists rec,
          run (to_position (U := basic_latin) (H := sample_host) text) w0
          = Some rec
          /\ jobTitle rec = Some (JStr text)
          /\ organization rec = Some JNull).
Proof.
  cbv zeta. repeat split.
  - intros i. every_index i.
  - eexists. split; [reflexivity|]. repeat split.
  - intros (rec & Hrun & Hj & _). vm_compute in Hrun.
    injection Hrun as <-. vm_compute in Hj. discriminate.
Qed.

(** A role on both sides: "Lead Engineer - Director Labs". *)
Lemma to_position_left_priority_witness :
  let text := lit "Lead Engineer - Director Labs" in
  first_sep text 13
  /\ position_is (U := basic_latin) (H := sample_host) text w0
       (JStr (lit "Lead Engineer")) (JStr (lit "Director Labs")) (JStr text).
Proof.
  assert (Hf : first_sep (lit "Lead Engineer - Director Labs") 13)
    by (split; [reflexivity | no_sep_before j]).
  split; [exact Hf|].
  apply (@to_position_left_priority basic_latin sample_host
           (lit "Lead Engineer - Director Labs") 13 w0 Hf); reflexivity.
Defined.

(** The description of "Software Engineer – Acme Corp" is the whole line. *)
Lemma to_position_description_witness :
  let text := lit "Software Engineer " ++ [en_dash] ++ lit " Acme Corp" in
  exists rec,
    run (to_position (U := basic_latin) (H := sample_host) text) w0 = Some rec
    /\ description rec = Some (JStr text).
Proof.
  set (text := lit "Software Engineer " ++ [en_dash] ++ lit " Acme Corp").
  destruct (@to_position_description basic_latin sample_host text w0)
    as (rec & Hrun & Hd & _).
  exists rec. split; [exact Hrun|]. apply Hd. discriminate.
Defined.

(** ** The null-normalizer *)

(** Induction on JSON-like values, through arrays and maps. *)
Lemma json_nested_ind (P : json -> Prop) :
  P JNull ->
  (forall b, P (JBool b)) ->
  (forall n, P (JNum n)) ->
  (forall s, P (JStr s)) ->
  (forall l, Forall P l -> P (JList l)) ->
  (forall d, Forall (fun kv => P (snd kv)) d -> P (JDict d)) ->
  forall v, P v.
Proof.
  intros Hnull Hbool Hnum Hstr Hlist Hdict.
  fix IH 1. intros [ | b | n | s | l | d ].
  - exact Hnull.
  - apply Hbool.
  - apply Hnum.
  - apply Hstr.
  - apply Hlist. induction l as [|x l IHl]; constructor; [apply IH | exact IHl].
  - apply Hdict. induction d as [|[k x] d IHd]; constructor;
      [apply IH | exact IHd].
Qed.

Lemma replace_nulls_list (x : json) (l : list json) :
  replace_nulls (JList (x :: l)) = JList (map replace_nulls (x :: l)).
Proof. reflexivity. Qed.

Lemma replace_nulls_dict (d : dict json) :
  replace_nulls (JDict d) = JDict (map (fun '(k, v) => (k, replace_nulls v)) d).
Proof. reflexivity. Qed.

Lemma replace_nulls_keys (d : dict json) :
  map fst (map (fun '(k, v) => (k, replace_nulls v)) d) = map fst d.
Proof.
  induction d as [|[k v] d IH]; simpl; [reflexivity | now rewrite IH].
Qed.

Lemma replace_nulls_null_free (v : json) : null_free (replace_nulls v) = true.
Proof.
  induction v as [ | b | n | s | l IH | d IH ] using json_nested_ind;
    try reflexivity.
  - destruct l as [|x l]; [reflexivity|].
    rewrite replace_nulls_list. cbn [null_free].
    apply forallb_forall. intros y Hy. apply in_map_iff in Hy as (z & <- & Hz).
    rewrite Forall_forall in IH. now apply IH.
  - rewrite replace_nulls_dict. cbn [null_free].
    apply forallb_forall. intros [k y] Hy.
    apply in_map_iff in Hy as ([k' z] & E & Hz). injection E as <- <-.
    rewrite Forall_forall in IH. exact (IH _ Hz).
Qed.

Lemma replace_nulls_no_empty_array (v : json) :
  no_empty_array (replace_nulls v) = true.
Proof.
  induction v as [ | b | n | s | l IH | d IH ] using json_nested_ind;
    try reflexivity.
  - destruct l as [|x l]; [reflexivity|].
    rewrite replace_nulls_list.
    change (forallb no_empty_array (map replace_nulls (x :: l)) = true).
    apply forallb_forall. intros y Hy. apply in_map_iff in Hy as (z & <- & Hz).
    rewrite Forall_forall in IH. now apply IH.
  - rewrite replace_nulls_dict. cbn [no_empty_array].
    apply forallb_forall. intros [k y] Hy.
    apply in_map_iff in Hy as ([k' z] & E & Hz). injection E as <- <-.
    rewrite Forall_forall in IH. exact (IH _ Hz).
Qed.

(** C6: the null-normalizer is idempotent on every JSON-like value. *)
Theorem replace_nulls_idempotent (v : json) :
  replace_nulls (replace_nulls v) = replace_nulls v.
Proof.
  induction v as [ | b | n | s | l IH | d IH ] using json_nested_ind;
    try reflexivity.
  - destruct l as [|x l]; [reflexivity|].
    rewrite replace_nulls_list.
    assert (E : map replace_nulls (map replace_nulls (x :: l))
                = map replace_nulls (x :: l)).
    { rewrite map_map. apply map_ext_in. intros y Hy.
      rewrite Forall_forall in IH. now apply IH. }
    remember (map replace_nulls (x :: l)) as l' eqn:El.
    destruct l' as [|y l']; [discriminate|].
    rewrite replace_nulls_list. now rewrite E.
  - rewrite !replace_nulls_dict. f_equal. rewrite map_map.
    apply map_ext_in. intros [k y] Hy. f_equal.
    rewrite Forall_forall in IH. exact (IH _ Hy).
Qed.

(** ** The structure classifier *)

Section Classifier.
Context {U : UnicodeData}.

Lemma parse_step_heading (st : pstate) (p : paragraph) :
  is_heading p = true ->
  parse_step st p =
    Some {| st_name := st_name st;
            st_current := Some (para_txt p);
            st_out := dict_set (para_txt p) [] (st_out st) |}.
Proof.
  unfold is_heading, title_styled, heading_shaped, para_style, para_txt,
    parse_step.
  intros Hh. apply andb_true_iff in Hh as [Hh Hs].
  apply andb_true_iff in Hh as [Hne Ht]. apply negb_true_iff in Ht.
  rewrite Hne, Ht, Hs. reflexivity.
Qed.

Lemma parse_step_body (st : pstate) (p : paragraph) :
  is_body p = true ->
  parse_step st p =
    match st_current st with
    | Some (c :: cur) =>
        match dict_get (c :: cur) (st_out st) with
        | Some l =>
            Some {| st_name := st_name st;
                    st_current := st_current st;
                    st_out := dict_set (c :: cur) (l ++ [para_txt p])
                                       (st_out st) |}
        | None => None
        end
    | _ => Some st
    end.
Proof.
  unfold is_body, title_styled, heading_shaped, para_style, para_txt,
    parse_step.
  intros Hb. apply andb_true_iff in Hb as [Hb Hs].
  apply andb_true_iff in Hb as [Hne Ht].
  apply negb_true_iff in Ht. apply negb_true_iff in Hs.
  rewrite Hne, Ht, Hs. reflexivity.
Qed.

Lemma parse_step_skip (st : pstate) (p : paragraph) :
  is_heading p = false -> is_body p = false ->
  exists n, parse_step st p =
              Some {| st_name := n;
                      st_current := st_current st;
                      st_out := st_out st |}.
Proof.
  unfold is_heading, is_body, title_styled, heading_shaped, para_style,
    para_txt, parse_step.
  destruct (nonempty (strip (p_text p))); simpl.
  - destruct (str_eqb _ _ || startswith _ (lit "heading 1")); simpl.
    + intros _ _. destruct st as [[n|] c o]; simpl; eexists; reflexivity.
    + intros Hh Hb. rewrite Hh in Hb. discriminate.
  - intros _ _. destruct st as [n c o]. eexists; reflexivity.
Qed.

Lemma parse_step_total (st : pstate) (p : paragraph) :
  open_group_ok st ->
  exists st', parse_step st p = Some st' /\ open_group_ok st'.
Proof.
  intros Hok. destruct (is_heading p) eqn:Hh; [|destruct (is_body p) eqn:Hb].
  - rewrite (parse_step_heading _ _ Hh). eexists. split; [reflexivity|].
    unfold open_group_ok; simpl. split.
    + unfold is_heading in Hh. destruct (para_txt p); [discriminate|].
      discriminate.
    + rewrite dict_get_set_same. discriminate.
  - rewrite (parse_step_body _ _ Hb). unfold open_group_ok in Hok.
    destruct (st_current st) as [[|c cur]|] eqn:Hc;
      try (eexists; split; [reflexivity|]; unfold open_group_ok;
           rewrite Hc; exact Hok).
    destruct Hok as [Hne Hin].
    destruct (dict_get (c :: cur) (st_out st)) as [l|] eqn:Hg;
      [|contradiction].
    eexists. split; [reflexivity|]. unfold open_group_ok; simpl.
    split; [exact Hne|]. rewrite dict_get_set_same. discriminate.
  - destruct (parse_step_skip st p Hh Hb) as [n Hn]. rewrite Hn.
    eexists. split; [reflexivity|]. exact Hok.
Qed.

Lemma parse_loop_total (ps : list paragraph) (st : pstate) :
  open_group_ok st ->
  exists st', parse_loop st ps = Some st' /\ open_group_ok st'.
Proof.
  revert st. induction ps as [|p ps IH]; intros st Hok; simpl.
  - eexists; split; [reflexivity | exact Hok].
  - destruct (parse_step_total st p Hok) as (st1 & -> & Hok1).
    now apply IH.
Qed.

Lemma parse_loop_app (ps qs : list paragraph) (st : pstate) :
  parse_loop st (ps ++ qs) =
    match parse_loop st ps with
    | Some st' => parse_loop st' qs
    | None => None
    end.
Proof.
  revert st. induction ps as [|p ps IH]; intros st; simpl; [reflexivity|].
  destruct (parse_step st p); [apply IH | reflexivity].
Qed.

(** A group that is not open, and whose heading does not come back,
    keeps its paragraphs. *)
Lemma parse_loop_closed_group (t : str) (ps : list paragraph) (st : pstate) :
  open_group_ok st ->
  st_current st <> Some t ->
  (forall p, In p ps -> is_heading p = true -> para_txt p <> t) ->
  exists st', parse_loop st ps = Some st'
              /\ dict_get t (st_out st') = dict_get t (st_out st).
Proof.
  revert st. induction ps as [|p ps IH]; intros st Hok Hc Hno; simpl.
  - eexists; split; reflexivity.
  - assert (Hno' : forall q, In q ps -> is_heading q = true -> para_txt q <> t)
      by (intros q Hq; apply Hno; now right).
    destruct (parse_step_total st p Hok) as (st1 & Hs & Hok1). rewrite Hs.
    assert (Hst1 : st_current st1 <> Some t
                   /\ dict_get t (st_out st1) = dict_get t (st_out st)).
    { destruct (is_heading p) eqn:Hh; [|destruct (is_body p) eqn:Hb].
      - rewrite (parse_step_heading _ _ Hh) in Hs. injection Hs as <-. simpl.
        assert (Hne : para_txt p <> t) by (apply Hno; [now left | exact Hh]).
        split; [congruence|]. apply dict_get_set_other. congruence.
      - rewrite (parse_step_body _ _ Hb) in Hs.
        destruct (st_current st) as [[|c cur]|] eqn:Hcur;
          try (injection Hs as <-; split; [congruence | reflexivity]).
        destruct (dict_get (c :: cur) (st_out st)); [|discriminate].
        injection Hs as <-. simpl. split; [congruence|].
        apply dict_get_set_other. congruence.
      - destruct (parse_step_skip st p Hh Hb) as [n Hn]. rewrite Hn in Hs.
        injection Hs as <-. simpl. split; [exact Hc | reflexivity]. }
    destruct Hst1 as [Hc1 Hg1].
    destruct (IH st1 Hok1 Hc1 Hno') as (st' & Hl & Hg).
    exists st'. split; [exact Hl | congruence].
Qed.

(** The open group receives the body paragraphs up to the next heading,
    and nothing after it unless its heading comes back. *)
Lemma parse_loop_open_group (t : str) (ps : list paragraph)
      (st : pstate) (acc : list str) :
  open_group_ok st ->
  st_current st = Some t ->
  dict_get t (st_out st) = Some acc ->
  (forall p, In p ps -> is_heading p = true -> para_txt p <> t) ->
  exists st', parse_loop st ps = Some st'
              /\ dict_get t (st_out st') = Some (acc ++ body_run ps).
Proof.
  revert st acc. induction ps as [|p ps IH]; intros st acc Hok Hc Hg Hno.
  - simpl. exists st. rewrite app_nil_r. now split.
  - assert (Hno' : forall q, In q ps -> is_heading q = true -> para_txt q <> t)
      by (intros q Hq; apply Hno; now right).
    cbn [parse_loop body_run].
    destruct (is_heading p) eqn:Hh; [|destruct (is_body p) eqn:Hb].
    + rewrite (parse_step_heading _ _ Hh).
      assert (Hne : para_txt p <> t) by (apply Hno; [now left | exact Hh]).
      set (st1 := {| st_name := st_name st;
                     st_current := Some (para_txt p);
                     st_out := dict_set (para_txt p) [] (st_out st) |}).
      assert (Hok1 : open_group_ok st1).
      { destruct (parse_step_total st p Hok) as (st2 & Hs & Hok2).
        rewrite (parse_step_heading _ _ Hh) in Hs. now injection Hs as <-. }
      destruct (@parse_loop_closed_group t ps st1 Hok1) as (st' & Hl & Hg');
        [simpl; congruence | exact Hno' |].
      exists st'. split; [exact Hl|]. rewrite Hg', app_nil_r. simpl.
      rewrite dict_get_set_other by congruence. exact Hg.
    + rewrite (parse_step_body _ _ Hb). rewrite Hc.
      assert (Htne : t <> []).
      { unfold open_group_ok in Hok. rewrite Hc in Hok. tauto. }
      destruct t as [|c cur]; [contradiction|]. rewrite Hg.
      set (st1 := {| st_name := st_name st;
                     st_current := Some (c :: cur);
                     st_out := dict_set (c :: cur) (acc ++ [para_txt p])
                                        (st_out st) |}).
      destruct (IH st1 (acc ++ [para_txt p])) as (st' & Hl & Hg').
      * unfold open_group_ok; simpl. split; [exact Htne|].
        rewrite dict_get_set_same. discriminate.
      * reflexivity.
      * simpl. apply dict_get_set_same.
      * exact Hno'.
      * exists st'. split; [exact Hl|]. rewrite Hg', <- app_assoc.
        reflexivity.
    + destruct (parse_step_skip st p Hh Hb) as [n Hn]. rewrite Hn.
      apply IH; simpl; first [assumption | exact Hok].
Qed.

Lemma parse_docx_loop (ps : list paragraph) (st : pstate) :
  parse_loop {| st_name := None; st_current := None; st_out := [] |} ps
  = Some st ->
  parse_docx ps = Some (st_name st, st_out st).
Proof. unfold parse_docx. now intros ->. Qed.

(** C5: when a heading text is detected a second time, that detection
    resets the group of the heading to the empty list; the group in the
    output holds the body paragraphs that follow the later occurrence,
    and none of those that followed the earlier one. *)
Theorem parse_docx_repeated_heading
        (before mid after : list paragraph) (h1 h2 : paragraph) :
  is_heading h1 = true ->
  is_heading h2 = true ->
  para_txt h1 = para_txt h2 ->
  (forall p, In p after -> is_heading p = true -> para_txt p <> para_txt h2) ->
  (exists name out,
      parse_docx (before ++ h1 :: mid ++ [h2]) = Some (name, out)
      /\ dict_get (para_txt h2) out = Some [])
  /\ (exists name out,
        parse_docx (before ++ h1 :: mid ++ h2 :: after) = Some (name, out)
        /\ dict_get (para_txt h2) out = Some (body_run after)).
Proof.
  intros Hh1 Hh2 Ht Hno.
  set (init := {| st_name := None; st_current := None; st_out := [] |}).
  assert (Hinit : open_group_ok init) by exact I.
  destruct (parse_loop_total (before ++ h1 :: mid) init Hinit)
    as (st1 & Hl1 & Hok1).
  set (st2 := {| st_name := st_name st1;
                 st_current := Some (para_txt h2);
                 st_out := dict_set (para_txt h2) [] (st_out st1) |}).
  assert (Hs2 : parse_step st1 h2 = Some st2)
    by now apply parse_step_heading.
  assert (Hok2 : open_group_ok st2).
  { destruct (parse_step_total st1 h2 Hok1) as (st & Hs & Hok).
    rewrite Hs2 in Hs. now injection Hs as <-. }
  assert (Hg2 : dict_get (para_txt h2) (st_out st2) = Some [])
    by apply dict_get_set_same.
  split.
  - exists (st_name st2), (st_out st2). split; [|exact Hg2].
    apply parse_docx_loop. fold init.
    replace (before ++ h1 :: mid ++ [h2])
      with ((before ++ h1 :: mid) ++ [h2])
      by (rewrite <- app_assoc; reflexivity).
    rewrite parse_loop_app, Hl1. simpl. now rewrite Hs2.
  - destruct (@parse_loop_open_group (para_txt h2) after st2 [] Hok2
                eq_refl Hg2 Hno) as (st3 & Hl3 & Hg3).
    exists (st_name st3), (st_out st3). split; [|exact Hg3].
    apply parse_docx_loop. fold init.
    replace (before ++ h1 :: mid ++ h2 :: after)
      with ((before ++ h1 :: mid) ++ h2 :: after)
      by (rewrite <- app_assoc; reflexivity).
    rewrite parse_loop_app, Hl1. simpl. now rewrite Hs2.
Qed.

End Classifier.

(** A heading that comes back: the paragraph of its first occurrence is
    not in its group. *)
Lemma parse_docx_repeated_heading_witness :
  let heading := {| p_text := lit "WORK EXPERIENCE"; p_style := None |} in
  let old := {| p_text := lit "Clerk - Old Corp"; p_style := Some (lit "Normal") |} in
  let new := {| p_text := lit "Analyst - New Corp"; p_style := Some (lit "Normal") |} in
  exists name out,
    parse_docx (U := basic_latin) ([] ++ heading :: [old] ++ heading :: [new])
    = Some (name, out)
    /\ dict_get (lit "WORK EXPERIENCE") out = Some [lit "Analyst - New Corp"].
Proof.
  intros heading old new.
  refine (proj2 (@parse_docx_repeated_heading basic_latin [] [old] [new]
                   heading heading eq_refl eq_refl eq_refl _)).
  intros p [<-|[]] Hh. vm_compute in Hh. discriminate.
Defined.

(** ** The credential assembler *)

Lemma ckey_name_inj (k k' : ckey) : ckey_name k = ckey_name k' -> k = k'.
Proof. destruct k, k'; intros E; try reflexivity; vm_compute in E; discriminate. Qed.

Lemma ckey_eqb_eq (k k' : ckey) : ckey_eqb k k' = true <-> k = k'.
Proof. destruct k, k'; simpl; split; congruence. Qed.

Lemma extended_extended (o : option json) (r1 r2 : list json) :
  extended (extended o r1) r2 = extended o (r1 ++ r2).
Proof.
  destruct r1 as [|x r1]; [reflexivity|].
  destruct r2 as [|y r2]; simpl.
  - now rewrite app_nil_r.
  - now rewrite <- app_assoc.
Qed.

Lemma foldM_app A B (f : A -> B -> M A) (l1 l2 : list B) (a : A) (w : world) :
  foldM f a (l1 ++ l2) w =
    match foldM f a l1 w with
    | Some (a', w') => foldM f a' l2 w'
    | None => None
    end.
Proof.
  revert a w. induction l1 as [|b l1 IH]; intros a w; simpl; [reflexivity|].
  unfold bind. destruct (f a b w) as [[a' w']|]; [apply IH | reflexivity].
Qed.

Section Assembler.
Context {U : UnicodeData} {H : Host}.

Lemma MAKE_OBJ_total (k : ckey) (txt : str) (w : world) :
  exists r w', MAKE_OBJ k txt w = Some (r, w').
Proof.
  destruct k; cbn [MAKE_OBJ];
    unfold to_position, to_edu, to_comp, to_ach, bind, new_uuid, ret.
  - destruct (re_split1 txt) as [[l r]|];
      [destruct (ROLE_RE_search l)|]; do 2 eexists; reflexivity.
  - do 2 eexists; reflexivity.
  - do 2 eexists; reflexivity.
  - do 2 eexists; reflexivity.
Qed.

Lemma mapM_MAKE_OBJ (k : ckey) (texts : list str) (w : world) :
  exists objs w',
    mapM (MAKE_OBJ k) texts w = Some (objs, w')
    /\ Forall2 (built_from k) texts objs.
Proof.
  revert w. induction texts as [|t texts IH]; intros w; simpl.
  - do 2 eexists. split; [reflexivity | constructor].
  - destruct (MAKE_OBJ_total k t w) as (r & w1 & Hr).
    destruct (IH w1) as (objs & w2 & Hm & Hf).
    exists (r :: objs), w2. unfold bind. rewrite Hr, Hm. split; [reflexivity|].
    constructor; [now exists w, w1 | exact Hf].
Qed.

Lemma setdefault_extend_spec (k : ckey) (x : json) (objs : list json)
      (subject : dict json) (w : world) :
  collections_ok subject ->
  exists subject',
    setdefault_extend (ckey_name k) (x :: objs) subject w = Some (subject', w)
    /\ collections_ok subject'
    /\ dict_get (ckey_name k) subject'
       = extended (dict_get (ckey_name k) subject) (x :: objs)
    /\ (forall key, key <> ckey_name k ->
                    dict_get key subject' = dict_get key subject).
Proof.
  intros Hok. unfold setdefault_extend. pose proof (Hok k) as Hk.
  assert (Hset : forall v,
             collections_ok (dict_set (ckey_name k) (JList v) subject)).
  { intros v k'. destruct (ckey_eqb k' k) eqn:E.
    - apply ckey_eqb_eq in E. subst k'. now rewrite dict_get_set_same.
    - rewrite dict_get_set_other; [apply Hok|].
      intros E'. apply ckey_name_inj in E'. subst k'.
      destruct k; discriminate. }
  destruct (dict_get (ckey_name k) subject) as [[ | | | | l | ]|] eqn:Hg;
    try contradiction.
  - eexists. split; [reflexivity|]. split; [apply Hset|]. split.
    + now rewrite dict_get_set_same.
    + intros key Hkey. now apply dict_get_set_other.
  - eexists. split; [reflexivity|]. split; [apply Hset|]. split.
    + now rewrite dict_get_set_same.
    + intros key Hkey. now apply dict_get_set_other.
Qed.

Lemma routed_cons (k : ckey) (item : str * list str)
      (sections : dict (list str)) :
  routed k (item :: sections) = routed k [item] ++ routed k sections.
Proof. unfold routed. simpl. now rewrite app_nil_r. Qed.

(** One group: its records go to the collection of its canonical key,
    and to no other key of the subject. *)
Lemma add_section_spec (subject : dict json) (item : str * list str)
      (w : world) :
  collections_ok subject ->
  exists subject' w',
    add_section subject item w = Some (subject', w')
    /\ collections_ok subject'
    /\ (forall key, (forall k, key <> ckey_name k) ->
                    dict_get key subject' = dict_get key subject)
    /\ (forall k, exists recs,
           Forall2 (built_from k) (routed k [item]) recs
           /\ dict_get (ckey_name k) subject'
              = extended (dict_get (ckey_name k) subject) recs).
Proof.
  intros Hok. destruct item as [head paras].
  unfold add_section, routed. simpl.
  destruct (canonical head) as [key|] eqn:Hc.
  - destruct (mapM_MAKE_OBJ key (filter nonempty paras) w)
      as (objs & w1 & Hm & Hf).
    unfold bind. rewrite Hm.
    destruct objs as [|x objs].
    + exists subject, w1. split; [reflexivity|]. split; [exact Hok|].
      split; [reflexivity|]. intros k. exists []. split; [|reflexivity].
      inversion Hf as [E|]. destruct (ckey_eqb k key); constructor.
    + destruct (setdefault_extend_spec key x objs w1 Hok)
        as (s' & Hs & Hok' & Hg & Hother).
      exists s', w1. split; [exact Hs|]. split; [exact Hok'|]. split.
      * intros k0 Hk0. apply Hother. apply Hk0.
      * intros k. destruct (ckey_eqb k key) eqn:E.
        -- apply ckey_eqb_eq in E. subst k. exists (x :: objs).
           rewrite app_nil_r. split; [exact Hf | exact Hg].
        -- exists []. split; [constructor|]. simpl. apply Hother.
           intros E'. apply ckey_name_inj in E'. subst k.
           destruct key; discriminate.
  - exists subject, w. split; [reflexivity|]. split; [exact Hok|].
    split; [reflexivity|]. intros k. exists []. split; [constructor | reflexivity].
Qed.

(** The loop over the groups: every collection receives the records of
    the groups routed to it, in the order of the groups. *)
Lemma foldM_add_section_spec (sections : dict (list str))
      (subject : dict json) (w : world) :
  collections_ok subject ->
  exists subject' w',
    foldM add_section subject sections w = Some (subject', w')
    /\ collections_ok subject'
    /\ (forall key, (forall k, key <> ckey_name k) ->
                    dict_get key subject' = dict_get key subject)
    /\ (forall k, exists recs,
           Forall2 (built_from k) (routed k sections) recs
           /\ dict_get (ckey_name k) subject'
              = extended (dict_get (ckey_name k) subject) recs).
Proof.
  revert subject w. induction sections as [|item sections IH];
    intros subject w Hok.
  - exists subject, w. split; [reflexivity|]. split; [exact Hok|].
    split; [reflexivity|]. intros k. exists []. split; [constructor | reflexivity].
  - destruct (add_section_spec item w Hok) as (s1 & w1 & Hs1 & Hok1 & Ho1 & Hr1).
    destruct (IH s1 w1 Hok1) as (s2 & w2 & Hs2 & Hok2 & Ho2 & Hr2).
    exists s2, w2. cbn [foldM]. unfold bind. rewrite Hs1. split; [exact Hs2|].
    split; [exact Hok2|]. split.
    + intros key Hkey. rewrite (Ho2 key Hkey). now apply Ho1.
    + intros k. destruct (Hr1 k) as (r1 & Hf1 & Hg1).
      destruct (Hr2 k) as (r2 & Hf2 & Hg2).
      exists (r1 ++ r2). rewrite routed_cons. split.
      * now apply Forall2_app.
      * rewrite Hg2, Hg1. apply extended_extended.
Qed.

End Assembler.

Section Envelope.
Context {U : UnicodeData} {H : Host}.

Lemma canonical_keys_names : canonical_keys = map ckey_name all_ckeys.
Proof. reflexivity. Qed.

Lemma guarantee_section_empty (subject : dict json) (w : world) :
  (forall k, dict_get (ckey_name k) subject = None) ->
  exists id w',
    guarantee_section subject w
    = Some (dict_set (lit "positionHistory")
              (JList [blank_position id JNull]) subject, w').
Proof.
  intros Hnone. unfold guarantee_section.
  rewrite canonical_keys_names. unfold all_ckeys, dict_mem.
  cbn [map existsb]. rewrite !Hnone. cbn [orb negb].
  unfold bind, new_uuid, ret. do 2 eexists. reflexivity.
Qed.

Lemma guarantee_section_populated (subject : dict json) (w : world) (k : ckey) :
  dict_get (ckey_name k) subject <> None ->
  guarantee_section subject w = Some (subject, w).
Proof.
  intros Hk. unfold guarantee_section.
  rewrite canonical_keys_names. unfold all_ckeys, dict_mem.
  cbn [map existsb].
  destruct k;
    destruct (dict_get (ckey_name positionHistory) subject);
    destruct (dict_get (ckey_name educationHistory) subject);
    destruct (dict_get (ckey_name competency) subject);
    destruct (dict_get (ckey_name achievements) subject);
    try reflexivity; contradiction.
Qed.

Lemma given_of_ok (a : args) (name : option str) (w : world) :
  title_ok a name = true ->
  exists g, given_of a name w = Some (g, w)
            /\ (truthy (given_name a) = true -> g = given_name a).
Proof.
  unfold title_ok, given_of. intros Hok.
  destruct (truthy (given_name a)) eqn:Hg.
  - exists (given_name a). now split.
  - simpl in Hok. destruct name as [[|c n]|].
    + exists None. split; [reflexivity | discriminate].
    + destruct (split (c :: n)) as [|first rest]; [discriminate|].
      exists (Some first). split; [reflexivity | discriminate].
    + exists None. split; [reflexivity | discriminate].
Qed.

Lemma or_new_uuid_ok (x : option str) (w : world) :
  exists s w', or_new_uuid x w = Some (s, w')
               /\ (forall v, x = Some v -> v <> [] -> s = v).
Proof.
  destruct x as [[|c s]|]; simpl.
  - do 2 eexists. split; [reflexivity|]. intros v E. injection E as <-.
    congruence.
  - do 2 eexists. split; [reflexivity|]. intros v E _. congruence.
  - do 2 eexists. split; [reflexivity|]. discriminate.
Qed.

Lemma header_collections_ok (sid : str) (personal : dict json) :
  collections_ok [ (lit "id", JStr sid);
                   (lit "type", JStr (lit "ResumeSubject"));
                   (lit "personalData", JDict personal) ].
Proof. intros k. destruct k; exact I. Qed.

(** What [build_vc] returns, step by step. *)
Lemma build_vc_spec (name : option str) (sections : dict (list str))
      (a : args) (w : world) :
  title_ok a name = true ->
  exists g sid w1 s1 w2 s2 w3 iid w4 created method vc w',
    given_of a name w = Some (g, w)
    /\ (truthy (given_name a) = true -> g = given_name a)
    /\ or_new_uuid (subject_id a) w = Some (sid, w1)
    /\ (forall v, subject_id a = Some v -> v <> [] -> sid = v)
    /\ foldM add_section
         [ (lit "id", JStr sid);
           (lit "type", JStr (lit "ResumeSubject"));
           (lit "personalData",
            JDict (personal_data g (family_of a name) a)) ]
         sections w1 = Some (s1, w2)
    /\ guarantee_section s1 w2 = Some (s2, w3)
    /\ or_new_uuid (issuer_id a) w3 = Some (iid, w4)
    /\ (forall v, issuer_id a = Some v -> v <> [] -> iid = v)
    /\ build_vc name sections a w = Some (vc, w')
    /\ dict_get (lit "credentialSubject") vc = Some (JDict s2)
    /\ dict_get (lit "issuer") vc = Some (JDict (issuer_of iid a))
    /\ dict_get (lit "proof") vc
       = Some (JDict [ (lit "type", JStr (lit "JsonWebSignature2020"));
                       (lit "created", JStr created);
                       (lit "proofPurpose", JStr (lit "assertionMethod"));
                       (lit "verificationMethod", JStr method);
                       (lit "jws", JStr []) ]).
Proof.
  intros Hok.
  destruct (given_of_ok a name w Hok) as (g & Hg & Hg').
  destruct (or_new_uuid_ok (subject_id a) w) as (sid & w1 & Hsid & Hsid').
  destruct (foldM_add_section_spec sections w1
              (header_collections_ok sid
                 (personal_data g (family_of a name) a)))
    as (s1 & w2 & Hfold & Hok1 & _ & Hcoll).
  assert (Hguar : exists s2 w3, guarantee_section s1 w2 = Some (s2, w3)).
  { unfold guarantee_section, bind, new_uuid, ret.
    destruct (negb _); do 2 eexists; reflexivity. }
  destruct Hguar as (s2 & w3 & Hguar).
  destruct (or_new_uuid_ok (issuer_id a) w3) as (iid & w4 & Hiid & Hiid').
  exists g, sid, w1, s1, w2, s2, w3, iid, w4. do 4 eexists.
  split; [exact Hg|]. split; [exact Hg'|]. split; [exact Hsid|].
  split; [exact Hsid'|]. split; [exact Hfold|]. split; [exact Hguar|].
  split; [exact Hiid|]. split; [exact Hiid'|].
  unfold build_vc, bind. rewrite Hg, Hsid, Hfold, Hguar, Hiid.
  unfold new_uuid, now_iso, ret. cbn [uuid_draws clock_reads].
  split; [reflexivity|].
  destruct name as [[|c n]|]; repeat split.
Qed.

End Envelope.

Section Subject.
Context {U : UnicodeData} {H : Host}.

Lemma items_extended_absent (recs : list json) :
  items (extended None recs) = recs.
Proof. destruct recs; reflexivity. Qed.

Lemma populated_iff (sections : dict (list str)) :
  populated sections = true <-> exists k, routed k sections <> [].
Proof.
  unfold populated. rewrite existsb_exists. split.
  - intros (k & _ & Hk). exists k. destruct (routed k sections); congruence.
  - intros (k & Hk). exists k. split.
    + destruct k; simpl; tauto.
    + destruct (routed k sections); congruence.
Qed.

Lemma Forall2_nil_iff A B (R : A -> B -> Prop) (l : list A) (l' : list B) :
  Forall2 R l l' -> (l = [] <-> l' = []).
Proof. intros [|]; split; congruence. Qed.

(** The collections of the subject once the loop over the groups and
    the guarantee of one section are done. *)
Lemma assemble_subject (header : dict json) (sections : dict (list str))
      (w1 : world) :
  collections_ok header ->
  (forall k, dict_get (ckey_name k) header = None) ->
  exists s1 w2 s2 w3,
    foldM add_section header sections w1 = Some (s1, w2)
    /\ guarantee_section s1 w2 = Some (s2, w3)
    /\ (forall key, (forall k, key <> ckey_name k) ->
                    dict_get key s2 = dict_get key header)
    /\ exists recs : ckey -> list json,
        (forall k, Forall2 (built_from k) (routed k sections) (recs k))
        /\ if populated sections
           then forall k, dict_get (ckey_name k) s2 = extended None (recs k)
           else exists id,
               dict_get (ckey_name positionHistory) s2
               = Some (JList [blank_position id JNull])
               /\ forall k, k <> positionHistory ->
                            dict_get (ckey_name k) s2 = None.
Proof.
  intros Hok Hnone.
  destruct (foldM_add_section_spec sections w1 Hok)
    as (s1 & w2 & Hfold & Hok1 & Hkeep & Hcoll).
  set (recs := fun k => items (dict_get (ckey_name k) s1)).
  assert (Hrecs : forall k,
             Forall2 (built_from k) (routed k sections) (recs k)
             /\ dict_get (ckey_name k) s1 = extended None (recs k)).
  { intros k. destruct (Hcoll k) as (r & Hf & Hg). rewrite Hnone in Hg.
    unfold recs. rewrite Hg, items_extended_absent. now split. }
  destruct (populated sections) eqn:Hpop.
  - apply populated_iff in Hpop as (k & Hk).
    assert (Hin : dict_get (ckey_name k) s1 <> None).
    { destruct (Hrecs k) as [Hf Hg]. rewrite Hg.
      destruct (recs k) eqn:E; [|discriminate].
      apply Forall2_nil_iff in Hf. tauto. }
    exists s1, w2, s1, w2. split; [exact Hfold|].
    split; [now apply guarantee_section_populated with k|].
    split; [exact Hkeep|]. exists recs. split; intros k'; apply Hrecs.
  - assert (Hempty : forall k, dict_get (ckey_name k) s1 = None).
    { intros k. destruct (Hrecs k) as [Hf Hg]. rewrite Hg.
      destruct (routed k sections) eqn:E.
      - inversion Hf. reflexivity.
      - assert (Hp : populated sections = true)
          by (apply populated_iff; exists k; congruence).
        congruence. }
    destruct (guarantee_section_empty s1 w2 Hempty) as (id & w3 & Hguar).
    eexists s1, w2, _, w3. split; [exact Hfold|]. split; [exact Hguar|].
    split.
    + intros key Hkey. rewrite dict_get_set_other; [now apply Hkeep|].
      apply (Hkey positionHistory).
    + exists recs. split; [intros k; apply Hrecs|]. exists id. split.
      * apply dict_get_set_same.
      * intros k Hk. rewrite dict_get_set_other; [apply Hempty|].
        intros E. apply (ckey_name_inj k positionHistory) in E. contradiction.
Qed.

Lemma finalize_spec (vc proof : dict json) (j : json) :
  dict_get (lit "proof") vc = Some (JDict proof) ->
  dict_get (lit "jws") proof = Some j ->
  finalize vc
  = Some (JDict
            (dict_set (lit "proof")
               (JDict (dict_set (lit "jws")
                         (if json_truthy (replace_nulls j)
                          then replace_nulls j
                          else JStr (lit "dummy"))
                         (map (fun '(k, v) => (k, replace_nulls v)) proof)))
               (map (fun '(k, v) => (k, replace_nulls v)) vc))).
Proof.
  intros Hp Hj. unfold finalize. rewrite replace_nulls_dict.
  rewrite dict_get_map, Hp. cbn [option_map]. rewrite replace_nulls_dict.
  rewrite dict_get_map, Hj. reflexivity.
Qed.

(** A record built from a non-empty paragraph is not the fallback. *)
Lemma built_from_not_blank (k : ckey) (txt : str) (r : json) (id : str) :
  txt <> [] -> built_from k txt r -> r <> blank_position id JNull.
Proof.
  intros Hne (w & w' & Hb). destruct txt as [|c txt]; [contradiction|].
  destruct k; cbn [MAKE_OBJ] in Hb;
    unfold to_position, to_edu, to_comp, to_ach, bind, new_uuid, ret in Hb.
  - destruct (re_split1 (c :: txt)) as [[l r']|];
      [destruct (ROLE_RE_search l)|];
      injection Hb as <- _; unfold blank_position; simpl; congruence.
  - injection Hb as <- _. discriminate.
  - injection Hb as <- _. discriminate.
  - injection Hb as <- _. discriminate.
Qed.

Lemma routed_nonempty (k : ckey) (sections : dict (list str)) (txt : str) :
  In txt (routed k sections) -> txt <> [].
Proof.
  unfold routed. rewrite in_flat_map. intros ([head paras] & _ & Hin).
  simpl in Hin. destruct (canonical head) as [k'|]; [|contradiction].
  destruct (ckey_eqb k k'); [|contradiction].
  apply filter_In in Hin as [_ Hn]. destruct txt; [discriminate | congruence].
Qed.

End Subject.

(** ** From the document to the credential *)

Lemma lstrip_head (s : str) (x : char) (t : str) :
  lstrip s = x :: t -> isspace x = false.
Proof.
  induction s as [|c s IH]; simpl; [discriminate|].
  destruct (isspace c) eqn:E; [exact IH|]. intros E'. now injection E' as <- _.
Qed.

Lemma strip_inked (s : str) : nonempty (strip s) = true -> inked (strip s) = true.
Proof.
  unfold strip, rstrip. destruct (lstrip (rev (lstrip s))) as [|x t] eqn:E;
    [discriminate|].
  intros _. apply lstrip_head in E. unfold inked. apply existsb_exists.
  exists x. split; [|now rewrite E].
  apply in_rev. rewrite rev_involutive. now left.
Qed.

Lemma words_from_cur (s cur : str) : cur <> [] -> words_from cur s <> [].
Proof.
  revert cur. induction s as [|c s IH]; intros cur Hc; simpl.
  - destruct cur; [contradiction | discriminate].
  - destruct (isspace c).
    + destruct cur; [contradiction | discriminate].
    + apply IH. destruct cur; discriminate.
Qed.

Lemma split_inked (s : str) : inked s = true -> split s <> [].
Proof.
  unfold split, inked. generalize (@nil char) as cur.
  induction s as [|c s IH]; intros cur; simpl; [discriminate|].
  destruct (isspace c); simpl.
  - intros Hs. destruct cur; [now apply IH | discriminate].
  - intros _. apply words_from_cur. destruct cur; discriminate.
Qed.

Section Pipeline.
Context {U : UnicodeData} {H : Host}.

Lemma title_ok_inked (a : args) (n : str) :
  inked n = true -> title_ok a (Some n) = true.
Proof.
  intros Hn. unfold title_ok. apply orb_true_iff. right.
  destruct n as [|c n]; [reflexivity|].
  pose proof (split_inked _ Hn) as Hs.
  destruct (split (c :: n)); [contradiction | reflexivity].
Qed.

Lemma parse_step_name (st st' : pstate) (p : paragraph) :
  parse_step st p = Some st' -> name_ok st -> name_ok st'.
Proof.
  unfold parse_step, name_ok. destruct st as [n cu o]. cbn [st_name st_current st_out].
  destruct (nonempty (strip (p_text p))) eqn:Hne; simpl.
  - destruct (str_eqb _ _ || startswith _ (lit "heading 1")).
    + intros E. injection E as <-. destruct n; simpl; [tauto|].
      intros _. now apply strip_inked.
    + destruct (_ || looks_like_heading _).
      * intros E. now injection E as <-.
      * destruct cu as [[|c cur]|];
          try (intros E; now injection E as <-).
        destruct (dict_get _ _); [|discriminate].
        intros E. now injection E as <-.
  - intros E. now injection E as <-.
Qed.

Lemma parse_loop_name (ps : list paragraph) (st st' : pstate) :
  parse_loop st ps = Some st' -> name_ok st -> name_ok st'.
Proof.
  revert st. induction ps as [|p ps IH]; intros st; simpl.
  - intros E. now injection E as <-.
  - destruct (parse_step st p) as [st1|] eqn:Hs; [|discriminate].
    intros Hl Hn. apply (IH st1 Hl). exact (parse_step_name _ _ Hs Hn).
Qed.

(** With no heading detected no group is ever opened. *)
Lemma parse_loop_no_heading (ps : list paragraph) (st : pstate) :
  st_current st = None ->
  (forall p, In p ps -> is_heading p = false) ->
  exists st', parse_loop st ps = Some st'
              /\ st_current st' = None /\ st_out st' = st_out st.
Proof.
  revert st. induction ps as [|p ps IH]; intros st Hc Hno; simpl.
  - exists st. now repeat split.
  - assert (Hp : is_heading p = false) by (apply Hno; now left).
    assert (Hno' : forall q, In q ps -> is_heading q = false)
      by (intros q Hq; apply Hno; now right).
    destruct (is_body p) eqn:Hb.
    + rewrite (parse_step_body _ _ Hb), Hc. now apply IH.
    + destruct (parse_step_skip st p Hp Hb) as [n ->].
      destruct (IH {| st_name := n; st_current := st_current st;
                      st_out := st_out st |} Hc Hno')
        as (st' & Hl & Hc' & Ho').
      exists st'. now repeat split.
Qed.

(** The classifier never raises, and the title it captures is one
    [build_vc] can split. *)
Lemma parse_docx_total (ps : list paragraph) (a : args) :
  exists name sections,
    parse_docx ps = Some (name, sections) /\ title_ok a name = true.
Proof.
  set (init := {| st_name := None; st_current := None; st_out := [] |}).
  destruct (@parse_loop_total U ps init I) as (st & Hl & _).
  exists (st_name st), (st_out st). split; [now apply parse_docx_loop|].
  pose proof (parse_loop_name _ _ Hl I) as Hn. unfold name_ok in Hn.
  destruct (st_name st) as [n|].
  - now apply title_ok_inked.
  - unfold title_ok. apply orb_true_r.
Qed.

Lemma parse_docx_no_heading (ps : list paragraph) (a : args) :
  (forall p, In p ps -> is_heading p = false) ->
  exists name, parse_docx ps = Some (name, []) /\ title_ok a name = true.
Proof.
  intros Hno.
  destruct (parse_docx_total ps a) as (name & sections & Hp & Hok).
  set (init := {| st_name := None; st_current := None; st_out := [] |}).
  destruct (parse_loop_no_heading ps init eq_refl Hno)
    as (st & Hl & _ & Ho).
  rewrite (parse_docx_loop _ Hl) in Hp. injection Hp as <- <-.
  exists (st_name st). split; [|exact Hok].
  rewrite (parse_docx_loop _ Hl). simpl in Ho. now rewrite Ho.
Qed.

Lemma build_vc_raises (name : option str) (sections : dict (list str))
      (a : args) (w : world) :
  title_ok a name = false -> build_vc name sections a w = None.
Proof.
  unfold title_ok, build_vc, bind, given_of. intros Hok.
  apply orb_false_iff in Hok as [-> Hn].
  destruct name as [[|c n]|]; try discriminate.
  destruct (split (c :: n)); [reflexivity | discriminate].
Qed.

End Pipeline.

(** ** The assembled credential *)

Lemma path_cons (k : str) (ks : list str) (d : dict json) (v : json) :
  dict_get k d = Some v -> path (k :: ks) (JDict d) = path ks v.
Proof. intros E. simpl. now rewrite E. Qed.

Lemma Forall2_In_l A B (R : A -> B -> Prop) (l : list A) (l' : list B) (x : A) :
  Forall2 R l l' -> In x l -> exists y, In y l' /\ R x y.
Proof.
  induction 1 as [|a b l l' Hab _ IH]; intros Hin; [contradiction|].
  destruct Hin as [<-|Hin].
  - exists b. split; [now left | exact Hab].
  - destruct (IH Hin) as (y & Hy & Hr). exists y. split; [now right | exact Hr].
Qed.

Lemma Forall2_In_r A B (R : A -> B -> Prop) (l : list A) (l' : list B) (y : B) :
  Forall2 R l l' -> In y l' -> exists x, In x l /\ R x y.
Proof.
  induction 1 as [|a b l l' Hab _ IH]; intros Hin; [contradiction|].
  destruct Hin as [<-|Hin].
  - exists a. split; [now left | exact Hab].
  - destruct (IH Hin) as (x & Hx & Hr). exists x. split; [now right | exact Hr].
Qed.

Section Credential.
Context {U : UnicodeData} {H : Host}.

Lemma collection_subject (k : ckey) (vc s2 : dict json) :
  dict_get (lit "credentialSubject") vc = Some (JDict s2) ->
  collection k (JDict vc) = dict_get (ckey_name k) s2.
Proof.
  intros Hcs. unfold collection. erewrite path_cons by exact Hcs. simpl.
  now destruct (dict_get (ckey_name k) s2).
Qed.

(** Everything the properties below need to know about [build_vc]. *)
Lemma build_vc_full (name : option str) (sections : dict (list str))
      (a : args) (w : world) :
  title_ok a name = true ->
  exists g sid iid s2 created method vc w',
    build_vc name sections a w = Some (vc, w')
    /\ (truthy (given_name a) = true -> g = given_name a)
    /\ (forall v, subject_id a = Some v -> v <> [] -> sid = v)
    /\ (forall v, issuer_id a = Some v -> v <> [] -> iid = v)
    /\ dict_get (lit "credentialSubject") vc = Some (JDict s2)
    /\ dict_get (lit "issuer") vc = Some (JDict (issuer_of iid a))
    /\ dict_get (lit "proof") vc
       = Some (JDict [ (lit "type", JStr (lit "JsonWebSignature2020"));
                       (lit "created", JStr created);
                       (lit "proofPurpose", JStr (lit "assertionMethod"));
                       (lit "verificationMethod", JStr method);
                       (lit "jws", JStr []) ])
    /\ dict_get (lit "id") s2 = Some (JStr sid)
    /\ dict_get (lit "personalData") s2
       = Some (JDict (personal_data g (family_of a name) a))
    /\ exists recs : ckey -> list json,
        (forall k, Forall2 (built_from k) (routed k sections) (recs k))
        /\ if populated sections
           then forall k, dict_get (ckey_name k) s2 = extended None (recs k)
           else exists id,
               dict_get (ckey_name positionHistory) s2
               = Some (JList [blank_position id JNull])
               /\ forall k, k <> positionHistory ->
                            dict_get (ckey_name k) s2 = None.
Proof.
  intros Hok.
  destruct (build_vc_spec name sections a w Hok)
    as (g & sid & w1 & s1 & w2 & s2 & w3 & iid & w4 & created & method & vc
        & w' & _ & Hg & _ & Hsid & Hfold & Hguar & _ & Hiid & Hb & Hcs
        & Hiss & Hproof).
  set (header := [ (lit "id", JStr sid);
                   (lit "type", JStr (lit "ResumeSubject"));
                   (lit "personalData",
                    JDict (personal_data g (family_of a name) a)) ]) in *.
  destruct (@assemble_subject U H header sections w1
              (header_collections_ok sid _))
    as (s1' & w2' & s2' & w3' & Hfold' & Hguar' & Hkeep & Hrecs).
  { intros k. destruct k; reflexivity. }
  rewrite Hfold in Hfold'. injection Hfold' as <- <-.
  rewrite Hguar in Hguar'. injection Hguar' as <- <-.
  exists g, sid, iid, s2, created, method, vc, w'.
  repeat (split; [assumption|]).
  split; [| split; [| exact Hrecs] ].
  - rewrite Hkeep; [reflexivity|]. intros k. destruct k; discriminate.
  - rewrite Hkeep; [reflexivity|]. intros k. destruct k; discriminate.
Qed.

Lemma collection_finalized (k : ckey) (vc s2 proof : dict json) (j : json) :
  dict_get (lit "credentialSubject") vc = Some (JDict s2) ->
  dict_get (lit "proof") vc = Some (JDict proof) ->
  dict_get (lit "jws") proof = Some j ->
  exists out, finalize vc = Some out
              /\ collection k out
                 = option_map replace_nulls (dict_get (ckey_name k) s2).
Proof.
  intros Hcs Hp Hj. eexists. split; [eapply finalize_spec; eassumption|].
  unfold collection. erewrite path_cons.
  2:{ rewrite dict_get_set_other by discriminate.
      rewrite dict_get_map, Hcs. reflexivity. }
  rewrite replace_nulls_dict. simpl. rewrite dict_get_map.
  now destruct (dict_get (ckey_name k) s2).
Qed.

Lemma foldM_skip_unmapped (before after : dict (list str))
      (head : str) (paras : list str) (subject : dict json) (w : world) :
  canonical head = None ->
  foldM add_section subject (before ++ (head, paras) :: after) w
  = foldM add_section subject (before ++ after) w.
Proof.
  intros Hc. rewrite !foldM_app.
  destruct (foldM add_section subject before w) as [[s1 w1]|];
    [|reflexivity].
  cbn [foldM]. unfold bind at 1. unfold add_section. rewrite Hc. reflexivity.
Qed.

End Credential.

Section CredentialClaims.
Context {U : UnicodeData} {H : Host}.

(** C3: when the groups populate no canonical collection (a document
    with no detected heading is such an input: it has no group), the
    subject holds one canonical collection only, positionHistory, with one
    Position record whose jobTitle, organization and description are
    null, hence "Unknown" after normalization; when some collection is
    populated the collections hold the records built from the paragraphs
    and no fallback record.  For [build_vc] on every input it accepts,
    and for the whole run on every document. *)
Theorem fallback_position_injection :
  (forall name sections a w,
      title_ok a name = true ->
      exists vc w' out,
        build_vc name sections a w = Some (vc, w')
        /\ finalize vc = Some out
        /\ fallback_rule sections vc out)
  /\ (forall doc a w,
         exists name sections vc w' out,
           parse_docx doc = Some (name, sections)
           /\ build_vc name sections a w = Some (vc, w')
           /\ finalize vc = Some out
           /\ convert doc a w = Some (out, w')
           /\ fallback_rule sections vc out
           /\ ((forall p, In p doc -> is_heading p = false) ->
               sections = [] /\ populated sections = false)).
Proof.
  assert (Main : forall name sections a w,
      title_ok a name = true ->
      exists vc w' out,
        build_vc name sections a w = Some (vc, w')
        /\ finalize vc = Some out
        /\ fallback_rule sections vc out).
  { intros name sections a w Hok.
    destruct (build_vc_full name sections a w Hok)
      as (g & sid & iid & s2 & created & method & vc & w' & Hb & _ & _ & _
          & Hcs & _ & Hproof & _ & _ & recs & Hrecs & Hpop).
    assert (Hfin : exists out,
               finalize vc = Some out
               /\ forall k, collection k out
                            = option_map replace_nulls
                                (dict_get (ckey_name k) s2)).
    { destruct (collection_finalized positionHistory _ Hcs Hproof eq_refl)
        as (out & Hf & _).
      exists out. split; [exact Hf|]. intros k.
      destruct (collection_finalized k _ Hcs Hproof eq_refl)
        as (out' & Hf' & Hc).
      rewrite Hf in Hf'. injection Hf' as <-. exact Hc. }
    destruct Hfin as (out & Hf & Hout).
    exists vc, w', out. split; [exact Hb|]. split; [exact Hf|]. split.
    - intros Hp. rewrite Hp in Hpop. destruct Hpop as (id & Hph & Hothers).
      exists id. erewrite !collection_subject by exact Hcs.
      rewrite Hout, Hph.
      split; [reflexivity|]. split.
      + intros k Hk. erewrite collection_subject by exact Hcs.
        now apply Hothers.
      + split; [reflexivity|]. intros k Hk. rewrite Hout, Hothers by exact Hk.
        reflexivity.
    - intros Hp. rewrite Hp in Hpop. intros k. exists (recs k).
      split; [apply Hrecs|]. split.
      + erewrite collection_subject by exact Hcs. apply Hpop.
      + intros id Hin.
        destruct (@Forall2_In_r _ _ _ _ _ _ (Hrecs k) Hin)
          as (txt & Htxt & Hbuilt).
        eapply built_from_not_blank;
          [eapply routed_nonempty; exact Htxt | exact Hbuilt | reflexivity]. }
  split; [exact Main|].
  intros doc a w.
  destruct (parse_docx_total doc a) as (name & sections & Hparse & Hok).
  destruct (Main name sections a w Hok) as (vc & w' & out & Hb & Hf & Hrule).
  exists name, sections, vc, w', out.
  split; [exact Hparse|]. split; [exact Hb|]. split; [exact Hf|]. split.
  { unfold convert. now rewrite Hparse, Hb, Hf. }
  split; [exact Hrule|].
  intros Hno.
  destruct (parse_docx_no_heading doc a Hno) as (name' & Hparse' & _).
  rewrite Hparse in Hparse'. injection Hparse' as _ ->. now split.
Qed.

Lemma Forall2_weaken_In A B (P Q : A -> B -> Prop) (l : list A)
      (l' : list B) :
  (forall x y, In x l -> P x y -> Q x y) ->
  Forall2 P l l' -> Forall2 Q l l'.
Proof.
  intros Hpq Hf. induction Hf as [|x y l l' Hxy _ IH]; constructor.
  - apply Hpq; [now left | exact Hxy].
  - apply IH. intros x' y' Hin. apply Hpq. now right.
Qed.

(** What a builder returns on a non-empty paragraph has the type of its
    collection and carries the paragraph. *)
Lemma built_from_record (k : ckey) (txt : str) (r : json) :
  txt <> [] -> built_from k txt r -> record_of k txt r.
Proof.
  intros Hne Hb. split; [exact Hb|]. destruct Hb as (w & w' & Hb).
  destruct txt as [|c txt]; [contradiction|].
  destruct k; cbn [MAKE_OBJ] in Hb;
    unfold to_position, to_edu, to_comp, to_ach, bind, new_uuid, ret in Hb.
  - destruct (re_split1 (c :: txt)) as [[l r']|];
      [destruct (ROLE_RE_search l)|];
      injection Hb as <- _; split; reflexivity.
  - injection Hb as <- _; split; reflexivity.
  - injection Hb as <- _; split; reflexivity.
  - injection Hb as <- _; split; reflexivity.
Qed.

Lemma routed_records (k : ckey) (sections : dict (list str))
      (recs : list json) :
  Forall2 (built_from k) (routed k sections) recs ->
  Forall2 (record_of k) (routed k sections) recs.
Proof.
  apply Forall2_weaken_In. intros txt r Hin Hb.
  apply built_from_record; [|exact Hb]. eapply routed_nonempty; exact Hin.
Qed.

(** C4: the non-empty paragraphs of every group whose heading, lower-cased
    and trimmed, is a key of the mapping table are in the collection of
    that key, each as a record of the type of the collection that carries
    the text of the paragraph; a collection is the concatenation, in the
    order of the groups, of the records of the groups routed to it; a
    group whose heading is not in the table leaves no trace in the
    credential. *)
Theorem heading_routing (name : option str) (sections : dict (list str))
        (a : args) (w : world) :
  title_ok a name = true ->
  exists vc w',
    build_vc name sections a w = Some (vc, w')
    /\ (forall k, routed k sections <> [] ->
          exists recs, collection k (JDict vc) = Some (JList recs)
                       /\ Forall2 (record_of k) (routed k sections) recs)
    /\ (forall head paras k txt,
          In (head, paras) sections ->
          dict_get (strip (str_lower head)) SECTION_MAP = Some k ->
          In txt paras -> txt <> [] ->
          exists recs r, collection k (JDict vc) = Some (JList recs)
                         /\ In r recs /\ record_of k txt r)
    /\ (forall k recs,
          populated sections = true ->
          collection k (JDict vc) = Some (JList recs) ->
          Forall2 (record_of k) (routed k sections) recs)
    /\ (forall before head paras after,
          sections = before ++ (head, paras) :: after ->
          dict_get (strip (str_lower head)) SECTION_MAP = None ->
          build_vc name (before ++ after) a w = Some (vc, w')).
Proof.
  intros Hok.
  destruct (build_vc_full name sections a w Hok)
    as (g & sid & iid & s2 & created & method & vc & w' & Hb & _ & _ & _
        & Hcs & _ & _ & _ & _ & recs & Hrecs0 & Hpop).
  assert (Hrecs : forall k, Forall2 (record_of k) (routed k sections) (recs k))
    by (intros k; apply routed_records, Hrecs0).
  clear Hrecs0.
  assert (Hroute : forall k, routed k sections <> [] ->
            exists rs, collection k (JDict vc) = Some (JList rs)
                       /\ Forall2 (record_of k) (routed k sections) rs).
  { intros k Hk.
    assert (Hp : populated sections = true)
      by (apply populated_iff; now exists k).
    rewrite Hp in Hpop. exists (recs k). split; [|apply Hrecs].
    erewrite collection_subject by exact Hcs. rewrite Hpop.
    destruct (recs k) eqn:E; [|reflexivity].
    pose proof (Hrecs k) as Hf. rewrite E in Hf.
    apply Forall2_nil_iff in Hf. tauto. }
  exists vc, w'. split; [exact Hb|]. split; [exact Hroute|].
  split; [|split].
  - intros head paras k txt Hin Hkey Htxt Hne.
    assert (Hr : In txt (routed k sections)).
    { unfold routed. apply in_flat_map. exists (head, paras).
      split; [exact Hin|]. unfold canonical. cbn [fst snd]. rewrite Hkey.
      replace (ckey_eqb k k) with true by (now destruct k).
      apply filter_In. split; [exact Htxt|]. now destruct txt. }
    destruct (Hroute k) as (rs & Hc & Hf).
    { intros E. rewrite E in Hr. contradiction. }
    destruct (@Forall2_In_l _ _ _ _ _ _ Hf Hr) as (r & Hin' & Hbuilt).
    now exists rs, r.
  - intros k rs Hp Hc. rewrite Hp in Hpop.
    erewrite collection_subject in Hc by exact Hcs. rewrite Hpop in Hc.
    pose proof (Hrecs k) as Hf.
    destruct (recs k); [discriminate|]. now injection Hc as <-.
  - intros before head paras after -> Hkey. rewrite <- Hb.
    unfold build_vc, bind.
    destruct (given_of a name w) as [[g' w1]|]; [|reflexivity].
    destruct (or_new_uuid (subject_id a) w1) as [[sid' w2]|]; [|reflexivity].
    now rewrite foldM_skip_unmapped.
Qed.

(** C7: the normalization pass turns a null into "Unknown" and an empty
    array into ["Unknown"], goes through non-empty arrays and maps
    keeping lengths and keys, leaves no null and no empty array, and
    leaves scalars (the empty string too) as they are; on every
    assembled credential the jws of the proof, still empty after the
    generic pass, is then set to "dummy", not to "Unknown", and the
    entries of the credential other than the proof are what the pass
    gives. *)
Theorem normalization_pass :
  replace_nulls JNull = JStr Unknown
  /\ replace_nulls (JList []) = JList [JStr Unknown]
  /\ (forall x l,
         replace_nulls (JList (x :: l)) = JList (map replace_nulls (x :: l))
         /\ length (map replace_nulls (x :: l)) = length (x :: l))
  /\ (forall d, exists d',
         replace_nulls (JDict d) = JDict d'
         /\ map fst d' = map fst d
         /\ forall k, dict_get k d' = option_map replace_nulls (dict_get k d))
  /\ (forall v, null_free (replace_nulls v) = true
                /\ no_empty_array (replace_nulls v) = true)
  /\ (forall b n s, replace_nulls (JBool b) = JBool b
                    /\ replace_nulls (JNum n) = JNum n
                    /\ replace_nulls (JStr s) = JStr s)
  /\ (forall name sections a w,
         title_ok a name = true ->
         exists vc w' out,
           build_vc name sections a w = Some (vc, w')
           /\ path [lit "proof"; lit "jws"] (JDict vc) = Some (JStr [])
           /\ path [lit "proof"; lit "jws"] (replace_nulls (JDict vc))
              = Some (JStr [])
           /\ finalize vc = Some out
           /\ path [lit "proof"; lit "jws"] out = Some (JStr (lit "dummy"))
           /\ path [lit "proof"; lit "jws"] out <> Some (JStr Unknown)
           /\ forall key, key <> lit "proof" ->
                          path [key] out
                          = path [key] (replace_nulls (JDict vc)))
  /\ (forall doc a w,
         exists out w',
           convert doc a w = Some (out, w')
           /\ path [lit "proof"; lit "jws"] out = Some (JStr (lit "dummy"))).
Proof.
  split; [reflexivity|]. split; [reflexivity|]. split.
  { intros x l. split; [reflexivity | apply length_map]. }
  split.
  { intros d. eexists. split; [apply replace_nulls_dict|].
    split; [apply replace_nulls_keys|]. intros k. apply dict_get_map. }
  split.
  { intros v. split;
      [apply replace_nulls_null_free | apply replace_nulls_no_empty_array]. }
  split; [now repeat split|].
  assert (Main : forall name sections a w,
         title_ok a name = true ->
         exists vc w' out,
           build_vc name sections a w = Some (vc, w')
           /\ path [lit "proof"; lit "jws"] (JDict vc) = Some (JStr [])
           /\ path [lit "proof"; lit "jws"] (replace_nulls (JDict vc))
              = Some (JStr [])
           /\ finalize vc = Some out
           /\ path [lit "proof"; lit "jws"] out = Some (JStr (lit "dummy"))
           /\ path [lit "proof"; lit "jws"] out <> Some (JStr Unknown)
           /\ forall key, key <> lit "proof" ->
                          path [key] out
                          = path [key] (replace_nulls (JDict vc))).
  2:{ split; [exact Main|]. intros doc a w.
      destruct (parse_docx_total doc a) as (name & sections & Hparse & Hok).
      destruct (Main name sections a w Hok)
        as (vc & w' & out & Hb & _ & _ & Hf & Hj & _).
      exists out, w'. split; [|exact Hj].
      unfold convert. now rewrite Hparse, Hb, Hf. }
  intros name sections a w Hok.
  destruct (build_vc_full name sections a w Hok)
    as (g & sid & iid & s2 & created & method & vc & w' & Hb & _ & _ & _
        & _ & _ & Hproof & _).
  eexists vc, w', _. split; [exact Hb|]. split.
  { erewrite path_cons by exact Hproof. reflexivity. }
  split.
  { rewrite replace_nulls_dict. erewrite path_cons.
    2:{ rewrite dict_get_map, Hproof. reflexivity. }
    reflexivity. }
  split; [eapply finalize_spec; [exact Hproof | reflexivity]|].
  split.
  { erewrite path_cons by apply dict_get_set_same. reflexivity. }
  split.
  { erewrite path_cons by apply dict_get_set_same. discriminate. }
  intros key Hkey. rewrite replace_nulls_dict. simpl.
  now rewrite dict_get_set_other.
Qed.


End CredentialClaims.

(** A title and one group under an unknown heading: the fallback record. *)
Lemma fallback_position_injection_witness :
  exists vc w' out id,
    build_vc (U := basic_latin) (H := sample_host)
      (Some (lit "Jane Q Public")) [(lit "HOBBIES", [lit "Chess"])] no_args w0
    = Some (vc, w')
    /\ finalize vc = Some out
    /\ collection positionHistory out
       = Some (JList [blank_position id (JStr Unknown)]).
Proof.
  destruct (proj1 (@fallback_position_injection basic_latin sample_host)
              (Some (lit "Jane Q Public")) [(lit "HOBBIES", [lit "Chess"])]
              no_args w0 eq_refl)
    as (vc & w' & out & Hb & Hf & Hempty & _).
  destruct (Hempty eq_refl) as (id & _ & _ & Hph & _).
  now exists vc, w', out, id.
Defined.

(** Two aliases of positionHistory around an unknown heading. *)
Lemma heading_routing_witness :
  let sections :=
    [ (lit "Work History", [lit "Analyst - Foo"]);
      (lit "Hobbies", [lit "Chess"]);
      (lit "EXPERIENCE", [lit "Lead - Bar"; []]) ] in
  exists vc w' recs,
    build_vc (U := basic_latin) (H := sample_host) None sections no_args w0
    = Some (vc, w')
    /\ collection positionHistory (JDict vc) = Some (JList recs)
    /\ Forall2 (record_of (U := basic_latin) (H := sample_host) positionHistory)
               [lit "Analyst - Foo"; lit "Lead - Bar"] recs
    /\ build_vc (U := basic_latin) (H := sample_host) None
         [ (lit "Work History", [lit "Analyst - Foo"]);
           (lit "EXPERIENCE", [lit "Lead - Bar"; []]) ] no_args w0
       = Some (vc, w').
Proof.
  intros sections.
  destruct (@heading_routing basic_latin sample_host None sections no_args w0
              eq_refl) as (vc & w' & Hb & Hroute & _ & _ & Hskip).
  destruct (Hroute positionHistory) as (recs & Hc & Hf); [discriminate|].
  exists vc, w', recs. split; [exact Hb|]. split; [exact Hc|].
  split; [exact Hf|].
  exact (Hskip [(lit "Work History", [lit "Analyst - Foo"])]
               (lit "Hobbies") [lit "Chess"]
               [(lit "EXPERIENCE", [lit "Lead - Bar"; []])] eq_refl eq_refl).
Defined.

(** The jws of a credential assembled from a title alone. *)
Lemma normalization_pass_witness :
  exists vc w' out,
    build_vc (U := basic_latin) (H := sample_host)
      (Some (lit "Jane Q Public")) [] no_args w0 = Some (vc, w')
    /\ finalize vc = Some out
    /\ path [lit "proof"; lit "jws"] out = Some (JStr (lit "dummy")).
Proof.
  destruct (proj1 (proj2 (proj2 (proj2 (proj2 (proj2 (proj2
              (@normalization_pass basic_latin sample_host)))))))
              (Some (lit "Jane Q Public")) [] no_args w0 eq_refl)
    as (vc & w' & out & Hb & _ & _ & Hf & Hj & _).
  now exists vc, w', out.
Defined.



(** ** A whole run

    The title "Jane Q Public", the heading EXPERIENCE with one paragraph
    and the heading SKILLS with two. *)

Example convert_sample :
  let doc :=
    [ {| p_text := lit "Jane Q Public"; p_style := Some (lit "Title") |};
      {| p_text := lit "EXPERIENCE"; p_style := Some (lit "Heading 2") |};
      {| p_text := lit "Software Engineer " ++ [en_dash] ++ lit " Acme Corp";
         p_style := Some (lit "Normal") |};
      {| p_text := lit "SKILLS"; p_style := Some (lit "Heading 2") |};
      {| p_text := lit "Python"; p_style := Some (lit "Normal") |};
      {| p_text := lit "Go"; p_style := Some (lit "Normal") |} ] in
  exists out w',
    convert (U := basic_latin) (H := sample_host) doc no_args w0
    = Some (out, w')
    /\ path [lit "credentialSubject"; lit "personalData"; lit "givenName"] out
       = Some (JStr (lit "Jane"))
    /\ path [lit "credentialSubject"; lit "personalData"; lit "familyName"] out
       = Some (JStr (lit "Public"))
    /\ path [lit "credentialSubject"; lit "personalData"; lit "email"] out
       = Some (JStr Unknown)
    /\ (exists id desc,
           collection positionHistory out
           = Some (JList [ JDict [ (lit "id", id);
                                   (lit "type", JStr (lit "Position"));
                                   (lit "jobTitle",
                                    JStr (lit "Software Engineer"));
                                   (lit "organization", JStr (lit "Acme Corp"));
                                   (lit "description", desc) ] ]))
    /\ (exists id1 id2,
           collection competency out
           = Some (JList [ JDict [ (lit "id", id1);
                                   (lit "type", JStr (lit "Competency"));
                                   (lit "name", JStr (lit "Python")) ];
                           JDict [ (lit "id", id2);
                                   (lit "type", JStr (lit "Competency"));
                                   (lit "name", JStr (lit "Go")) ] ]))
    /\ collection educationHistory out = None
    /\ path [lit "proof"; lit "jws"] out = Some (JStr (lit "dummy"))
    /\ path [lit "name"] out
       = Some (JStr (lit "Jane Q Public " ++ [en_dash] ++ lit " Resume")).
Proof.
  cbv zeta.
  match goal with
  | |- exists out w', ?c = _ /\ _ =>
      destruct c as [[out w']|] eqn:E; vm_compute in E; [|discriminate]
  end.
  injection E as <- <-. do 2 eexists. split; [reflexivity|].
  repeat split; try reflexivity; do 2 eexists; reflexivity.
Qed.

(* ====================================================================== *)
(** * Part III: further properties of the script *)
(* ====================================================================== *)

(** ** The null-normalizer and the end of [main] *)

Lemma forallb_dict_set V (f : V -> bool) (k : str) (v : V) (d : dict V) :
  forallb (fun '(_, x) => f x) d = true -> f v = true ->
  forallb (fun '(_, x) => f x) (dict_set k v d) = true.
Proof.
  intros Hd Hv. induction d as [|[k' v'] d IH]; simpl in *.
  - now rewrite Hv.
  - apply andb_true_iff in Hd as [H1 H2].
    destruct (str_eqb k k'); simpl; rewrite ?Hv, ?H1, ?H2; auto.
Qed.

(** The values the null-normalizer leaves as they are are exactly the
    values with no null and no empty array. *)
Theorem replace_nulls_fixed_points (v : json) :
  replace_nulls v = v <-> settled v = true.
Proof.
  unfold settled. split.
  - intros E. rewrite <- E.
    now rewrite replace_nulls_null_free, replace_nulls_no_empty_array.
  - induction v as [ | b | n | s | l IH | d IH ] using json_nested_ind;
      try reflexivity; intros Hs; apply andb_true_iff in Hs as [Hn He].
    + discriminate.
    + destruct l as [|x l]; [discriminate|].
      rewrite replace_nulls_list. f_equal.
      change (forallb null_free (x :: l) = true) in Hn.
      change (forallb no_empty_array (x :: l) = true) in He.
      rewrite forallb_forall in Hn, He. rewrite Forall_forall in IH.
      rewrite <- (map_id (x :: l)) at 2. apply map_ext_in.
      intros y Hy. apply IH; [exact Hy|]. now rewrite Hn, He.
    + rewrite replace_nulls_dict. f_equal.
      cbn [null_free no_empty_array] in Hn, He.
      rewrite forallb_forall in Hn, He. rewrite Forall_forall in IH.
      rewrite <- (map_id d) at 2. apply map_ext_in.
      intros [k y] Hy. f_equal. apply (IH _ Hy). simpl.
      now rewrite (Hn _ Hy), (He _ Hy).
Qed.

Lemma final_jws_settled (j : json) : settled (final_jws j) = true.
Proof.
  unfold final_jws, settled. destruct (json_truthy (replace_nulls j)).
  - now rewrite replace_nulls_null_free, replace_nulls_no_empty_array.
  - reflexivity.
Qed.

Lemma forallb_dict_get V (f : V -> bool) (k : str) (v : V) (d : dict V) :
  forallb (fun '(_, x) => f x) d = true -> dict_get k d = Some v -> f v = true.
Proof.
  induction d as [|[k' v'] d IH]; simpl; [discriminate|].
  intros Hd. apply andb_true_iff in Hd as [H1 H2].
  destruct (str_eqb k k'); [congruence | now apply IH].
Qed.

(** A check that goes through maps, accepts strings and accepts what the
    null-normalizer returns, accepts what the end of [main] returns. *)
Lemma finalize_keeps (f : json -> bool) (vc : dict json) (out : json) :
  (forall d, f (JDict d) = forallb (fun '(_, x) => f x) d) ->
  (forall s, f (JStr s) = true) ->
  (forall v, f (replace_nulls v) = true) ->
  finalize vc = Some out -> f out = true.
Proof.
  intros Hd Hs Hr. unfold finalize.
  pose proof (Hr (JDict vc)) as Hvc. rewrite replace_nulls_dict in *.
  set (vc' := map (fun '(k, v) => (k, replace_nulls v)) vc) in *.
  rewrite Hd in Hvc.
  destruct (dict_get (lit "proof") vc') as [[ | | | s | l | proof]|] eqn:Hp;
    try discriminate.
  - destruct (str_contains s (lit "jws")); [discriminate|].
    intros E. injection E as <-. now rewrite Hd.
  - destruct (existsb (json_is_str (lit "jws")) l); [discriminate|].
    intros E. injection E as <-. now rewrite Hd.
  - pose proof (forallb_dict_get f _ _ Hvc Hp) as Hproof. rewrite Hd in Hproof.
    destruct (dict_get (lit "jws") proof) as [j|] eqn:Hj.
    + intros E. injection E as <-. rewrite Hd.
      apply forallb_dict_set; [exact Hvc|]. rewrite Hd.
      apply forallb_dict_set; [exact Hproof|].
      destruct (json_truthy j); [|apply Hs].
      exact (forallb_dict_get f _ _ Hproof Hj).
    + intros E. injection E as <-. now rewrite Hd.
  - intros E. injection E as <-. now rewrite Hd.
Qed.

(** Whatever the end of [main] returns holds no null and no empty
    array. *)
Lemma finalize_settled (vc : dict json) (out : json) :
  finalize vc = Some out -> settled out = true.
Proof.
  intros Hf. unfold settled. apply andb_true_iff. split.
  - apply (finalize_keeps null_free vc); auto using replace_nulls_null_free.
  - apply (finalize_keeps no_empty_array vc);
      auto using replace_nulls_no_empty_array.
Qed.

Lemma keys_dict_set_present V (k : str) (v v' : V) (d : dict V) :
  dict_get k d = Some v' -> map fst (dict_set k v d) = map fst d.
Proof.
  induction d as [|[k' v''] d IH]; simpl; [discriminate|].
  destruct (str_eqb k k'); simpl; [reflexivity|].
  intros Hg. now rewrite IH.
Qed.

Lemma json_is_str_replaced (s : str) (l : list json) :
  str_eqb Unknown s = false ->
  existsb (json_is_str s) (map replace_nulls l) = existsb (json_is_str s) l.
Proof.
  intros Hs. induction l as [|x l IH]; [reflexivity|].
  cbn [map existsb]. rewrite IH. f_equal.
  destruct x as [ | b | n | t | l0 | d ]; try reflexivity.
  - exact Hs.
  - cbn [replace_nulls]. now destruct (map replace_nulls l0).
Qed.

(** The end of [main] on any credential.  When the proof is a map with a
    jws entry, the document keeps its keys in their order, the proof
    keeps its keys in their order, every entry of the document other
    than the proof and every entry of the proof other than jws is what
    the null-normalizer gives, and jws is "Unknown" when it was null,
    "dummy" when it was the empty string, and unchanged when it was a
    non-empty string.  A credential with no proof, a map proof with no
    jws, a null proof, a string proof in which "jws" does not occur and
    a list proof of which "jws" is no element are only normalized; a
    string proof in which "jws" occurs, a list proof with the element
    "jws", a number and a boolean raise. *)
Theorem finalize_jws :
  (forall vc proof j,
      dict_get (lit "proof") vc = Some (JDict proof) ->
      dict_get (lit "jws") proof = Some j ->
      exists out proof',
        finalize vc = Some (JDict out)
        /\ map fst out = map fst vc
        /\ (forall key, key <> lit "proof" ->
              dict_get key out = option_map replace_nulls (dict_get key vc))
        /\ dict_get (lit "proof") out = Some (JDict proof')
        /\ map fst proof' = map fst proof
        /\ (forall key, key <> lit "jws" ->
              dict_get key proof'
              = option_map replace_nulls (dict_get key proof))
        /\ dict_get (lit "jws") proof' = Some (final_jws j))
  /\ final_jws JNull = JStr Unknown
  /\ final_jws (JStr []) = JStr (lit "dummy")
  /\ (forall c s, final_jws (JStr (c :: s)) = JStr (c :: s))
  /\ (forall vc, dict_get (lit "proof") vc = None ->
                 finalize vc = Some (replace_nulls (JDict vc)))
  /\ (forall vc proof,
         dict_get (lit "proof") vc = Some (JDict proof) ->
         dict_get (lit "jws") proof = None ->
         finalize vc = Some (replace_nulls (JDict vc)))
  /\ (forall vc, dict_get (lit "proof") vc = Some JNull ->
                 finalize vc = Some (replace_nulls (JDict vc)))
  /\ (forall vc s,
         dict_get (lit "proof") vc = Some (JStr s) ->
         finalize vc = if str_contains s (lit "jws") then None
                       else Some (replace_nulls (JDict vc)))
  /\ (forall vc l,
         dict_get (lit "proof") vc = Some (JList l) ->
         finalize vc = if existsb (json_is_str (lit "jws")) l then None
                       else Some (replace_nulls (JDict vc)))
  /\ (forall vc b, dict_get (lit "proof") vc = Some (JBool b) ->
                   finalize vc = None)
  /\ (forall vc n, dict_get (lit "proof") vc = Some (JNum n) ->
                   finalize vc = None).
Proof.
  split.
  { intros vc proof j Hp Hj. do 2 eexists.
    split; [eapply finalize_spec; eassumption|].
    assert (Hp' : dict_get (lit "proof")
                    (map (fun '(k, v) => (k, replace_nulls v)) vc)
                  = Some (replace_nulls (JDict proof)))
      by (now rewrite dict_get_map, Hp).
    assert (Hj' : dict_get (lit "jws")
                    (map (fun '(k, v) => (k, replace_nulls v)) proof)
                  = Some (replace_nulls j))
      by (now rewrite dict_get_map, Hj).
    split; [|split; [|split; [|split; [|split]]]].
    - erewrite keys_dict_set_present by exact Hp'. apply replace_nulls_keys.
    - intros key Hkey. rewrite dict_get_set_other by exact Hkey.
      apply dict_get_map.
    - apply dict_get_set_same.
    - erewrite keys_dict_set_present by exact Hj'. apply replace_nulls_keys.
    - intros key Hkey. rewrite dict_get_set_other by exact Hkey.
      apply dict_get_map.
    - apply dict_get_set_same. }
  split; [reflexivity|]. split; [reflexivity|]. split; [reflexivity|].
  split; [|split; [|split; [|split; [|split; [|split]]]]].
  - intros vc Hp. unfold finalize. rewrite replace_nulls_dict.
    now rewrite dict_get_map, Hp.
  - intros vc proof Hp Hj. unfold finalize. rewrite replace_nulls_dict.
    rewrite dict_get_map, Hp. cbn [option_map]. rewrite replace_nulls_dict.
    now rewrite dict_get_map, Hj.
  - intros vc Hp. unfold finalize. rewrite replace_nulls_dict.
    now rewrite dict_get_map, Hp.
  - intros vc s Hp. unfold finalize. rewrite replace_nulls_dict.
    now rewrite dict_get_map, Hp.
  - intros vc l Hp. unfold finalize. rewrite replace_nulls_dict.
    rewrite dict_get_map, Hp. cbn [option_map].
    destruct l as [|x l]; [reflexivity|]. rewrite replace_nulls_list.
    now rewrite json_is_str_replaced.
  - intros vc b Hp. unfold finalize. rewrite replace_nulls_dict.
    now rewrite dict_get_map, Hp.
  - intros vc n Hp. unfold finalize. rewrite replace_nulls_dict.
    now rewrite dict_get_map, Hp.
Qed.

(** A signature already present in the proof survives the end of [main],
    next to the other entries of the proof. *)
Lemma finalize_jws_witness :
  let proof := [ (lit "type", JNull);
                 (lit "jws", JStr (lit "eyJhbGciOiJ")) ] in
  let vc := [ (lit "id", JNull); (lit "proof", JDict proof) ] in
  exists out proof',
    finalize vc = Some (JDict out)
    /\ map fst out = [lit "id"; lit "proof"]
    /\ dict_get (lit "id") out = Some (JStr Unknown)
    /\ dict_get (lit "proof") out = Some (JDict proof')
    /\ map fst proof' = [lit "type"; lit "jws"]
    /\ dict_get (lit "type") proof' = Some (JStr Unknown)
    /\ dict_get (lit "jws") proof' = Some (JStr (lit "eyJhbGciOiJ")).
Proof.
  intros proof vc.
  destruct (proj1 finalize_jws vc proof (JStr (lit "eyJhbGciOiJ"))
              eq_refl eq_refl)
    as (out & proof' & Hf & Hk & Ho & Hp & Hk' & Ho' & Hj).
  exists out, proof'. split; [exact Hf|]. split; [exact Hk|].
  split; [rewrite Ho by discriminate; reflexivity|].
  split; [exact Hp|]. split; [exact Hk'|].
  split; [rewrite Ho' by discriminate; reflexivity | exact Hj].
Defined.

Section WholeRun.
Context {U : UnicodeData} {H : Host}.

(** The steps of a run, none of which raises. *)
Lemma convert_returns (doc : list paragraph) (a : args) (w : world) :
  exists name sections vc w' out,
    parse_docx doc = Some (name, sections)
    /\ title_ok a name = true
    /\ build_vc name sections a w = Some (vc, w')
    /\ finalize vc = Some out
    /\ convert doc a w = Some (out, w').
Proof.
  destruct (parse_docx_total doc a) as (name & sections & Hparse & Hok).
  destruct (build_vc_full name sections a w Hok)
    as (g & sid & iid & s2 & created & method & vc & w' & Hb & _ & _ & _
        & _ & _ & Hproof & _).
  exists name, sections, vc, w'. eexists.
  split; [exact Hparse|]. split; [exact Hok|]. split; [exact Hb|].
  assert (Hf := finalize_spec vc Hproof eq_refl).
  split; [exact Hf|]. unfold convert. now rewrite Hparse, Hb, Hf.
Qed.

(** Every run returns a document, whatever the paragraphs and the
    options: the lookups [out[current]] and [name.split()[0]] and the call
    of [extend] never fail; and the document it returns holds no null and
    no empty array. *)
Theorem convert_total_and_settled (doc : list paragraph) (a : args) (w : world) :
  exists out w', convert doc a w = Some (out, w') /\ settled out = true.
Proof.
  destruct (convert_returns doc a w)
    as (name & sections & vc & w' & out & _ & _ & _ & Hf & Hc).
  exists out, w'. split; [exact Hc|]. exact (finalize_settled _ Hf).
Qed.

End WholeRun.

(** ** The assembler: errors, names, envelope *)

Lemma split_blank (s : str) : inked s = false -> split s = [].
Proof.
  unfold split, inked. induction s as [|c s IH]; simpl; [reflexivity|].
  destruct (isspace c); simpl; [exact IH | discriminate].
Qed.

Section AssemblerMore.
Context {U : UnicodeData} {H : Host}.

Lemma build_vc_returns_iff (name : option str) (sections : dict (list str))
      (a : args) (w : world) :
  build_vc name sections a w <> None <-> title_ok a name = true.
Proof.
  split.
  - intros Hb. destruct (title_ok a name) eqn:Hok; [reflexivity|].
    now rewrite build_vc_raises in Hb.
  - intros Hok.
    destruct (build_vc_full name sections a w Hok)
      as (g & sid & iid & s2 & created & method & vc & w' & Hb & _).
    now rewrite Hb.
Qed.

(** [build_vc] raises (the IndexError of [name.split()[0]]) exactly when
    no given-name override is in force and the title is a non-empty
    string of whitespace only; the groups and the other options play no
    part. *)
Theorem build_vc_raises_iff (name : option str) (sections : dict (list str))
        (a : args) (w : world) :
  build_vc name sections a w = None
  <-> truthy (given_name a) = false
      /\ exists n, name = Some n /\ n <> [] /\ inked n = false.
Proof.
  split.
  - intros Hb. destruct (title_ok a name) eqn:Hok.
    + apply (build_vc_returns_iff name sections a w) in Hok. contradiction.
    + unfold title_ok in Hok. apply orb_false_iff in Hok as [Hg Hn].
      split; [exact Hg|]. destruct name as [[|c n]|]; try discriminate.
      exists (c :: n). split; [reflexivity|]. split; [discriminate|].
      destruct (inked (c :: n)) eqn:Hi; [|reflexivity].
      apply split_inked in Hi. destruct (split (c :: n)); congruence.
  - intros (Hg & n & -> & Hne & Hi). apply build_vc_raises.
    unfold title_ok. rewrite Hg. destruct n as [|c n]; [contradiction|].
    now rewrite (split_blank _ Hi).
Qed.

(** [--country] and [--region] are read by nothing: the credential is
    the same whatever their values. *)
Theorem location_options_unused (a : args) (c r : option str)
        (name : option str) (sections : dict (list str)) (w : world) :
  build_vc name sections (with_location a c r) w = build_vc name sections a w.
Proof. destruct a. reflexivity. Qed.

Lemma guarantee_section_other (subject subject' : dict json) (w w' : world)
      (key : str) :
  guarantee_section subject w = Some (subject', w') ->
  key <> lit "positionHistory" ->
  dict_get key subject' = dict_get key subject.
Proof.
  unfold guarantee_section, bind, new_uuid, ret.
  destruct (negb _); intros E Hkey; injection E as <- _; [|reflexivity].
  now apply dict_get_set_other.
Qed.

(** [build_vc], step by step, with the worlds in between and the
    credential it returns. *)
Lemma build_vc_steps (name : option str) (sections : dict (list str))
      (a : args) (w : world) :
  title_ok a name = true ->
  exists g sid w1 s1 w2 s2 w3 iid w4,
    given_of a name w = Some (g, w)
    /\ or_new_uuid (subject_id a) w = Some (sid, w1)
    /\ foldM add_section
         (subject_header sid (personal_data g (family_of a name) a))
         sections w1 = Some (s1, w2)
    /\ collections_ok s1
    /\ guarantee_section s1 w2 = Some (s2, w3)
    /\ or_new_uuid (issuer_id a) w3 = Some (iid, w4)
    /\ dict_get (lit "id") s2 = Some (JStr sid)
    /\ dict_get (lit "type") s2 = Some (JStr (lit "ResumeSubject"))
    /\ dict_get (lit "personalData") s2
       = Some (JDict (personal_data g (family_of a name) a))
    /\ build_vc name sections a w
       = Some (with_name name
                 (envelope (new_id (uuid_draws w4)) (utcnow (clock_reads w4))
                    (utcnow (S (clock_reads w4))) (new_id (S (uuid_draws w4)))
                    (issuer_of iid a) s2),
               after_envelope w4).
Proof.
  intros Hok.
  destruct (given_of_ok a name w Hok) as (g & Hg & _).
  destruct (or_new_uuid_ok (subject_id a) w) as (sid & w1 & Hsid & _).
  destruct (foldM_add_section_spec sections w1
              (header_collections_ok sid
                 (personal_data g (family_of a name) a)))
    as (s1 & w2 & Hfold & Hok1 & Hkeep & _).
  assert (Hguar : exists s2 w3, guarantee_section s1 w2 = Some (s2, w3)).
  { unfold guarantee_section, bind, new_uuid, ret.
    destruct (negb _); do 2 eexists; reflexivity. }
  destruct Hguar as (s2 & w3 & Hguar).
  destruct (or_new_uuid_ok (issuer_id a) w3) as (iid & w4 & Hiid & _).
  exists g, sid, w1, s1, w2, s2, w3, iid, w4.
  split; [exact Hg|]. split; [exact Hsid|]. split; [exact Hfold|].
  split; [exact Hok1|]. split; [exact Hguar|]. split; [exact Hiid|].
  assert (Hhead : forall key v,
             (forall k, key <> ckey_name k) ->
             dict_get key
               (subject_header sid (personal_data g (family_of a name) a))
             = Some v ->
             dict_get key s2 = Some v).
  { intros key v Hkey Hv.
    erewrite guarantee_section_other;
      [| exact Hguar | exact (Hkey positionHistory)].
    now rewrite Hkeep. }
  split; [apply Hhead; [intros k; destruct k; discriminate | reflexivity]|].
  split; [apply Hhead; [intros k; destruct k; discriminate | reflexivity]|].
  split; [apply Hhead; [intros k; destruct k; discriminate | reflexivity]|].
  unfold build_vc, bind. rewrite Hg.
  change (or_new_uuid (subject_id a) w = Some (sid, w1)) in Hsid.
  rewrite Hsid. unfold subject_header in Hfold. rewrite Hfold, Hguar, Hiid.
  unfold new_uuid, now_iso, ret. cbn [uuid_draws clock_reads].
  destruct name as [[|c n]|]; reflexivity.
Qed.

Lemma personal_data_get (g f : option str) (a : args) :
  map fst (personal_data g f a) = personal_keys
  /\ dict_get (lit "givenName") (personal_data g f a) = Some (opt_json g)
  /\ dict_get (lit "familyName") (personal_data g f a) = Some (opt_json f)
  /\ dict_get (lit "email") (personal_data g f a) = Some (or_none (email a))
  /\ dict_get (lit "phone") (personal_data g f a) = Some (or_none (phone a)).
Proof. repeat split. Qed.

Lemma credential_subject (name : option str) (vid issued created method : str)
      (issuer subject : dict json) :
  dict_get (lit "credentialSubject")
    (with_name name (envelope vid issued created method issuer subject))
  = Some (JDict subject).
Proof. destruct name as [[|c n]|]; reflexivity. Qed.

(** personalData always has the four keys givenName, familyName, email
    and phone, in that order.  With no override in force, givenName is
    the first word of the title and familyName its last word when the
    title has at least two words; each is null otherwise, as are email
    and phone. *)
Theorem personal_data_derivation (name : option str)
        (sections : dict (list str)) (a : args) (w : world) :
  title_ok a name = true ->
  exists vc w' pd,
    build_vc name sections a w = Some (vc, w')
    /\ path [lit "credentialSubject"; lit "personalData"] (JDict vc)
       = Some (JDict pd)
    /\ map fst pd = personal_keys
    /\ (truthy (given_name a) = false ->
        dict_get (lit "givenName") pd
        = Some (match title_words name with
                | first :: _ => JStr first
                | [] => JNull
                end))
    /\ (truthy (family_name a) = false ->
        dict_get (lit "familyName") pd
        = Some (match title_words name with
                | _ :: _ :: _ => JStr (last (title_words name) [])
                | _ => JNull
                end))
    /\ (truthy (email a) = false -> dict_get (lit "email") pd = Some JNull)
    /\ (truthy (phone a) = false -> dict_get (lit "phone") pd = Some JNull).
Proof.
  intros Hok.
  destruct (build_vc_steps name sections a w Hok)
    as (g & sid & w1 & s1 & w2 & s2 & w3 & iid & w4 & Hg & _ & _ & _ & _ & _
        & _ & _ & Hpd & Hb).
  destruct (personal_data_get g (family_of a name) a)
    as (Hkeys & Hgn & Hfn & Hem & Hph).
  do 2 eexists. exists (personal_data g (family_of a name) a).
  split; [exact Hb|]. split.
  { erewrite path_cons by apply credential_subject.
    erewrite path_cons by exact Hpd. reflexivity. }
  split; [exact Hkeys|]. split; [|split; [|split]].
  - intros Hno. rewrite Hgn. f_equal.
    unfold given_of in Hg. rewrite Hno in Hg. unfold title_words.
    destruct name as [[|c n]|]; try (injection Hg as <-; reflexivity).
    destruct (split (c :: n)); [discriminate|]. now injection Hg as <-.
  - intros Hno. rewrite Hfn. f_equal.
    unfold family_of. rewrite Hno. unfold title_words.
    destruct name as [[|c n]|]; try reflexivity.
    destruct (split (c :: n)) as [|x [|y l]]; reflexivity.
  - intros Hno. rewrite Hem. f_equal.
    destruct (email a) as [[|c e]|]; try reflexivity; discriminate.
  - intros Hno. rewrite Hph. f_equal.
    destruct (phone a) as [[|c e]|]; try reflexivity; discriminate.
Qed.

End AssemblerMore.

(** ** Identifiers and the clock *)

Lemma perm_move A (a b x : list A) :
  Permutation (a ++ x ++ b) ((a ++ b) ++ x).
Proof.
  rewrite <- app_assoc. apply Permutation_app_head, Permutation_app_comm.
Qed.

Section Minting.
Context {U : UnicodeData} {H : Host}.

Lemma ids_from_app (lo mid hi : nat) :
  lo <= mid -> mid <= hi ->
  ids_from lo mid ++ ids_from mid hi = ids_from lo hi.
Proof.
  intros H1 H2. unfold ids_from. rewrite <- map_app. f_equal.
  replace (hi - lo) with ((mid - lo) + (hi - mid)) by lia.
  rewrite seq_app. do 2 f_equal. lia.
Qed.

Lemma ids_from_nil (n : nat) : ids_from n n = [].
Proof. unfold ids_from. now rewrite Nat.sub_diag. Qed.

Lemma ids_from_one (n : nat) : ids_from n (S n) = [Some (JStr (new_id n))].
Proof.
  unfold ids_from. replace (S n - n) with 1 by lia. reflexivity.
Qed.

Lemma or_new_uuid_ids (x : option str) (s : str) (w w' : world) :
  or_new_uuid x w = Some (s, w') ->
  clock_reads w' = clock_reads w
  /\ uuid_draws w <= uuid_draws w'
  /\ (if truthy x then [] else [Some (JStr s)])
     = ids_from (uuid_draws w) (uuid_draws w').
Proof.
  destruct x as [[|c x]|]; simpl; unfold new_uuid, ret; intros E;
    injection E as <- <-; simpl;
    rewrite ?ids_from_nil, ?ids_from_one; repeat split; lia.
Qed.

Lemma MAKE_OBJ_id (k : ckey) (txt : str) (r : json) (w w' : world) :
  MAKE_OBJ k txt w = Some (r, w') ->
  record_id r = Some (JStr (new_id (uuid_draws w)))
  /\ uuid_draws w' = S (uuid_draws w)
  /\ clock_reads w' = clock_reads w.
Proof.
  destruct k; cbn [MAKE_OBJ];
    unfold to_position, to_edu, to_comp, to_ach, bind, new_uuid, ret.
  - destruct (re_split1 txt) as [[l r']|]; [destruct (ROLE_RE_search l)|];
      intros E; injection E as <- <-; repeat split.
  - intros E; injection E as <- <-; repeat split.
  - intros E; injection E as <- <-; repeat split.
  - intros E; injection E as <- <-; repeat split.
Qed.

Lemma mapM_MAKE_OBJ_ids (k : ckey) (texts : list str) (objs : list json)
      (w w' : world) :
  mapM (MAKE_OBJ k) texts w = Some (objs, w') ->
  map record_id objs = ids_from (uuid_draws w) (uuid_draws w')
  /\ uuid_draws w <= uuid_draws w'
  /\ clock_reads w' = clock_reads w.
Proof.
  revert objs w. induction texts as [|t texts IH]; intros objs w; simpl.
  - unfold ret. intros E. injection E as <- <-.
    rewrite ids_from_nil. repeat split. lia.
  - unfold bind. destruct (MAKE_OBJ k t w) as [[r w1]|] eqn:Hr; [|discriminate].
    destruct (mapM (MAKE_OBJ k) texts w1) as [[rs w2]|] eqn:Hm; [|discriminate].
    unfold ret. intros E. injection E as <- <-.
    destruct (MAKE_OBJ_id _ _ _ Hr) as (Hid & Hd & Hc).
    destruct (IH _ _ Hm) as (Hids & Hle & Hc').
    split; [|split; [lia | congruence]].
    cbn [map]. rewrite Hid, Hids.
    rewrite <- (@ids_from_app (uuid_draws w) (uuid_draws w1) (uuid_draws w2))
      by lia.
    rewrite Hd, ids_from_one. reflexivity.
Qed.

Lemma all_records_extended (k : ckey) (objs : list json)
      (subject subject' : dict json) :
  dict_get (ckey_name k) subject'
  = Some (JList (items (dict_get (ckey_name k) subject) ++ objs)) ->
  (forall key, key <> ckey_name k ->
               dict_get key subject' = dict_get key subject) ->
  Permutation (all_records subject') (all_records subject ++ objs).
Proof.
  intros Hk Hother. unfold all_records, all_ckeys. cbn [flat_map].
  rewrite !app_nil_r.
  destruct k; rewrite Hk; cbn [items];
    rewrite !Hother by (intros E; vm_compute in E; discriminate);
    rewrite <- !app_assoc; repeat apply Permutation_app_head;
    first [ reflexivity
          | etransitivity;
            [apply Permutation_app_comm | rewrite <- ?app_assoc; reflexivity] ].
Qed.

End Minting.

Section MintingClaims.
Context {U : UnicodeData} {H : Host}.

Lemma add_section_ids (subject subject' : dict json) (item : str * list str)
      (w w' : world) :
  collections_ok subject ->
  add_section subject item w = Some (subject', w') ->
  collections_ok subject'
  /\ clock_reads w' = clock_reads w
  /\ uuid_draws w <= uuid_draws w'
  /\ Permutation (map record_id (all_records subject'))
                 (map record_id (all_records subject)
                  ++ ids_from (uuid_draws w) (uuid_draws w')).
Proof.
  intros Hok. destruct item as [head paras]. unfold add_section.
  destruct (canonical head) as [key|].
  - unfold bind.
    destruct (mapM (MAKE_OBJ key) (filter nonempty paras) w)
      as [[objs w1]|] eqn:Hm; [|discriminate].
    destruct (mapM_MAKE_OBJ_ids _ _ _ Hm) as (Hids & Hle & Hc).
    destruct objs as [|x objs].
    + unfold ret. intros E. injection E as <- <-.
      rewrite <- Hids. simpl. rewrite app_nil_r. now repeat split.
    + destruct (setdefault_extend_spec key x objs w1 Hok)
        as (s' & Hs & Hok' & Hg & Hother).
      rewrite Hs. intros E. injection E as <- <-.
      split; [exact Hok'|]. split; [exact Hc|]. split; [exact Hle|].
      rewrite <- Hids, <- map_app. apply Permutation_map.
      apply all_records_extended with key; [exact Hg | exact Hother].
  - unfold ret. intros E. injection E as <- <-.
    rewrite ids_from_nil, app_nil_r. now repeat split.
Qed.

Lemma foldM_add_section_ids (sections : dict (list str))
      (subject subject' : dict json) (w w' : world) :
  collections_ok subject ->
  foldM add_section subject sections w = Some (subject', w') ->
  clock_reads w' = clock_reads w
  /\ uuid_draws w <= uuid_draws w'
  /\ Permutation (map record_id (all_records subject'))
                 (map record_id (all_records subject)
                  ++ ids_from (uuid_draws w) (uuid_draws w')).
Proof.
  revert subject w. induction sections as [|item sections IH];
    intros subject w Hok; cbn [foldM].
  - unfold ret. intros E. injection E as <- <-.
    rewrite ids_from_nil, app_nil_r. now repeat split.
  - unfold bind.
    destruct (add_section subject item w) as [[s1 w1]|] eqn:Hs; [|discriminate].
    intros Hf.
    destruct (add_section_ids _ _ Hok Hs) as (Hok1 & Hc1 & Hle1 & Hp1).
    destruct (IH _ _ Hok1 Hf) as (Hc2 & Hle2 & Hp2).
    split; [congruence|]. split; [lia|].
    rewrite Hp2, Hp1, <- app_assoc.
    now rewrite (@ids_from_app _ (uuid_draws w) (uuid_draws w1) (uuid_draws w')).
Qed.

Lemma guarantee_section_ids (subject subject' : dict json) (w w' : world) :
  guarantee_section subject w = Some (subject', w') ->
  clock_reads w' = clock_reads w
  /\ uuid_draws w <= uuid_draws w'
  /\ Permutation (map record_id (all_records subject'))
                 (map record_id (all_records subject)
                  ++ ids_from (uuid_draws w) (uuid_draws w')).
Proof.
  unfold guarantee_section. rewrite canonical_keys_names.
  unfold all_ckeys, dict_mem. cbn [map existsb].
  destruct (dict_get (ckey_name positionHistory) subject) eqn:H1;
    [|destruct (dict_get (ckey_name educationHistory) subject) eqn:H2;
      [|destruct (dict_get (ckey_name competency) subject) eqn:H3;
        [|destruct (dict_get (ckey_name achievements) subject) eqn:H4]]];
    cbn [orb negb]; unfold bind, new_uuid, ret; intros E;
    injection E as <- <-;
    try (rewrite ids_from_nil, app_nil_r; now repeat split).
  cbn [uuid_draws clock_reads]. split; [reflexivity|]. split; [lia|].
  rewrite ids_from_one. unfold all_records, all_ckeys. cbn [flat_map].
  rewrite dict_get_set_same.
  rewrite !dict_get_set_other by (intros E; vm_compute in E; discriminate).
  rewrite H1, H2, H3, H4. reflexivity.
Qed.

Lemma ids_from_NoDup (lo hi : nat) :
  (forall m n, uuid4 m = uuid4 n -> m = n) -> NoDup (ids_from lo hi).
Proof.
  intros Hinj. unfold ids_from. generalize (seq_NoDup (hi - lo) lo).
  generalize (seq lo (hi - lo)) as l.
  induction l as [|n l IH]; intros Hl; simpl; constructor.
  - inversion Hl as [|? ? Hn _]; subst. intros Hin.
    apply in_map_iff in Hin as (m & E & Hm). injection E as E.
    apply Hinj in E. congruence.
  - inversion Hl; subst. now apply IH.
Qed.

(** The identifiers [build_vc] makes are the successive draws, one draw
    per identifier: the subject's and the issuer's unless overridden,
    one per record, the credential's and the verification method.  So
    when no two draws of [uuid4] coincide, no two identifiers of the
    credential do. *)
Theorem identifiers_distinct (name : option str) (sections : dict (list str))
        (a : args) (w : world) :
  title_ok a name = true ->
  exists vc w',
    build_vc name sections a w = Some (vc, w')
    /\ Permutation (minted_ids a vc)
                   (ids_from (uuid_draws w) (uuid_draws w'))
    /\ length (minted_ids a vc) = uuid_draws w' - uuid_draws w
    /\ ((forall m n, uuid4 m = uuid4 n -> m = n) -> NoDup (minted_ids a vc)).
Proof.
  intros Hok.
  destruct (build_vc_steps name sections a w Hok)
    as (g & sid & w1 & s1 & w2 & s2 & w3 & iid & w4 & Hg & Hsid & Hfold
        & Hok1 & Hguar & Hiid & Hid & _ & _ & Hb).
  destruct (or_new_uuid_ids _ _ Hsid) as (_ & Hle1 & Hs).
  destruct (foldM_add_section_ids _ _
              (header_collections_ok sid _) Hfold) as (_ & Hle2 & Hp2).
  destruct (guarantee_section_ids _ _ Hguar) as (_ & Hle3 & Hp3).
  destruct (or_new_uuid_ids _ _ Hiid) as (_ & Hle4 & Hi).
  do 2 eexists. split; [exact Hb|].
  assert (Hperm : Permutation
            (minted_ids a
               (with_name name
                  (envelope (new_id (uuid_draws w4)) (utcnow (clock_reads w4))
                     (utcnow (S (clock_reads w4)))
                     (new_id (S (uuid_draws w4))) (issuer_of iid a) s2)))
            (ids_from (uuid_draws w) (uuid_draws (after_envelope w4)))).
  { unfold minted_ids, subject_of. rewrite credential_subject.
    erewrite path_cons by apply credential_subject.
    erewrite path_cons by exact Hid.
    replace (path [lit "issuer"; lit "id"] _) with (Some (JStr iid))
      by (destruct name as [[|c n]|]; reflexivity).
    replace (path [lit "id"] _)
      with (Some (JStr (new_id (uuid_draws w4))))
      by (destruct name as [[|c n]|]; reflexivity).
    replace (path [lit "proof"; lit "verificationMethod"] _)
      with (Some (JStr (new_id (S (uuid_draws w4)))))
      by (destruct name as [[|c n]|]; reflexivity).
    cbn [path]. rewrite Hs, Hi.
    rewrite <- (@ids_from_app _ (uuid_draws w) (uuid_draws w1)
                  (uuid_draws (after_envelope w4)))
      by (simpl; lia).
    apply Permutation_app_head.
    rewrite <- (@ids_from_app _ (uuid_draws w1) (uuid_draws w3)
                  (uuid_draws (after_envelope w4)))
      by (simpl; lia).
    apply Permutation_app.
    - rewrite Hp3, Hp2. simpl. now rewrite ids_from_app.
    - rewrite <- (@ids_from_app _ (uuid_draws w3) (uuid_draws w4)
                    (uuid_draws (after_envelope w4)))
        by (simpl; lia).
      apply Permutation_app_head.
      rewrite <- (@ids_from_app _ (uuid_draws w4) (S (uuid_draws w4))
                    (uuid_draws (after_envelope w4)))
        by (simpl; lia).
      simpl. now rewrite !ids_from_one. }
  split; [exact Hperm|]. split.
  - rewrite (Permutation_length Hperm). unfold ids_from.
    now rewrite length_map, length_seq.
  - intros Hinj. apply (Permutation_NoDup (Permutation_sym Hperm)).
    now apply ids_from_NoDup.
Qed.

End MintingClaims.

(** Seven identifiers for a title and two groups: all distinct when the
    draws are. *)
Lemma identifiers_distinct_witness :
  exists vc w',
    build_vc (U := basic_latin) (H := sample_host) (Some (lit "Jane Public"))
      [ (lit "EXPERIENCE", [lit "Analyst - Foo"; lit "Clerk - Bar"]);
        (lit "Skills", [lit "Go"]) ] no_args w0 = Some (vc, w')
    /\ NoDup (minted_ids no_args vc)
    /\ length (minted_ids no_args vc) = 7.
Proof.
  destruct (@identifiers_distinct basic_latin sample_host
              (Some (lit "Jane Public"))
              [ (lit "EXPERIENCE", [lit "Analyst - Foo"; lit "Clerk - Bar"]);
                (lit "Skills", [lit "Go"]) ] no_args w0 eq_refl)
    as (vc & w' & Hb & Hperm & Hlen & Hnd).
  exists vc, w'. split; [exact Hb|]. split.
  - apply Hnd. intros m n E. apply (f_equal (@length char)) in E.
    simpl in E. now rewrite !repeat_length in E.
  - rewrite Hlen. vm_compute in Hb. injection Hb as _ <-. reflexivity.
Defined.

Section EnvelopeClaims.
Context {U : UnicodeData} {H : Host}.

(** The envelope: the eight top-level keys in their order, then the
    display name [<title> – Resume] exactly when a title was detected;
    the two contexts, the two types, the schema reference, the issuer's
    type and default name, the subject's type, the proof's type and
    purpose; issuanceDate and the proof's created are two successive
    readings of the clock, the only two of the run. *)
Theorem credential_envelope (name : option str) (sections : dict (list str))
        (a : args) (w : world) :
  title_ok a name = true ->
  exists vc w',
    build_vc name sections a w = Some (vc, w')
    /\ map fst vc = envelope_keys
                    ++ (if truthy name then [lit "name"] else [])
    /\ dict_get (lit "name") vc
       = match name with
         | Some (c :: n) =>
             Some (JStr ((c :: n) ++ [32%N; en_dash; 32%N] ++ lit "Resume"))
         | _ => None
         end
    /\ dict_get (lit "@context") vc
       = Some (JList [ JStr (lit "https://www.w3.org/2018/credentials/v1");
                       JStr LER_RS_CONTEXT ])
    /\ dict_get (lit "type") vc
       = Some (JList [ JStr (lit "VerifiableCredential");
                       JStr (lit "ProvisionalVerifiableCredentialResume") ])
    /\ dict_get (lit "credentialSchema") vc = Some LER_RS_SCHEMA
    /\ path [lit "issuer"; lit "type"] (JDict vc)
       = Some (JStr (lit "Organization"))
    /\ (truthy (issuer_name a) = false ->
        path [lit "issuer"; lit "name"] (JDict vc)
        = Some (JStr default_issuer_name))
    /\ path [lit "credentialSubject"; lit "type"] (JDict vc)
       = Some (JStr (lit "ResumeSubject"))
    /\ path [lit "proof"; lit "type"] (JDict vc)
       = Some (JStr (lit "JsonWebSignature2020"))
    /\ path [lit "proof"; lit "proofPurpose"] (JDict vc)
       = Some (JStr (lit "assertionMethod"))
    /\ dict_get (lit "issuanceDate") vc = Some (JStr (utcnow (clock_reads w)))
    /\ path [lit "proof"; lit "created"] (JDict vc)
       = Some (JStr (utcnow (S (clock_reads w))))
    /\ clock_reads w' = S (S (clock_reads w)).
Proof.
  intros Hok.
  destruct (build_vc_steps name sections a w Hok)
    as (g & sid & w1 & s1 & w2 & s2 & w3 & iid & w4 & Hg & Hsid & Hfold
        & Hok1 & Hguar & Hiid & _ & Hty & _ & Hb).
  destruct (or_new_uuid_ids _ _ Hsid) as (Hc1 & _).
  destruct (foldM_add_section_ids _ _
              (header_collections_ok sid _) Hfold) as (Hc2 & _).
  destruct (guarantee_section_ids _ _ Hguar) as (Hc3 & _).
  destruct (or_new_uuid_ids _ _ Hiid) as (Hc4 & _).
  assert (Hc : clock_reads w4 = clock_reads w) by congruence.
  do 2 eexists. split; [exact Hb|]. rewrite Hc.
  split; [destruct name as [[|c n]|]; reflexivity|].
  split; [destruct name as [[|c n]|]; reflexivity|].
  split; [destruct name as [[|c n]|]; reflexivity|].
  split; [destruct name as [[|c n]|]; reflexivity|].
  split; [destruct name as [[|c n]|]; reflexivity|].
  split; [destruct name as [[|c n]|]; reflexivity|].
  split.
  { intros Hno. unfold issuer_of.
    destruct (issuer_name a) as [[|c' n']|]; try discriminate;
      destruct name as [[|c n]|]; reflexivity. }
  split.
  { erewrite path_cons by apply credential_subject.
    erewrite path_cons by exact Hty. reflexivity. }
  split; [destruct name as [[|c n]|]; reflexivity|].
  split; [destruct name as [[|c n]|]; reflexivity|].
  split; [destruct name as [[|c n]|]; reflexivity|].
  split; [destruct name as [[|c n]|]; reflexivity|].
  simpl. now rewrite Hc.
Qed.

End EnvelopeClaims.

(** A credential with no title has the eight keys and no display name. *)
Lemma credential_envelope_witness :
  exists vc w',
    build_vc (U := basic_latin) (H := sample_host) None [] no_args w0
    = Some (vc, w')
    /\ map fst vc = envelope_keys
    /\ dict_get (lit "name") vc = None.
Proof.
  destruct (@credential_envelope basic_latin sample_host None [] no_args w0
              eq_refl) as (vc & w' & Hb & Hkeys & Hname & _).
  exists vc, w'. split; [exact Hb|]. split; [|exact Hname].
  rewrite Hkeys. apply app_nil_r.
Defined.

(** The title "Cher" gives the given name "Cher" and no family name. *)
Lemma personal_data_derivation_witness :
  exists vc w' pd,
    build_vc (U := basic_latin) (H := sample_host) (Some (lit "Cher")) []
      no_args w0 = Some (vc, w')
    /\ path [lit "credentialSubject"; lit "personalData"] (JDict vc)
       = Some (JDict pd)
    /\ dict_get (lit "givenName") pd = Some (JStr (lit "Cher"))
    /\ dict_get (lit "familyName") pd = Some JNull.
Proof.
  destruct (@personal_data_derivation basic_latin sample_host
              (Some (lit "Cher")) [] no_args w0 eq_refl)
    as (vc & w' & pd & Hb & Hp & _ & Hgn & Hfn & _).
  exists vc, w', pd. split; [exact Hb|]. split; [exact Hp|].
  split; [exact (Hgn eq_refl) | exact (Hfn eq_refl)].
Defined.

(** ** The structure classifier: title, keys and groups *)

Lemma lstrip_suffix (s : str) : exists p, s = p ++ lstrip s.
Proof.
  induction s as [|c s [p IH]]; [now exists []|]. simpl.
  destruct (isspace c).
  - exists (c :: p). simpl. now rewrite <- IH.
  - now exists [].
Qed.

Lemma last_app_nonempty A (p v : list A) (d d' : A) :
  v <> [] -> last (p ++ v) d = last v d'.
Proof.
  intros Hv. induction p as [|x p IH]; simpl.
  - destruct v as [|y v]; [contradiction|]. clear Hv.
    revert y. induction v as [|z v IHv]; intros y; [reflexivity|].
    simpl. simpl in IHv. apply IHv.
  - destruct (p ++ v) eqn:E; [|exact IH].
    apply app_eq_nil in E as [_ E]. contradiction.
Qed.

(** What [strip] returns, when it is not empty, neither starts nor ends
    with whitespace. *)
Lemma strip_trimmed (s : str) :
  nonempty (strip s) = true -> trimmed (strip s) = true.
Proof.
  unfold strip, rstrip.
  destruct (lstrip s) as [|a u] eqn:Hu; [discriminate|].
  pose proof (lstrip_head _ Hu) as Ha.
  destruct (lstrip (rev (a :: u))) as [|b v] eqn:Hv; [discriminate|].
  pose proof (lstrip_head _ Hv) as Hb. intros _.
  destruct (lstrip_suffix (rev (a :: u))) as [p Hp]. rewrite Hv in Hp.
  assert (Hlast : last (b :: v) b = a).
  { rewrite <- (@last_app_nonempty _ p (b :: v) a b) by discriminate.
    rewrite <- Hp. simpl. apply last_last. }
  unfold trimmed. destruct (rev (b :: v)) as [|x r] eqn:Hr.
  { apply (f_equal (@length char)) in Hr. rewrite length_rev in Hr.
    discriminate. }
  assert (Hx : x = a).
  { apply (f_equal (@rev char)) in Hr. rewrite rev_involutive in Hr.
    simpl in Hr. rewrite Hr in Hlast. rewrite last_last in Hlast.
    exact Hlast. }
  assert (Hl : last (x :: r) x = b).
  { rewrite <- Hr. simpl. apply last_last. }
  rewrite Hl, Hx, Ha, Hb. reflexivity.
Qed.

Lemma trimmed_nonempty (s : str) : trimmed s = true -> nonempty s = true.
Proof. destruct s; [discriminate | reflexivity]. Qed.

Lemma keys_dict_set V (k : str) (v : V) (d : dict V) :
  map fst (dict_set k v d) = add_key (map fst d) k.
Proof.
  unfold add_key. induction d as [|[k' v'] d IH]; simpl; [reflexivity|].
  destruct (str_eqb k k'); simpl; [reflexivity|].
  rewrite IH. now destruct (existsb (str_eqb k) (map fst d)).
Qed.

Lemma dict_get_None_iff V (k : str) (d : dict V) :
  dict_get k d = None <-> ~ In k (map fst d).
Proof.
  induction d as [|[k' v] d IH]; simpl; [tauto|].
  destruct (str_eqb k k') eqn:E.
  - apply str_eqb_eq in E. subst. split; [discriminate | tauto].
  - assert (k' <> k) by (intros ->; now rewrite str_eqb_refl in E). tauto.
Qed.

Lemma add_key_In (ks : list str) (t x : str) :
  In x (add_key ks t) <-> In x ks \/ x = t.
Proof.
  unfold add_key. destruct (existsb (str_eqb t) ks) eqn:E.
  - apply existsb_exists in E as (y & Hy & Ey). apply str_eqb_eq in Ey.
    subst y. split; [tauto | intros [?| ->]; assumption].
  - rewrite in_app_iff. simpl. intuition (subst; auto).
Qed.

Lemma add_key_NoDup (ks : list str) (t : str) :
  NoDup ks -> NoDup (add_key ks t).
Proof.
  intros Hn. unfold add_key. destruct (existsb (str_eqb t) ks) eqn:E;
    [exact Hn|].
  apply NoDup_app; [exact Hn | constructor; [intros [] | constructor] |].
  intros x Hx [E'|[]]. subst x.
  assert (Ht : existsb (str_eqb t) ks = true)
    by (apply existsb_exists; exists t; split; [exact Hx | apply str_eqb_refl]).
  congruence.
Qed.

Lemma first_seen_spec (l ks : list str) :
  NoDup ks ->
  NoDup (fold_left add_key l ks)
  /\ forall x, In x (fold_left add_key l ks) <-> In x ks \/ In x l.
Proof.
  revert ks. induction l as [|t l IH]; intros ks Hn; simpl.
  - split; [exact Hn | tauto].
  - destruct (IH (add_key ks t) (add_key_NoDup t Hn)) as [H1 H2].
    split; [exact H1|]. intros x. rewrite H2, add_key_In.
    split; [intros [[?|?]|?] | intros [?|[?|?]]]; auto.
Qed.

Lemma last_occurrence A (f : A -> bool) (l : list A) :
  existsb f l = true ->
  exists pre h post,
    l = pre ++ h :: post /\ f h = true /\ forall q, In q post -> f q = false.
Proof.
  induction l as [|x l IH]; [discriminate|]. simpl. intros Hx.
  destruct (existsb f l) eqn:El.
  - destruct (IH eq_refl) as (pre & h & post & -> & Hh & Hpost).
    now exists (x :: pre), h, post.
  - rewrite orb_false_r in Hx. exists [], x, l. repeat split; [exact Hx|].
    intros q Hq. destruct (f q) eqn:Eq; [|reflexivity].
    assert (existsb f l = true) by (apply existsb_exists; now exists q).
    congruence.
Qed.

Lemma Forall_dict_set V (P : str * V -> Prop) (k : str) (v : V) (d : dict V) :
  Forall P d -> P (k, v) -> Forall P (dict_set k v d).
Proof.
  intros Hd Hv. induction d as [|[k' v'] d IH]; simpl.
  - now constructor.
  - inversion Hd; subst. destruct (str_eqb k k') eqn:E.
    + apply str_eqb_eq in E. subst k'. now constructor.
    + constructor; [assumption | now apply IH].
Qed.

Lemma Forall_dict_get V (P : str * V -> Prop) (k : str) (v : V) (d : dict V) :
  Forall P d -> dict_get k d = Some v -> P (k, v).
Proof.
  induction d as [|[k' v'] d IH]; simpl; [discriminate|].
  intros Hd. inversion Hd; subst. destruct (str_eqb k k') eqn:E.
  - apply str_eqb_eq in E. subst k'. intros E'. now injection E' as <-.
  - now apply IH.
Qed.

Section ClassifierMore.
Context {U : UnicodeData}.

Lemma parse_step_name_eq (st st' : pstate) (p : paragraph) :
  parse_step st p = Some st' ->
  st_name st'
  = match st_name st with
    | Some n => Some n
    | None => if nonempty (para_txt p) && title_styled p
              then Some (para_txt p) else None
    end.
Proof.
  unfold parse_step, title_styled, para_style, para_txt.
  destruct st as [n cu o]. cbn [st_name st_current st_out].
  destruct (nonempty (strip (p_text p))); simpl.
  - destruct (str_eqb _ _ || startswith _ (lit "heading 1")).
    + intros E. injection E as <-. now destruct n.
    + destruct (_ || looks_like_heading _).
      * intros E. injection E as <-. now destruct n.
      * destruct cu as [[|c cur]|];
          try (intros E; injection E as <-; now destruct n).
        destruct (dict_get _ _); [|discriminate].
        intros E. injection E as <-. now destruct n.
  - intros E. injection E as <-. now destruct n.
Qed.

Lemma parse_loop_title (ps : list paragraph) (st st' : pstate) :
  parse_loop st ps = Some st' ->
  st_name st' = match st_name st with
                | Some n => Some n
                | None => first_title ps
                end.
Proof.
  revert st. induction ps as [|p ps IH]; intros st; simpl.
  - intros E. injection E as <-. now destruct (st_name st).
  - destruct (parse_step st p) as [st1|] eqn:Hs; [|discriminate].
    intros Hl. rewrite (IH _ Hl), (parse_step_name_eq _ _ Hs).
    unfold first_title. simpl.
    destruct (st_name st); [reflexivity|].
    now destruct (nonempty (para_txt p) && title_styled p).
Qed.

(** The title is the text, stripped, of the first non-empty paragraph
    whose style is "title" or starts with "heading 1"; there is none when
    the document has no such paragraph. *)
Theorem title_capture (doc : list paragraph) :
  exists sections, parse_docx doc = Some (first_title doc, sections).
Proof.
  set (init := {| st_name := None; st_current := None; st_out := [] |}).
  destruct (@parse_loop_total U doc init I) as (st & Hl & _).
  exists (st_out st). rewrite (parse_docx_loop _ Hl).
  now rewrite (parse_loop_title _ _ Hl).
Qed.

Lemma parse_step_same_groups (st st' : pstate) (p : paragraph) :
  same_groups (Some st) (Some st') ->
  same_groups (parse_step st p) (parse_step st' p).
Proof.
  destruct st as [n cu o], st' as [n' cu' o']. simpl. intros [-> ->].
  unfold parse_step. cbn [st_name st_current st_out].
  destruct (negb _); [now simpl|].
  destruct (str_eqb _ _ || startswith _ (lit "heading 1")).
  - destruct n, n'; now simpl.
  - destruct (_ || looks_like_heading _); [now simpl|].
    destruct cu' as [[|c cur]|]; try now simpl.
    destruct (dict_get _ _); now simpl.
Qed.

Lemma parse_loop_same_groups (ps : list paragraph) (st st' : pstate) :
  same_groups (Some st) (Some st') ->
  same_groups (parse_loop st ps) (parse_loop st' ps).
Proof.
  revert st st'. induction ps as [|p ps IH]; intros st st' Hs; [exact Hs|].
  simpl. pose proof (parse_step_same_groups p Hs) as Hp.
  destruct (parse_step st p), (parse_step st' p); try contradiction.
  - now apply IH.
  - exact I.
Qed.

Lemma parse_loop_filter_counted (ps : list paragraph) (st st' : pstate) :
  same_groups (Some st) (Some st') ->
  same_groups (parse_loop st ps) (parse_loop st' (filter counted ps)).
Proof.
  revert st st'. induction ps as [|p ps IH]; intros st st' Hs; [exact Hs|].
  cbn [filter]. destruct (counted p) eqn:Hc.
  - simpl. pose proof (parse_step_same_groups p Hs) as Hp.
    destruct (parse_step st p), (parse_step st' p); try contradiction.
    + now apply IH.
    + exact I.
  - unfold counted in Hc. apply orb_false_iff in Hc as [Hh Hb].
    destruct (parse_step_skip st p Hh Hb) as [n Hn]. simpl. rewrite Hn.
    apply IH. exact Hs.
Qed.

Lemma groups_same (ps qs : list paragraph) :
  same_groups
    (parse_loop {| st_name := None; st_current := None; st_out := [] |} ps)
    (parse_loop {| st_name := None; st_current := None; st_out := [] |} qs) ->
  groups ps = groups qs.
Proof.
  unfold groups, parse_docx.
  destruct (parse_loop _ ps), (parse_loop _ qs); simpl; try tauto.
  now intros [_ ->].
Qed.

(** The groups depend only on the headings and the body paragraphs from
    the first heading on: removing the empty paragraphs and those in a
    title style changes no group, and neither does removing whatever
    comes before the first detected heading. *)
Theorem groups_ignore :
  (forall doc, groups (filter counted doc) = groups doc)
  /\ (forall pre rest,
         (forall p, In p pre -> is_heading p = false) ->
         groups (pre ++ rest) = groups rest).
Proof.
  split.
  - intros doc. symmetry. apply groups_same.
    apply parse_loop_filter_counted. now split.
  - intros pre rest Hno. apply groups_same. rewrite parse_loop_app.
    destruct (parse_loop_no_heading pre
                {| st_name := None; st_current := None; st_out := [] |}
                eq_refl Hno) as (st & -> & Hc & Ho).
    apply parse_loop_same_groups. now split.
Qed.

Lemma parse_loop_keys (ps : list paragraph) (st st' : pstate) :
  open_group_ok st ->
  parse_loop st ps = Some st' ->
  map fst (st_out st')
  = fold_left add_key (heading_texts ps) (map fst (st_out st)).
Proof.
  revert st. induction ps as [|p ps IH]; intros st Hok; simpl.
  - intros E. now injection E as <-.
  - destruct (parse_step_total st p Hok) as (st1 & Hs & Hok1). rewrite Hs.
    intros Hl. rewrite (IH _ Hok1 Hl). unfold heading_texts. cbn [filter].
    destruct (is_heading p) eqn:Hh; [|destruct (is_body p) eqn:Hb].
    + rewrite (parse_step_heading _ _ Hh) in Hs. injection Hs as <-.
      simpl. now rewrite keys_dict_set.
    + rewrite (parse_step_body _ _ Hb) in Hs.
      destruct (st_current st) as [[|c cur]|];
        try (injection Hs as <-; reflexivity).
      destruct (dict_get (c :: cur) (st_out st)) as [l|] eqn:Hg;
        [|discriminate].
      injection Hs as <-. simpl. now erewrite keys_dict_set_present by exact Hg.
    + destruct (parse_step_skip st p Hh Hb) as [n Hn]. rewrite Hn in Hs.
      now injection Hs as <-.
Qed.

Lemma heading_texts_In (doc : list paragraph) (t : str) :
  In t (heading_texts doc)
  <-> exists p, In p doc /\ is_heading p = true /\ para_txt p = t.
Proof.
  unfold heading_texts. rewrite in_map_iff. split.
  - intros (p & E & Hp). apply filter_In in Hp as [Hin Hh]. now exists p.
  - intros (p & Hin & Hh & E). exists p. split; [exact E|].
    apply filter_In. now split.
Qed.

(** The keys of the groups are the texts of the detected headings, each
    once, in the order of their first detection: a heading that comes
    back keeps the place of its first occurrence. *)
Theorem groups_keys (doc : list paragraph) :
  exists name out,
    parse_docx doc = Some (name, out)
    /\ map fst out = first_seen (heading_texts doc)
    /\ NoDup (map fst out)
    /\ forall t, dict_get t out <> None
                 <-> exists p, In p doc /\ is_heading p = true
                               /\ para_txt p = t.
Proof.
  set (init := {| st_name := None; st_current := None; st_out := [] |}).
  destruct (@parse_loop_total U doc init I) as (st & Hl & _).
  pose proof (parse_loop_keys doc init I Hl) as Hk. simpl in Hk.
  destruct (first_seen_spec (heading_texts doc) (NoDup_nil _)) as [Hn Hin].
  exists (st_name st), (st_out st). split; [now apply parse_docx_loop|].
  split; [exact Hk|]. split; [rewrite Hk; exact Hn|].
  intros t. rewrite <- heading_texts_In.
  assert (Hiff : In t (map fst (st_out st)) <-> In t (heading_texts doc)).
  { rewrite Hk. unfold first_seen. rewrite Hin. simpl. tauto. }
  rewrite <- Hiff. pose proof (dict_get_None_iff t (st_out st)) as Hnone.
  destruct (dict_get t (st_out st)); split; intros Hx.
  - destruct (in_dec (list_eq_dec N.eq_dec) t (map fst (st_out st)));
      [assumption|].
    apply Hnone in n. discriminate.
  - discriminate.
  - contradiction.
  - exfalso. apply (proj1 Hnone eq_refl). exact Hx.
Qed.

(** The group of every heading text: absent when no heading was detected
    with that text; otherwise the body paragraphs between the last
    heading detected with it and the next heading. *)
Theorem group_lookup (doc : list paragraph) (t : str) :
  exists name out,
    parse_docx doc = Some (name, out)
    /\ ((existsb (heading_of t) doc = false /\ dict_get t out = None)
        \/ exists pre h post,
            doc = pre ++ h :: post
            /\ is_heading h = true /\ para_txt h = t
            /\ (forall q, In q post -> heading_of t q = false)
            /\ dict_get t out = Some (body_run post)).
Proof.
  set (init := {| st_name := None; st_current := None; st_out := [] |}).
  destruct (existsb (heading_of t) doc) eqn:Hex.
  - destruct (last_occurrence _ _ Hex) as (pre & h & post & -> & Hh & Hpost).
    unfold heading_of in Hh. apply andb_true_iff in Hh as [Hh Ht].
    apply str_eqb_eq in Ht. subst t.
    destruct (@parse_loop_total U pre init I) as (st1 & Hl1 & Hok1).
    set (st2 := {| st_name := st_name st1;
                   st_current := Some (para_txt h);
                   st_out := dict_set (para_txt h) [] (st_out st1) |}).
    assert (Hs2 : parse_step st1 h = Some st2) by now apply parse_step_heading.
    assert (Hok2 : open_group_ok st2).
    { destruct (parse_step_total st1 h Hok1) as (st & Hs & Hok).
      rewrite Hs2 in Hs. now injection Hs as <-. }
    assert (Hno : forall q, In q post -> is_heading q = true ->
                            para_txt q <> para_txt h).
    { intros q Hq Hhq E. pose proof (Hpost q Hq) as Hf.
      unfold heading_of in Hf. rewrite Hhq, E, str_eqb_refl in Hf.
      discriminate. }
    destruct (@parse_loop_open_group U (para_txt h) post st2 [] Hok2
                eq_refl (dict_get_set_same _ _ _) Hno) as (st3 & Hl3 & Hg3).
    exists (st_name st3), (st_out st3). split.
    + apply parse_docx_loop. fold init. rewrite parse_loop_app, Hl1.
      simpl. now rewrite Hs2.
    + right. exists pre, h, post. now repeat split.
  - destruct (@parse_loop_total U doc init I) as (st & Hl & _).
    exists (st_name st), (st_out st). split; [now apply parse_docx_loop|].
    left. split; [reflexivity|]. apply dict_get_None_iff.
    rewrite (parse_loop_keys doc init I Hl). simpl.
    destruct (first_seen_spec (heading_texts doc) (NoDup_nil _)) as [_ Hin].
    unfold first_seen in Hin. rewrite Hin. intros [[]|Hin'].
    apply heading_texts_In in Hin' as (p & Hp & Hh & E).
    assert (existsb (heading_of t) doc = true).
    { apply existsb_exists. exists p. split; [exact Hp|].
      unfold heading_of. rewrite Hh, E. apply str_eqb_refl. }
    congruence.
Qed.

Lemma step_trimmed (st st' : pstate) (p : paragraph) :
  all_trimmed st -> parse_step st p = Some st' -> all_trimmed st'.
Proof.
  unfold all_trimmed. destruct st as [n cu o]. cbn [st_name st_current st_out].
  intros (Ho & Hc & Hn).
  destruct (is_heading p) eqn:Hh; [|destruct (is_body p) eqn:Hb].
  - rewrite (parse_step_heading _ _ Hh). intros E. injection E as <-. simpl.
    assert (Ht : trimmed (para_txt p) = true).
    { apply strip_trimmed. unfold is_heading in Hh.
      apply andb_true_iff in Hh as [Hh' _].
      now apply andb_true_iff in Hh' as [Hh' _]. }
    split; [|now split].
    apply Forall_dict_set; [exact Ho|]. split; [exact Ht | constructor].
  - rewrite (parse_step_body _ _ Hb). cbn [st_name st_current st_out].
    assert (Ht : trimmed (para_txt p) = true).
    { apply strip_trimmed. unfold is_body in Hb.
      apply andb_true_iff in Hb as [Hb' _].
      now apply andb_true_iff in Hb' as [Hb' _]. }
    destruct cu as [[|c cur]|];
      try (intros E; injection E as <-; now repeat split).
    destruct (dict_get (c :: cur) o) as [l|] eqn:Hg; [|discriminate].
    intros E. injection E as <-. simpl.
    split; [|now split].
    apply Forall_dict_set; [exact Ho|]. split; [exact Hc|]. simpl.
    apply Forall_app. split; [|now repeat constructor].
    exact (proj2 (@Forall_dict_get _ group_trimmed _ _ _ Ho Hg)).
  - intros Hs. pose proof (parse_step_name_eq _ _ Hs) as Hname.
    destruct (parse_step_skip {| st_name := n; st_current := cu; st_out := o |}
                p Hh Hb) as [n' Hn'].
    rewrite Hn' in Hs. injection Hs as <-. simpl in *.
    split; [exact Ho|]. split; [exact Hc|]. subst n'.
    destruct n; [exact Hn|].
    destruct (nonempty (para_txt p)) eqn:Hne; simpl; [|exact I].
    destruct (title_styled p); [|exact I]. now apply strip_trimmed.
Qed.

Lemma loop_trimmed (ps : list paragraph) (st st' : pstate) :
  all_trimmed st -> parse_loop st ps = Some st' -> all_trimmed st'.
Proof.
  revert st. induction ps as [|p ps IH]; intros st Hst; simpl.
  - intros E. now injection E as <-.
  - destruct (parse_step st p) as [st1|] eqn:Hs; [|discriminate].
    apply IH. eapply step_trimmed; eassumption.
Qed.

Lemma filter_trimmed (l : list str) :
  Forall (fun x => trimmed x = true) l -> filter nonempty l = l.
Proof.
  induction 1 as [|x l Hx _ IH]; [reflexivity|]. simpl.
  now rewrite (trimmed_nonempty x Hx), IH.
Qed.

(** The title, the headings and the paragraphs of the groups are never
    empty and neither start nor end with whitespace; so the filter of
    empty paragraphs in [build_vc] removes nothing of what [parse_docx]
    returns. *)
Theorem groups_trimmed (doc : list paragraph) :
  exists name sections,
    parse_docx doc = Some (name, sections)
    /\ match name with Some n => trimmed n = true | None => True end
    /\ Forall group_trimmed sections
    /\ Forall (fun item => filter nonempty (snd item) = snd item) sections.
Proof.
  set (init := {| st_name := None; st_current := None; st_out := [] |}).
  destruct (@parse_loop_total U doc init I) as (st & Hl & _).
  assert (Hinit : all_trimmed init) by (repeat split; constructor).
  assert (Hst : all_trimmed st) by (eapply loop_trimmed; eassumption).
  destruct Hst as (Ho & _ & Hn).
  exists (st_name st), (st_out st). split; [now apply parse_docx_loop|].
  split; [exact Hn|]. split; [exact Ho|].
  eapply Forall_impl; [|exact Ho]. intros item [_ Hi].
  now apply filter_trimmed.
Qed.

End ClassifierMore.

(** A document whose only heading comes after a title and a stray line:
    the groups are those of the heading and its paragraph alone. *)
Lemma groups_ignore_witness :
  let title := {| p_text := lit "Jane Public"; p_style := Some (lit "Title") |} in
  let stray := {| p_text := lit "jane@example.org"; p_style := None |} in
  let head := {| p_text := lit "WORK HISTORY"; p_style := None |} in
  let body := {| p_text := lit "Analyst - Foo"; p_style := None |} in
  groups (U := basic_latin) ([title; stray] ++ [head; body])
  = groups (U := basic_latin) [head; body]
  /\ groups (U := basic_latin) [head; body]
     = Some [(lit "WORK HISTORY", [lit "Analyst - Foo"])].
Proof.
  intros title stray head body. split; [|reflexivity].
  apply (proj2 (@groups_ignore basic_latin)).
  intros p [<-|[<-|[]]]; reflexivity.
Defined.

(** ** The heading heuristic *)

Lemma words_from_one_word (s cur : str) :
  existsb isspace s = false ->
  words_from cur s = match cur ++ s with [] => [] | word => [word] end.
Proof.
  revert cur. induction s as [|c s IH]; intros cur; simpl.
  - intros _. rewrite app_nil_r. now destruct cur.
  - intros Hs. apply orb_false_iff in Hs as [Hc Hs]. rewrite Hc.
    rewrite (IH _ Hs), <- app_assoc. reflexivity.
Qed.

Section Heuristic.
Context {U : UnicodeData}.

(** A text of one word (no whitespace in it) is never taken for a
    heading by the upper-case heuristic, whatever its case and length:
    a line such as SKILLS opens a group only through its style. *)
Theorem one_word_not_heading (text : str) :
  existsb isspace text = false -> looks_like_heading text = false.
Proof.
  intros Hs. unfold looks_like_heading, split.
  rewrite (words_from_one_word _ [] Hs).
  destruct text as [|c t]; cbn [app length Nat.leb];
    now rewrite andb_false_r.
Qed.

End Heuristic.

Lemma one_word_not_heading_witness :
  looks_like_heading (U := basic_latin) (lit "SKILLS") = false.
Proof. apply (@one_word_not_heading basic_latin). reflexivity. Defined.

(** ** Position records of classified paragraphs *)

Lemma re_split1_sound (text l r : str) :
  re_split1 text = Some (l, r) ->
  exists a b c,
    text = l ++ a :: b :: c :: r
    /\ sep3 a b c = true
    /\ forall j, j < length l -> sep_at text j = false.
Proof.
  revert l r. induction text as [|a tl IH]; intros l r; [discriminate|].
  destruct tl as [|b [|c rest]]; try discriminate.
  change (re_split1 (a :: b :: c :: rest))
    with (if sep3 a b c then Some ([], rest)
          else match re_split1 (b :: c :: rest) with
               | Some (l, r) => Some (a :: l, r)
               | None => None
               end).
  destruct (sep3 a b c) eqn:Hs.
  - intros E. injection E as <- <-. exists a, b, c.
    split; [reflexivity|]. split; [exact Hs|]. simpl. lia.
  - destruct (re_split1 (b :: c :: rest)) as [[l' r']|] eqn:Hr; [|discriminate].
    intros E. injection E as <- <-.
    destruct (IH _ _ eq_refl) as (a' & b' & c' & Ht & Hs' & Hm).
    exists a', b', c'. split; [simpl; now rewrite <- Ht|].
    split; [exact Hs'|]. intros [|j] Hj.
    + unfold sep_at. simpl. exact Hs.
    + rewrite sep_at_cons. apply Hm. simpl in Hj. lia.
Qed.

Lemma re_split1_none_sound (text : str) :
  re_split1 text = None -> forall i, sep_at text i = false.
Proof.
  induction text as [|a tl IH]; intros Hn i.
  - unfold sep_at. now rewrite skipn_nil.
  - destruct i as [|i].
    + unfold sep_at. simpl. destruct tl as [|b [|c rest]]; try reflexivity.
      change (re_split1 (a :: b :: c :: rest))
        with (if sep3 a b c then Some ([], rest)
              else match re_split1 (b :: c :: rest) with
                   | Some (l, r) => Some (a :: l, r)
                   | None => None
                   end) in Hn.
      destruct (sep3 a b c); [discriminate | reflexivity].
    + rewrite sep_at_cons. apply IH.
      destruct tl as [|b [|c rest]]; try reflexivity.
      change (re_split1 (a :: b :: c :: rest))
        with (if sep3 a b c then Some ([], rest)
              else match re_split1 (b :: c :: rest) with
                   | Some (l, r) => Some (a :: l, r)
                   | None => None
                   end) in Hn.
      destruct (sep3 a b c); [discriminate|].
      now destruct (re_split1 (b :: c :: rest)) as [[l r]|].
Qed.

Lemma trimmed_sides (l r : str) (a b c : char) :
  trimmed (l ++ a :: b :: c :: r) = true -> sep3 a b c = true ->
  l <> [] /\ r <> [].
Proof.
  unfold sep3. intros Ht Hs.
  apply andb_true_iff in Hs as [Hs Hc]. apply andb_true_iff in Hs as [Ha _].
  split; intros ->.
  - simpl in Ht. rewrite Ha in Ht. discriminate.
  - unfold trimmed in Ht.
    destruct (l ++ [a; b; c]) as [|x t] eqn:E.
    { destruct l; discriminate. }
    apply andb_true_iff in Ht as [_ Ht].
    rewrite <- E in Ht.
    rewrite (@last_app_nonempty _ l [a; b; c] x c) in Ht by discriminate.
    simpl in Ht. rewrite Hc in Ht. discriminate.
Qed.

Section TrimmedPositions.
Context {U : UnicodeData} {H : Host}.

(** On a trimmed text, as every paragraph of a group is: jobTitle and
    description are never null and description is the text; without a
    separator jobTitle is the text and organization is null; with one,
    organization is not null either, and jobTitle, the three characters
    of the separator and organization make up the text, in this order or
    the other. *)
Theorem to_position_on_trimmed (text : str) (w : world) :
  trimmed text = true ->
  exists rec jt,
    run (to_position text) w = Some rec
    /\ jobTitle rec = Some (JStr jt) /\ jt <> []
    /\ description rec = Some (JStr text)
    /\ (((forall i, sep_at text i = false)
         /\ jt = text /\ organization rec = Some JNull)
        \/ exists org a b c,
            organization rec = Some (JStr org) /\ org <> []
            /\ sep3 a b c = true
            /\ (text = jt ++ a :: b :: c :: org
                \/ text = org ++ a :: b :: c :: jt)).
Proof.
  intros Ht.
  assert (Hne : text <> []) by (intros ->; discriminate).
  assert (Htext : or_none (Some text) = JStr text)
    by (destruct text; [contradiction | reflexivity]).
  destruct (re_split1 text) as [[l r]|] eqn:Hs.
  - destruct (re_split1_sound _ Hs) as (a & b & c & E & Hsep & _).
    rewrite E in Ht. destruct (trimmed_sides _ _ _ _ _ Ht Hsep) as [Hl Hr].
    assert (Hjl : or_none (Some l) = JStr l)
      by (destruct l; [contradiction | reflexivity]).
    assert (Hjr : or_none (Some r) = JStr r)
      by (destruct r; [contradiction | reflexivity]).
    destruct (ROLE_RE_search l) eqn:Hrole.
    + destruct (@to_position_split_left U H text l r w Hs Hrole)
        as (rec & Hrun & Hj & Ho & Hd).
      exists rec, l. rewrite Hj, Ho, Hd, Hjl, Hjr, Htext.
      repeat split; try assumption. right. exists r, a, b, c.
      repeat split; try assumption. now left.
    + destruct (@to_position_split_right U H text l r w Hs Hrole)
        as (rec & Hrun & Hj & Ho & Hd).
      exists rec, r. rewrite Hj, Ho, Hd, Hjl, Hjr, Htext.
      repeat split; try assumption. right. exists l, a, b, c.
      repeat split; try assumption. now right.
  - destruct (@to_position_whole U H text w Hs) as (rec & Hrun & Hj & Ho & Hd).
    exists rec, text. rewrite Hj, Ho, Hd, Htext.
    repeat split; try assumption. left.
    split; [now apply re_split1_none_sound | now split].
Qed.

End TrimmedPositions.

Lemma to_position_on_trimmed_witness :
  let text := lit "Acme Corp - Sales" in
  exists rec jt,
    run (to_position (U := basic_latin) (H := sample_host) text) w0 = Some rec
    /\ jobTitle rec = Some (JStr jt) /\ jt <> []
    /\ description rec = Some (JStr text).
Proof.
  intros text.
  destruct (@to_position_on_trimmed basic_latin sample_host text w0 eq_refl)
    as (rec & jt & Hrun & Hj & Hne & Hd & _).
  now exists rec, jt.
Defined.

(** ** Records of a whole run *)

Section RunRecords.
Context {U : UnicodeData} {H : Host}.

Lemma built_from_trimmed (k : ckey) (txt : str) (r : json) :
  trimmed txt = true -> built_from k txt r ->
  path [payload_field k] r = Some (JStr txt)
  /\ (k = positionHistory ->
      exists jt, jobTitle r = Some (JStr jt) /\ jt <> []).
Proof.
  intros Ht (w & w' & Hb).
  destruct k; cbn [MAKE_OBJ] in Hb;
    unfold to_position, to_edu, to_comp, to_ach, bind, new_uuid, ret in Hb.
  - destruct (re_split1 txt) as [[l r']|] eqn:Hs.
    + destruct (re_split1_sound _ Hs) as (a & b & c & E & Hsep & _).
      pose proof Ht as Ht'. rewrite E in Ht'.
      destruct (trimmed_sides _ _ _ _ _ Ht' Hsep) as [Hl Hr].
      destruct txt as [|c0 t]; [discriminate|].
      destruct l as [|l0 l]; [contradiction|].
      destruct r' as [|r0 r']; [contradiction|].
      destruct (ROLE_RE_search (l0 :: l)); injection Hb as <- _;
        (split; [reflexivity|]); intros _; eexists;
        (split; [reflexivity | discriminate]).
    + destruct txt as [|c0 t]; [discriminate|]. injection Hb as <- _.
      split; [reflexivity|]. intros _. eexists.
      split; [reflexivity | discriminate].
  - destruct txt as [|c0 t]; [discriminate|]. injection Hb as <- _.
    split; [reflexivity | discriminate].
  - destruct txt as [|c0 t]; [discriminate|]. injection Hb as <- _.
    split; [reflexivity | discriminate].
  - destruct txt as [|c0 t]; [discriminate|]. injection Hb as <- _.
    split; [reflexivity | discriminate].
Qed.

Lemma routed_trimmed (k : ckey) (sections : dict (list str)) (txt : str) :
  Forall group_trimmed sections ->
  In txt (routed k sections) -> trimmed txt = true.
Proof.
  intros Hs. unfold routed. rewrite in_flat_map.
  intros (item & Hin & Htxt). rewrite Forall_forall in Hs.
  destruct (Hs item Hin) as [_ Hp].
  destruct (canonical (fst item)) as [k'|]; [|contradiction].
  destruct (ckey_eqb k k'); [|contradiction].
  apply filter_In in Htxt as [Htxt _]. rewrite Forall_forall in Hp.
  now apply Hp.
Qed.

(** In the credential of a run that has at least one populated
    collection, the records of every collection are, one for one and in
    order, the records of the paragraphs routed to it: each record has
    the type of its collection and carries its own paragraph, trimmed,
    in its description (its name for a competency), and every Position
    record has a jobTitle.  A null in one of these fields, "Unknown" in
    the output, is found in the fallback record only. *)
Theorem run_records_filled (doc : list paragraph) (a : args) (w : world) :
  exists name sections vc w',
    parse_docx doc = Some (name, sections)
    /\ build_vc name sections a w = Some (vc, w')
    /\ (populated sections = true ->
        forall k recs,
          collection k (JDict vc) = Some (JList recs) ->
          Forall2 (filled_record k) (routed k sections) recs
          /\ forall r, In r recs ->
               exists txt, In txt (routed k sections)
                           /\ path [payload_field k] r = Some (JStr txt)
                           /\ txt <> []).
Proof.
  set (init := {| st_name := None; st_current := None; st_out := [] |}).
  destruct (@parse_loop_total U doc init I) as (st & Hl & _).
  assert (Hinit : all_trimmed init) by (repeat split; constructor).
  assert (Hst : all_trimmed st) by (eapply loop_trimmed; eassumption).
  destruct Hst as (Htrim & _ & _).
  destruct (parse_docx_total doc a) as (name & sections & Hparse & Hok).
  rewrite (parse_docx_loop _ Hl) in Hparse. injection Hparse as <- <-.
  destruct (build_vc_full (st_name st) (st_out st) a w Hok)
    as (g & sid & iid & s2 & created & method & vc & w' & Hb & _ & _ & _
        & Hcs & _ & _ & _ & _ & recs & Hrecs & Hpop).
  exists (st_name st), (st_out st), vc, w'.
  split; [now apply parse_docx_loop|]. split; [exact Hb|].
  intros Hp k rs Hc. rewrite Hp in Hpop.
  erewrite collection_subject in Hc by exact Hcs. rewrite Hpop in Hc.
  pose proof (Hrecs k) as Hf.
  destruct (recs k) as [|x l] eqn:E; [discriminate|]. injection Hc as <-.
  assert (Hfill : Forall2 (filled_record k) (routed k (st_out st)) (x :: l)).
  { revert Hf. apply Forall2_weaken_In. intros txt r Htxt Hbuilt.
    assert (Ht : trimmed txt = true)
      by (eapply routed_trimmed; [exact Htrim | exact Htxt]).
    destruct (@built_from_trimmed k txt r Ht Hbuilt) as [Hpay Hjob].
    split; [|split; [exact Ht | exact Hjob]].
    apply built_from_record; [|exact Hbuilt].
    eapply routed_nonempty; exact Htxt. }
  split; [exact Hfill|]. intros r Hin.
  destruct (@Forall2_In_r _ _ _ _ _ _ Hfill Hin)
    as (txt & Htxt & (_ & _ & Hpay) & _).
  exists txt. split; [exact Htxt|]. split; [exact Hpay|].
  eapply routed_nonempty; exact Htxt.
Qed.

End RunRecords.

(** ** The choice of the document *)

Section ChoiceProperties.
Context {U : UnicodeData}.
Variable ch_isdigit : char -> bool.
Variable py_int : str -> option nat.

(** [choose_docx] never indexes the candidates out of range; the file it
    returns is the candidate whose number was typed, a name of the
    listing that ends in ".docx" once lower-cased; with no candidate it
    exits before asking. *)
Theorem choose_docx_in_range (listing : list str) (typed : str) :
  choose_docx ch_isdigit py_int listing typed <> IndexError
  /\ (forall f,
         choose_docx ch_isdigit py_int listing typed = Chosen f ->
         In f listing
         /\ endswith (str_lower f) (lit ".docx") = true
         /\ exists n, isdigit ch_isdigit (strip typed) = true
                      /\ py_int (strip typed) = Some n
                      /\ 1 <= n <= length (docx_files listing)
                      /\ nth_error (docx_files listing) (n - 1) = Some f)
  /\ (docx_files listing = [] ->
      choose_docx ch_isdigit py_int listing typed
      = Exit (lit "No .docx files found in current directory.")).
Proof.
  unfold choose_docx. split; [|split].
  - destruct (docx_files listing) as [|d ds] eqn:Hd; [discriminate|].
    destruct (negb (isdigit ch_isdigit (strip typed))); [discriminate|].
    destruct (py_int (strip typed)) as [n|]; [|discriminate].
    destruct (negb _) eqn:Hr; [discriminate|].
    apply negb_false_iff, andb_true_iff in Hr as [H1 H2].
    apply Nat.leb_le in H1, H2.
    destruct (nth_error (d :: ds) (n - 1)) eqn:Hn; [discriminate|].
    apply nth_error_None in Hn. lia.
  - intros f. destruct (docx_files listing) as [|d ds] eqn:Hd; [discriminate|].
    destruct (isdigit ch_isdigit (strip typed)) eqn:Hdig; [|discriminate].
    cbn [negb].
    destruct (py_int (strip typed)) as [n|]; [|discriminate].
    destruct (negb _) eqn:Hr; [discriminate|].
    apply negb_false_iff, andb_true_iff in Hr as [H1 H2].
    apply Nat.leb_le in H1, H2.
    destruct (nth_error (d :: ds) (n - 1)) as [f'|] eqn:Hn; [|discriminate].
    intros E. injection E as ->.
    assert (Hin : In f (docx_files listing))
      by (rewrite Hd; eapply nth_error_In; exact Hn).
    unfold docx_files in Hin. apply filter_In in Hin as [Hin Hext].
    split; [exact Hin|]. split; [exact Hext|].
    exists n. repeat split; assumption.
  - now intros ->.
Qed.

End ChoiceProperties.

(** Two candidates among three names; the answer " 2 " picks the second. *)
Lemma choose_docx_in_range_witness :
  let listing := [lit "cv.DOCX"; lit "notes.txt"; lit "old cv.docx"] in
  choose_docx (U := basic_latin) latin_digit latin_int listing (lit " 2 ")
  = Chosen (lit "old cv.docx")
  /\ In (lit "old cv.docx") listing.
Proof.
  intros listing.
  assert (E : choose_docx (U := basic_latin) latin_digit latin_int listing
                (lit " 2 ") = Chosen (lit "old cv.docx")) by reflexivity.
  split; [exact E|].
  exact (proj1 (proj1 (proj2 (@choose_docx_in_range basic_latin latin_digit
                                latin_int listing (lit " 2 "))) _ E)).
Defined.

(** ** The order of the subject's keys *)

Section SubjectOrder.
Context {U : UnicodeData} {H : Host}.

Lemma add_section_keys (subject subject' : dict json) (item : str * list str)
      (w w' : world) :
  collections_ok subject ->
  add_section subject item w = Some (subject', w') ->
  collections_ok subject'
  /\ map fst subject' = fold_left add_key (populating_keys [item])
                                  (map fst subject).
Proof.
  intros Hok. destruct item as [head paras].
  unfold add_section, populating_keys. cbn [flat_map fst snd].
  rewrite app_nil_r.
  destruct (canonical head) as [key|].
  - destruct (mapM_MAKE_OBJ key (filter nonempty paras) w)
      as (objs & w1 & Hm & Hf).
    unfold bind. rewrite Hm. destruct objs as [|x objs].
    + assert (E : filter nonempty paras = [])
        by (apply (proj2 (Forall2_nil_iff Hf)); reflexivity).
      rewrite E. intros E'. injection E' as <- _. now split.
    + destruct (filter nonempty paras) as [|t ts] eqn:E;
        [apply Forall2_nil_iff in Hf; destruct Hf as [Hf _];
         discriminate (Hf eq_refl)|].
      destruct (setdefault_extend_spec key x objs w1 Hok)
        as (s' & Hs & Hok' & Hg & Hother).
      rewrite Hs. intros E'. injection E' as <- _. split; [exact Hok'|].
      clear - Hs. unfold setdefault_extend in Hs. cbn [fold_left].
      destruct (dict_get (ckey_name key) subject) as [[ | | | | l | ]|];
        try discriminate; injection Hs as <-; apply keys_dict_set.
  - intros E. injection E as <- _. now split.
Qed.

Lemma populating_keys_cons (item : str * list str)
      (sections : dict (list str)) :
  populating_keys (item :: sections)
  = populating_keys [item] ++ populating_keys sections.
Proof. unfold populating_keys. simpl. now rewrite app_nil_r. Qed.

Lemma foldM_add_section_keys (sections : dict (list str))
      (subject subject' : dict json) (w w' : world) :
  collections_ok subject ->
  foldM add_section subject sections w = Some (subject', w') ->
  map fst subject' = fold_left add_key (populating_keys sections)
                               (map fst subject).
Proof.
  revert subject w. induction sections as [|item sections IH];
    intros subject w Hok; cbn [foldM].
  - intros E. now injection E as <- _.
  - unfold bind.
    destruct (add_section subject item w) as [[s1 w1]|] eqn:Hs; [|discriminate].
    intros Hf. destruct (add_section_keys _ _ Hok Hs) as [Hok1 Hk1].
    rewrite (IH _ _ Hok1 Hf), Hk1, (populating_keys_cons item sections).
    now rewrite fold_left_app.
Qed.

Lemma add_key_app (ks acc : list str) (t : str) :
  ~ In t ks -> add_key (ks ++ acc) t = ks ++ add_key acc t.
Proof.
  intros Hn. unfold add_key. rewrite existsb_app.
  assert (E : existsb (str_eqb t) ks = false).
  { destruct (existsb (str_eqb t) ks) eqn:E; [|reflexivity].
    apply existsb_exists in E as (x & Hx & Ex). apply str_eqb_eq in Ex.
    subst x. contradiction. }
  rewrite E. simpl. destruct (existsb (str_eqb t) acc); [reflexivity|].
  now rewrite app_assoc.
Qed.

Lemma fold_add_key_app (l ks acc : list str) :
  (forall x, In x l -> ~ In x ks) ->
  fold_left add_key l (ks ++ acc) = ks ++ fold_left add_key l acc.
Proof.
  revert acc. induction l as [|t l IH]; intros acc Hl; [reflexivity|].
  simpl. rewrite add_key_app by (apply Hl; now left).
  apply IH. intros x Hx. apply Hl. now right.
Qed.

Lemma populating_keys_canonical (sections : dict (list str)) (x : str) :
  In x (populating_keys sections) -> exists k, x = ckey_name k.
Proof.
  unfold populating_keys. rewrite in_flat_map. intros (item & _ & Hx).
  destruct (canonical (fst item)) as [k|]; [|contradiction].
  destruct (filter nonempty (snd item)); [contradiction|].
  destruct Hx as [<-|[]]. now exists k.
Qed.

(** The keys of the subject are id, type, personalData, then the
    canonical collections in the order in which the groups first put a
    record in them (one key per collection, whatever the number of groups
    routed to it), and positionHistory alone when no group does; no key
    comes twice. *)
Theorem subject_key_order (name : option str) (sections : dict (list str))
        (a : args) (w : world) :
  title_ok a name = true ->
  exists vc w' subject,
    build_vc name sections a w = Some (vc, w')
    /\ dict_get (lit "credentialSubject") vc = Some (JDict subject)
    /\ map fst subject
       = [lit "id"; lit "type"; lit "personalData"]
         ++ match populating_keys sections with
            | [] => [lit "positionHistory"]
            | _ :: _ => first_seen (populating_keys sections)
            end
    /\ NoDup (map fst subject).
Proof.
  intros Hok.
  destruct (build_vc_steps name sections a w Hok)
    as (g & sid & w1 & s1 & w2 & s2 & w3 & iid & w4 & _ & _ & Hfold
        & Hok1 & Hguar & _ & _ & _ & _ & Hb).
  pose proof (foldM_add_section_keys _ _ (header_collections_ok sid _) Hfold)
    as Hk1.
  assert (Hhead : NoDup [lit "id"; lit "type"; lit "personalData"]).
  { repeat (constructor; [simpl; intuition discriminate|]); constructor. }
  assert (Hdisj : forall x, In x (populating_keys sections) ->
                            ~ In x [lit "id"; lit "type"; lit "personalData"]).
  { intros x Hx. apply populating_keys_canonical in Hx as [k ->].
    destruct k; simpl; intros [E|[E|[E|[]]]]; discriminate. }
  assert (Hnd1 : NoDup (map fst s1)).
  { rewrite Hk1.
    exact (proj1 (first_seen_spec (populating_keys sections) Hhead)). }
  assert (Hk2 : map fst s1
                = [lit "id"; lit "type"; lit "personalData"]
                  ++ fold_left add_key (populating_keys sections) []).
  { rewrite Hk1. exact (@fold_add_key_app _ _ [] Hdisj). }
  clear Hk1. rename Hk2 into Hk1.
  do 2 eexists. exists s2. split; [exact Hb|].
  split; [apply credential_subject|].
  destruct (populating_keys sections) as [|x l] eqn:Hpk.
  - simpl in Hk1.
    assert (Hnone : forall k, dict_get (ckey_name k) s1 = None).
    { intros k. apply dict_get_None_iff. rewrite Hk1.
      destruct k; simpl; intros [E|[E|[E|[]]]]; discriminate. }
    destruct (guarantee_section_empty s1 w2 Hnone) as (id & w3' & Hg).
    rewrite Hguar in Hg. injection Hg as -> _.
    rewrite keys_dict_set, Hk1. split; [reflexivity|].
    unfold add_key. simpl.
    repeat (constructor; [simpl; intuition discriminate|]); constructor.
  - assert (Hx : exists k, x = ckey_name k)
      by (apply (populating_keys_canonical sections); rewrite Hpk; now left).
    destruct Hx as [k ->].
    assert (Hin : dict_get (ckey_name k) s1 <> None).
    { intros E. apply dict_get_None_iff in E. apply E. rewrite Hk1.
      apply in_or_app. right.
      apply (proj2 (first_seen_spec (ckey_name k :: l) (NoDup_nil _))).
      right. now left. }
    rewrite (guarantee_section_populated s1 w2 k Hin) in Hguar.
    injection Hguar as <- _. split; [exact Hk1 | exact Hnd1].
Qed.

End SubjectOrder.

(** Groups under Skills, Experience and Competencies give the keys id,
    type, personalData, competency, positionHistory: competency once and
    first. *)
Lemma subject_key_order_witness :
  exists vc w' subject,
    build_vc (U := basic_latin) (H := sample_host) None
      [(lit "Skills", [lit "Python"]);
       (lit "Experience", [lit "Engineer - Acme"]);
       (lit "Competencies", [lit "Rust"])] no_args w0 = Some (vc, w')
    /\ dict_get (lit "credentialSubject") vc = Some (JDict subject)
    /\ map fst subject
       = [lit "id"; lit "type"; lit "personalData"; lit "competency";
          lit "positionHistory"].
Proof.
  destruct (@subject_key_order basic_latin sample_host None
              [(lit "Skills", [lit "Python"]);
               (lit "Experience", [lit "Engineer - Acme"]);
               (lit "Competencies", [lit "Rust"])] no_args w0 eq_refl)
    as (vc & w' & subject & Hb & Hs & Hk & _).
  exists vc, w', subject. split; [exact Hb|]. split; [exact Hs|].
  rewrite Hk. reflexivity.
Defined.
